(** * Skema: route-schema generation, verified against its specification

    A shallow embedding of the [skema:generate] command (class
    [SkemaGenerate]), of [defineConfig] ([src/define_config.ts]) and of
    the runtime helpers ([src/register_route.ts]), followed by the
    properties the specification states about them.

    JavaScript strings are modelled as [string] (sequences of 8-bit code
    units); the case mappings are the ASCII ones, every other code unit
    is left as it is.  Library code that is not part of the repository
    (case conversion helpers of [@adonisjs/core], [node:path], the
    binding-reference parser) is taken as a parameter, see [Host]. *)

From Stdlib Require Import String Ascii List Bool Arith PeanoNat NArith Lia.
From Stdlib Require Import DecimalString.
Import ListNotations.

Local Open Scope list_scope.
Local Open Scope string_scope.

(* ================================================================== *)
(** * Part I: the embedding *)
(* ================================================================== *)

(** ** Results of fallible code

    A [throw] unwinds the whole command; [Ok] carries the value on. *)

Inductive Result (E A : Type) : Type :=
| Ok (a : A)
| Throw (e : E).

Arguments Ok {E A} a.
Arguments Throw {E A} e.

Definition bind {E A B} (m : Result E A) (k : A -> Result E B) : Result E B :=
  match m with
  | Ok a => k a
  | Throw e => Throw e
  end.

Notation "x <- m ;; k" := (bind m (fun x => k))
  (at level 61, m at next level, right associativity).

(** ** JavaScript string primitives used by the sources *)

Module JsString.

(** [s.startsWith(p)] *)
Fixpoint startsWith (s p : string) {struct p} : bool :=
  match p with
  | EmptyString => true
  | String a p' =>
      match s with
      | EmptyString => false
      | String b s' => Ascii.eqb a b && startsWith s' p'
      end
  end.

(** [s.endsWith(suffix)]: some tail of [s] is [suffix]. *)
Fixpoint endsWith (s suffix : string) : bool :=
  String.eqb s suffix ||
  match s with
  | EmptyString => false
  | String _ s' => endsWith s' suffix
  end.

(** Drop the first [n] code units. *)
Fixpoint drop (n : nat) (s : string) : string :=
  match n, s with
  | O, _ => s
  | S n', String _ s' => drop n' s'
  | S _, EmptyString => EmptyString
  end.

(** [s.replace(pat, rep)] with a string pattern: only the FIRST
    occurrence of [pat] is replaced. *)
Fixpoint replace (pat rep s : string) : string :=
  if startsWith s pat then rep ++ drop (String.length pat) s
  else match s with
       | EmptyString => EmptyString
       | String c s' => String c (replace pat rep s')
       end.

(** [s.split(sep)] with a one-character string separator. *)
Fixpoint split (sep : ascii) (s : string) : list string :=
  match s with
  | EmptyString => [EmptyString]
  | String c s' =>
      if Ascii.eqb c sep then EmptyString :: split sep s'
      else match split sep s' with
           | t :: ts => String c t :: ts
           | [] => [String c EmptyString]
           end
  end.

Definition head_is (p : ascii -> bool) (s : string) : bool :=
  match s with
  | EmptyString => false
  | String c _ => p c
  end.

(** [s.split(/[...]+/)]: the separators are the maximal runs of code
    units of the class [sep]. *)
Fixpoint splitRuns (sep : ascii -> bool) (s : string) : list string :=
  match s with
  | EmptyString => [EmptyString]
  | String c s' =>
      if sep c then
        if head_is sep s' then splitRuns sep s'
        else EmptyString :: splitRuns sep s'
      else match splitRuns sep s' with
           | t :: ts => String c t :: ts
           | [] => [String c EmptyString]
           end
  end.

(** [parts.join(sep)] *)
Definition join (sep : string) (parts : list string) : string :=
  String.concat sep parts.

(** [xs.pop()] read as "the last element, if any". *)
Definition pop (xs : list string) : option string :=
  match rev xs with
  | [] => None
  | x :: _ => Some x
  end.

(** [xs.slice(1)] *)
Definition slice1 (xs : list string) : list string := tl xs.

Definition is_lower (c : ascii) : bool :=
  let n := nat_of_ascii c in (Nat.leb 97 n && Nat.leb n 122)%bool.
Definition is_upper (c : ascii) : bool :=
  let n := nat_of_ascii c in (Nat.leb 65 n && Nat.leb n 90)%bool.
Definition is_digit (c : ascii) : bool :=
  let n := nat_of_ascii c in (Nat.leb 48 n && Nat.leb n 57)%bool.

Definition lower_char (c : ascii) : ascii :=
  if is_upper c then ascii_of_nat (nat_of_ascii c + 32) else c.
Definition upper_char (c : ascii) : ascii :=
  if is_lower c then ascii_of_nat (nat_of_ascii c - 32) else c.

Fixpoint map_chars (f : ascii -> ascii) (s : string) : string :=
  match s with
  | EmptyString => EmptyString
  | String c s' => String (f c) (map_chars f s')
  end.

(** [s.toLowerCase()] and [s.toUpperCase()] *)
Definition toLowerCase : string -> string := map_chars lower_char.
Definition toUpperCase : string -> string := map_chars upper_char.

Fixpoint all_chars (p : ascii -> bool) (s : string) : bool :=
  match s with
  | EmptyString => true
  | String c s' => p c && all_chars p s'
  end.

(** JavaScript truthiness of a string: [Boolean(s)], [!s]. *)
Definition truthy (s : string) : bool :=
  match s with EmptyString => false | _ => true end.

(** Truthiness of [string | undefined]. *)
Definition truthy_opt (s : option string) : bool :=
  match s with None => false | Some s' => truthy s' end.

End JsString.

(** ** Regular expressions

    The patterns of the sources are kept as syntax and run by a
    derivative matcher.  Every pattern that the sources [test] or
    [match] is of the form [/^body$/]: the matcher decides whether the
    WHOLE subject is in the language of [body] ([$] without the [m]
    flag matches at the end of the input only). *)

Module RegExp.

(** Members of a bracket expression: [a-z] or a single code unit. *)
Inductive item : Type :=
| Range (lo hi : ascii)
| One (c : ascii).

Definition in_item (c : ascii) (i : item) : bool :=
  match i with
  | Range lo hi =>
      (Nat.leb (nat_of_ascii lo) (nat_of_ascii c) &&
       Nat.leb (nat_of_ascii c) (nat_of_ascii hi))%bool
  | One d => Ascii.eqb c d
  end.

Definition in_class (cls : list item) (c : ascii) : bool :=
  existsb (in_item c) cls.

Inductive regex : Type :=
| Never
| Empty
| Class (cls : list item) (ignoreCase : bool)
| Seq (r1 r2 : regex)
| Alt (r1 r2 : regex)
| Star (r : regex).

Definition Chr (c : ascii) : regex := Class [One c] false.
Definition Plus (r : regex) : regex := Seq r (Star r).

(** With the [i] flag (and no [u] flag) a code unit matches a class
    when one of its case variants is a member. *)
Definition class_accepts (cls : list item) (ignoreCase : bool) (c : ascii) : bool :=
  if ignoreCase
  then in_class cls c || in_class cls (JsString.lower_char c)
       || in_class cls (JsString.upper_char c)
  else in_class cls c.

Fixpoint nullable (r : regex) : bool :=
  match r with
  | Never => false
  | Empty => true
  | Class _ _ => false
  | Seq r1 r2 => nullable r1 && nullable r2
  | Alt r1 r2 => nullable r1 || nullable r2
  | Star _ => true
  end.

Fixpoint deriv (c : ascii) (r : regex) : regex :=
  match r with
  | Never => Never
  | Empty => Never
  | Class cls i => if class_accepts cls i c then Empty else Never
  | Seq r1 r2 =>
      if nullable r1
      then Alt (Seq (deriv c r1) r2) (deriv c r2)
      else Seq (deriv c r1) r2
  | Alt r1 r2 => Alt (deriv c r1) (deriv c r2)
  | Star r1 => Seq (deriv c r1) (Star r1)
  end.

Fixpoint matches (r : regex) (s : string) : bool :=
  match s with
  | EmptyString => nullable r
  | String c s' => matches (deriv c r) s'
  end.

(** The [i] flag applies to every class of the pattern. *)
Fixpoint with_flag_i (r : regex) : regex :=
  match r with
  | Never => Never
  | Empty => Empty
  | Class cls _ => Class cls true
  | Seq r1 r2 => Seq (with_flag_i r1) (with_flag_i r2)
  | Alt r1 r2 => Alt (with_flag_i r1) (with_flag_i r2)
  | Star r1 => Star (with_flag_i r1)
  end.

(** A literal [/^body$/] or [/^body$/i]. *)
Record t : Type := { body : regex; flag_i : bool }.

(** [re.test(s)]; [s.match(re)] is truthy exactly when this holds. *)
Definition test (re : t) (s : string) : bool :=
  matches (if flag_i re then with_flag_i (body re) else body re) s.

Definition lower_az : item := Range "a" "z".
Definition upper_az : item := Range "A" "Z".
Definition digit_09 : item := Range "0" "9".

(** [/^\/[a-z0-9-\/]+\/$/] (define_config.ts) *)
Definition groupValue : t :=
  {| body := Seq (Chr "/")
               (Seq (Plus (Class [lower_az; digit_09; One "-"; One "/"] false))
                    (Chr "/"));
     flag_i := false |}.

(** [/^[a-z0-9_]+$/] (define_config.ts) *)
Definition groupKey : t :=
  {| body := Plus (Class [lower_az; digit_09; One "_"] false);
     flag_i := false |}.

(** [/^:[a-zA-Z]+$/i] ([SkemaGenerate.run]) *)
Definition parameterSegment : t :=
  {| body := Seq (Chr ":") (Plus (Class [lower_az; upper_az] false));
     flag_i := true |}.

(** [/^[a-z0-9-]+$/i] ([SkemaGenerate.run]) *)
Definition literalSegment : t :=
  {| body := Plus (Class [lower_az; digit_09; One "-"] false);
     flag_i := true |}.

End RegExp.

(** ** Plain objects used as ordered maps

    An object is the list of its own string-keyed properties in the
    order they were created.  Enumeration ([Object.keys],
    [Object.entries], [for..in]) does NOT follow that order for every
    key: keys that are array indices (canonical decimal numerals up to
    2^32 - 2) come first, in ascending numeric order, and the other
    keys follow in creation order (ECMAScript, OrdinaryOwnPropertyKeys). *)

Module JsObject.

Definition t : Type := list (string * string).

Definition digit_value (c : ascii) : N := N.of_nat (nat_of_ascii c - 48).

Fixpoint decimal (acc : N) (s : string) : N :=
  match s with
  | EmptyString => acc
  | String c s' => decimal (10 * acc + digit_value c)%N s'
  end.

(** A canonical numeric string: digits only, no superfluous leading
    zero. *)
Definition canonical_numeral (k : string) : bool :=
  match k with
  | EmptyString => false
  | String "0" EmptyString => true
  | String "0" _ => false
  | _ => JsString.all_chars JsString.is_digit k
  end.

Definition max_array_index : N := 4294967294.

Definition arrayIndex (k : string) : option N :=
  if canonical_numeral k
  then let n := decimal 0 k in
       if (n <=? max_array_index)%N then Some n else None
  else None.

Definition is_index_key (k : string) : bool :=
  match arrayIndex k with Some _ => true | None => false end.

Fixpoint insert_sorted (n : N) (e : string * string)
         (l : list (N * (string * string))) : list (N * (string * string)) :=
  match l with
  | [] => [(n, e)]
  | (m, e') :: l' =>
      if (n <? m)%N then (n, e) :: l else (m, e') :: insert_sorted n e l'
  end.

Fixpoint index_entries (o : t) : list (N * (string * string)) :=
  match o with
  | [] => []
  | e :: o' =>
      match arrayIndex (fst e) with
      | Some n => insert_sorted n e (index_entries o')
      | None => index_entries o'
      end
  end.

Definition named_entries (o : t) : list (string * string) :=
  filter (fun e => negb (is_index_key (fst e))) o.

(** [Object.entries(o)] *)
Definition entries (o : t) : list (string * string) :=
  map snd (index_entries o) ++ named_entries o.

(** [Object.keys(o)] *)
Definition keys (o : t) : list string := map fst (entries o).

End JsObject.

(** ** [src/define_config.ts] *)

Definition quote : string := String (ascii_of_nat 34) EmptyString.

Record FinesConfig : Type := { groups : JsObject.t }.

Inductive ConfigError : Type :=
| InvalidArgumentsException (message : string).

Definition invalid_value_message (key value : string) : string :=
  "Invalid group " ++ quote ++ key ++ quote ++ " value: " ++ quote ++ value ++ quote
  ++ ", Only alphanumeric characters and hyphens are allowed with leading and trailing slashes".

Definition invalid_name_message (key : string) : string :=
  "Invalid group " ++ quote ++ key ++ quote
  ++ " name, Only alphanumeric characters and underscores are allowed".

(** The body of the [for (const [key, value] of Object.entries(...))]
    loop, run over the entries in enumeration order. *)
Fixpoint checkGroups (es : list (string * string)) : Result ConfigError unit :=
  match es with
  | [] => Ok tt
  | (key, value) :: rest =>
      if negb (RegExp.test RegExp.groupValue value)
      then Throw (InvalidArgumentsException (invalid_value_message key value))
      else if negb (RegExp.test RegExp.groupKey key)
      then Throw (InvalidArgumentsException (invalid_name_message key))
      else checkGroups rest
  end.

Definition defineConfig (config : FinesConfig) : Result ConfigError FinesConfig :=
  let groupsLength := List.length (JsObject.keys (groups config)) in
  if Nat.ltb 0 groupsLength
  then _ <- checkGroups (JsObject.entries (groups config)) ;; Ok config
  else Ok config.

(** ** Runtime helpers: [src/interpolate.ts] and [src/register_route.ts] *)

Module Runtime.

(** Parameter values and their string representation, [String(v)]. *)
Inductive ParamValue : Type :=
| PString (s : string)
| PNumber (n : N).

Definition toString (v : ParamValue) : string :=
  match v with
  | PString s => s
  | PNumber n => NilZero.string_of_uint (N.to_uint n)
  end.

(** A parameters object; [None] is [undefined] (no argument given). *)
Definition Params : Type := list (string * ParamValue).

Fixpoint get (name : string) (ps : Params) : option ParamValue :=
  match ps with
  | [] => None
  | (k, v) :: ps' => if String.eqb k name then Some v else get name ps'
  end.

Definition param (name : string) (ps : option Params) : option ParamValue :=
  match ps with
  | None => None
  | Some o => get name o
  end.

Inductive InterpolateError : Type :=
| MissingParameter (name : string).

Definition is_space (c : ascii) : bool := Ascii.eqb c " ".

Fixpoint trimStart (s : string) : string :=
  match s with
  | EmptyString => EmptyString
  | String c s' => if is_space c then trimStart s' else s
  end.

Fixpoint trimEnd (s : string) : string :=
  match s with
  | EmptyString => EmptyString
  | String c s' =>
      match trimEnd s' with
      | EmptyString => if is_space c then EmptyString else String c EmptyString
      | t => String c t
      end
  end.

Definition trim (s : string) : string := trimEnd (trimStart s).

(** Modelled from the spec: the scanner behind [interpolate] (section
    4.9; [src/interpolate.ts] is not among the sources).  [hole] is
    [None] in literal text and [Some name] after an opening [{{], with
    the code units of the placeholder read so far; the name of a
    placeholder is what stands between [{{] and [}}], blanks trimmed. *)
Fixpoint scan (ps : option Params) (hole : option string) (s : string)
  : Result InterpolateError string :=
  match s with
  | EmptyString =>
      match hole with
      | None => Ok EmptyString
      | Some name => Ok ("{{" ++ name)
      end
  | String c rest =>
      match hole with
      | None =>
          if Ascii.eqb c "{" then
            match rest with
            | String d rest' =>
                if Ascii.eqb d "{" then scan ps (Some EmptyString) rest'
                else r <- scan ps None rest ;; Ok (String c r)
            | EmptyString => Ok (String c EmptyString)
            end
          else r <- scan ps None rest ;; Ok (String c r)
      | Some name =>
          if Ascii.eqb c "}" then
            match rest with
            | String d rest' =>
                if Ascii.eqb d "}" then
                  match param (trim name) ps with
                  | Some v => r <- scan ps None rest' ;; Ok (toString v ++ r)
                  | None => Throw (MissingParameter (trim name))
                  end
                else scan ps (Some (name ++ String c EmptyString)) rest
            | EmptyString => Ok ("{{" ++ name ++ String c EmptyString)
            end
          else scan ps (Some (name ++ String c EmptyString)) rest
      end
  end.

(** Modelled from the spec: [interpolate] of [src/interpolate.ts], which
    [src/register_route.ts] imports and [index.ts] re-exports, is not
    among the sources.  Following section 4.9: every [{{ name }}]
    placeholder of the template is replaced by the string
    representation of the parameter [name]; a placeholder whose name
    has no corresponding parameter is an error; text outside
    placeholders is copied. *)
Definition interpolate (template : string) (ps : option Params)
  : Result InterpolateError string :=
  scan ps None template.

(** [const pathParser = (path, params) => interpolate(path, params)] *)
Definition pathParser (path : string) (ps : option Params)
  : Result InterpolateError string :=
  interpolate path ps.

(** The argument and the result of [register]; [io] carries types only
    and has no runtime content. *)
Record RegisterParams : Type :=
  { params_path : string; params_method : string; params_form : bool }.

Record Descriptor : Type :=
  { path : option Params -> Result InterpolateError string;
    method : string;
    form : bool }.

Definition register (params : RegisterParams) : Descriptor :=
  {| path := fun p => pathParser (params_path params) p;
     method := params_method params;
     form := params_form params |}.

End Runtime.

(** ** The generation command: class [SkemaGenerate] *)

Fixpoint foldM {E S A : Type} (f : S -> A -> Result E S) (s : S) (l : list A)
  : Result E S :=
  match l with
  | [] => Ok s
  | a :: l' => s' <- f s a ;; foldM f s' l'
  end.

(** What the command reads through [ts-morph]: the source files of the
    project, the classes they declare and the properties of a class. *)
Module TsMorph.

Record TypeInfo : Type :=
  { isObject : bool; isBoolean : bool; isClass : bool }.

(** [initializer] is [getStructure().initializer]: the TEXT of the
    initializer expression, or [None] ([undefined]) without one. *)
Record PropertyDeclaration : Type :=
  { getName : string;
    getType : TypeInfo;
    initializer : option string }.

Record ClassDeclaration : Type :=
  { isDefaultExport : bool;
    classType : TypeInfo;
    getProperties : list PropertyDeclaration }.

Definition getProperty (c : ClassDeclaration) (name : string)
  : option PropertyDeclaration :=
  find (fun p => String.eqb (getName p) name) (getProperties c).

Record SourceFile : Type :=
  { getFilePath : string;
    getClasses : list ClassDeclaration }.

End TsMorph.

(** Library functions the command calls and the repository does not
    contain. *)
Record Host : Type :=
  { (** [stringHelpers.snakeCase], [stringHelpers.pascalCase] *)
    snakeCase : string -> string;
    pascalCase : string -> string;
    (** [parseBindingReference(reference).moduleNameOrPath] *)
    parseBindingReference : string -> string;
    (** [fileURLToPath(new URL(path, this.app.appRoot))] *)
    getRootPath : string -> string;
    (** [slash(relative(from, to))] *)
    getRelativePath : string -> string -> string }.

Module Name.
Record t : Type := { key : string; type : string }.
End Name.

Module Controller.
Record t : Type := { relative : string; path : string }.
End Controller.

Record ParsedRoute : Type :=
  { path : string;
    method : string;
    form : bool;
    name : Name.t;
    controller : Controller.t }.

Inductive Handler : Type :=
| HandlerFunction
| HandlerReference (reference : string).

Record RouteJSON : Type :=
  { pattern : string;
    methods : list string;
    handler : Handler }.

(** Everything the command can die of. *)
Inductive GenError : Type :=
| InvalidConfigFile
| UnableToDetermineFileName (path : string)
| FileNameMustEndWithController (path : string)
| InvalidParameterSegment (segment : nat) (route : string)
| InvalidLiteralSegment (segment : nat) (route : string)
| ControllerAlreadyRegistered (currentRoute registeredRoute : ParsedRoute)
| KeyAlreadyRegistered (currentRoute registeredRoute : ParsedRoute)
| ProcessExit (command : string).

Definition errorMessage (e : GenError) : string :=
  match e with
  | InvalidConfigFile =>
      "Invalid " ++ quote ++ "config/fines.ts" ++ quote
      ++ " file. Make sure you are using the " ++ quote ++ "defineConfig" ++ quote ++ " method"
  | UnableToDetermineFileName _ => "Unable to determine the file name"
  | FileNameMustEndWithController _ =>
      "The file name must end with " ++ quote ++ "_controller.ts" ++ quote
  | InvalidParameterSegment _ _ => "Only small letters allowed in parameter segments"
  | InvalidLiteralSegment _ _ =>
      "Only small letters and number allowed in non parameter segments"
  | ControllerAlreadyRegistered cur _ =>
      "The controller " ++ Controller.path (controller cur) ++ " is already registered"
  | KeyAlreadyRegistered _ _ => "The controller key has already been registered"
  | ProcessExit _ => EmptyString
  end.

(** The outcome of a logger action. *)
Inductive Event : Type :=
| Succeeded (action : string)
| Skipped (action : string) (message : string).

(** A written [schema.ts]: the reference line, one type alias per route
    and the entries of the exported [routes] object. *)
Record SchemaFile : Type :=
  { fileGroup : string;
    filePath : string;
    referenceLine : string;
    typeAliases : list string;
    routeEntries : list string;
    fileRoutes : list ParsedRoute }.

(** The variables of [run]: [allParsedRoutes], the [parsedRoutes] of
    the group at hand, what the logger has shown and the files saved. *)
Record RunState : Type :=
  { allParsedRoutes : list ParsedRoute;
    parsedRoutes : list ParsedRoute;
    events : list Event;
    files : list SchemaFile }.

Definition report (st : RunState) (e : Event) : RunState :=
  {| allParsedRoutes := allParsedRoutes st;
     parsedRoutes := parsedRoutes st;
     events := (events st ++ [e])%list;
     files := files st |}.

Definition emptyState : RunState :=
  {| allParsedRoutes := []; parsedRoutes := []; events := []; files := [] |}.

(** ** [#getMethod] *)

Definition getMethod (methods : list string) : string :=
  fold_left
    (fun result method =>
       let lowerMethod := JsString.toLowerCase method in
       if String.eqb lowerMethod "head" then result
       else JsString.toUpperCase lowerMethod)
    methods "GET".

(** ** [#getConstructorAction] *)

Definition getConstructorAction (path : string) : Result GenError (list string) :=
  match JsString.pop (JsString.split "/" path) with
  | None => Throw (UnableToDetermineFileName path)
  | Some fileName =>
      if negb (JsString.truthy fileName)
      then Throw (UnableToDetermineFileName path)
      else if negb (JsString.endsWith fileName "_controller.ts")
      then Throw (FileNameMustEndWithController path)
      else Ok (JsString.split "_"
                 (JsString.replace "_controller.ts" EmptyString fileName))
  end.

(** ** [#groupRoutes] *)

(** The inner loop: the first entry whose value the pattern starts
    with sets [group] and breaks. *)
Fixpoint matchGroup (es : list (string * string)) (routePattern : string)
  : option string :=
  match es with
  | [] => None
  | (key, value) :: rest =>
      if JsString.startsWith routePattern value then Some key
      else matchGroup rest routePattern
  end.

Definition groupOf (config : FinesConfig) (routePattern : string) : string :=
  let group := matchGroup (JsObject.entries (groups config)) routePattern in
  if negb (JsString.truthy_opt group) then "internal"
  else match group with Some g => g | None => "internal" end.

(** [result.has(group)] / [result.set(group, [])] / [result.get(group).push(route)]
    on a [Map], which keeps its keys in insertion order. *)
Fixpoint mapPush (group : string) (route : RouteJSON)
         (result : list (string * list RouteJSON)) : list (string * list RouteJSON) :=
  match result with
  | [] => [(group, [route])]
  | (g, rs) :: rest =>
      if String.eqb g group then (g, (rs ++ [route])%list) :: rest
      else (g, rs) :: mapPush group route rest
  end.

Definition groupRoutes (rawConfig : option FinesConfig) (routes : list RouteJSON)
  : Result GenError (list (string * list RouteJSON)) :=
  match rawConfig with
  | None => Throw InvalidConfigFile
  | Some config =>
      Ok (fold_left
            (fun result route => mapPush (groupOf config (pattern route)) route result)
            routes [])
  end.

(** ** [run] *)

Section Run.

Variable host : Host.

(** [this.#project.getSourceFiles()] *)
Variable sourcesFiles : list TsMorph.SourceFile.

Definition getClientPath (p : string) : string :=
  getRootPath host ("./client/" ++ p).

Definition getSchemaPath (group : string) : string :=
  getClientPath (group ++ "/schema.ts").

(** [sourcesFiles.find((sf) => sf.getFilePath().endsWith(...))] *)
Definition findSourceFile (moduleNameOrPath : string) : option TsMorph.SourceFile :=
  find (fun sf =>
          JsString.endsWith (TsMorph.getFilePath sf)
            (JsString.replace "#" EmptyString moduleNameOrPath ++ ".ts"))
       sourcesFiles.

(** *** Names *)

(** The class [[./-]] of [route.pattern.split(/[./-]+/)]. *)
Definition isSeparator (c : ascii) : bool :=
  RegExp.in_class [RegExp.One "."; RegExp.One "/"; RegExp.One "-"] c.

Definition isParameter (segment : string) : bool :=
  JsString.startsWith segment ":".

(** [new Set(xs)] keeps the first occurrence of each value, in
    insertion order. *)
Definition setAdd (set : list string) (x : string) : list string :=
  if existsb (String.eqb x) set then set else (set ++ [x])%list.

Definition newSet (xs : list string) : list string := fold_left setAdd xs [].

Definition patternTokens (routePattern : string) : list string :=
  filter (fun segment => negb (isParameter segment))
         (JsString.splitRuns isSeparator routePattern).

Definition joinedSpacedPath (spacedPath : list string) : string :=
  JsString.join " " (newSet (map (snakeCase host) spacedPath)).

Definition nameOfPhrase (phrase : string) : Name.t :=
  {| Name.key := JsString.toUpperCase (snakeCase host phrase);
     Name.type := pascalCase host phrase ++ "Route" |}.

Definition deriveName (routePattern relativePath : string) : Result GenError Name.t :=
  action <- getConstructorAction relativePath ;;
  let spacedPath := (patternTokens routePattern ++ action)%list in
  Ok (nameOfPhrase (joinedSpacedPath spacedPath)).

(** *** Path segments *)

Definition rewriteSegment (routePattern : string) (segmentIndex : nat)
           (segment : string) : Result GenError string :=
  if isParameter segment then
    if RegExp.test RegExp.parameterSegment segment
    then Ok ("{{ " ++ JsString.replace ":" EmptyString segment ++ " }}")
    else Throw (InvalidParameterSegment segmentIndex routePattern)
  else
    if negb (RegExp.test RegExp.literalSegment segment)
    then Throw (InvalidLiteralSegment segmentIndex routePattern)
    else Ok segment.

Fixpoint rewriteSegments (routePattern : string) (segmentIndex : nat)
         (splittedPath : list string) : Result GenError (list string) :=
  match splittedPath with
  | [] => Ok []
  | segment :: rest =>
      segment' <- rewriteSegment routePattern segmentIndex segment ;;
      rest' <- rewriteSegments routePattern (S segmentIndex) rest ;;
      Ok (segment' :: rest')
  end.

Definition rewritePath (routePattern : string) : Result GenError string :=
  splittedPath <- rewriteSegments routePattern 0
                    (JsString.slice1 (JsString.split "/" routePattern)) ;;
  Ok ("/" ++ JsString.join "/" splittedPath).

(** *** The draft of a route *)

Definition setForm (r : ParsedRoute) (b : bool) : ParsedRoute :=
  {| path := path r; method := method r; form := b;
     name := name r; controller := controller r |}.

Definition draftRoute (group : string) (route : RouteJSON)
           (moduleNameOrPath : string) (routeSourceFile : TsMorph.SourceFile)
  : Result GenError ParsedRoute :=
  let relativePath :=
    getRelativePath host (getClientPath group) (TsMorph.getFilePath routeSourceFile) in
  names <- deriveName (pattern route) relativePath ;;
  newPath <- rewritePath (pattern route) ;;
  Ok {| path := newPath;
        method := getMethod (methods route);
        form := false;
        controller := {| Controller.relative := relativePath;
                         Controller.path := moduleNameOrPath |};
        name := names |}.

(** *** Collisions: the loop over [allParsedRoutes] *)

Fixpoint checkCollisions (registered : list ParsedRoute) (parsedRouteDraft : ParsedRoute)
  : Result GenError unit :=
  match registered with
  | [] => Ok tt
  | parsedRoute :: rest =>
      if String.eqb (Controller.path (controller parsedRoute))
                    (Controller.path (controller parsedRouteDraft))
      then Throw (ControllerAlreadyRegistered parsedRouteDraft parsedRoute)
      else if String.eqb (Name.key (name parsedRoute)) (Name.key (name parsedRouteDraft))
      then Throw (KeyAlreadyRegistered parsedRouteDraft parsedRoute)
      else checkCollisions rest parsedRouteDraft
  end.

(** *** Validation of the controller *)

Inductive Verdict : Type :=
| Skip (message : string)
| Valid (formFlag : bool).

Definition validateController (routeSourceFile : TsMorph.SourceFile) : Verdict :=
  match find TsMorph.isDefaultExport (TsMorph.getClasses routeSourceFile) with
  | None => Skip "We were not able to find the default export"
  | Some classDef =>
      if negb (TsMorph.isClass (TsMorph.classType classDef))
      then Skip "The default export is not a class"
      else
        let handleMethod := TsMorph.getProperty classDef "handle" in
        let inputProperty := TsMorph.getProperty classDef "input" in
        let formProperty := TsMorph.getProperty classDef "form" in
        match handleMethod with
        | None =>
            Skip ("We were not able to find the " ++ quote ++ "handle" ++ quote ++ " method")
        | Some _ =>
            if match inputProperty with
               | Some p => negb (TsMorph.isObject (TsMorph.getType p))
               | None => false
               end
            then Skip ("The " ++ quote ++ "input" ++ quote ++ " property is not an object")
            else
              match formProperty with
              | None => Valid false
              | Some p =>
                  if negb (TsMorph.isBoolean (TsMorph.getType p))
                  then Skip ("The " ++ quote ++ "form" ++ quote ++ " property is not a boolean")
                  else Valid (JsString.truthy_opt (TsMorph.initializer p))
              end
        end
  end.

(** *** The body of [for (const route of groupRoutes)] *)

Definition parsingRouteAction (group : string) (route : RouteJSON) : string :=
  "Parsing route " ++ quote ++ pattern route ++ quote
  ++ " in group " ++ quote ++ group ++ quote.

Definition validatingRouteAction (route : RouteJSON) (draft : ParsedRoute) : string :=
  "Validating route " ++ quote ++ pattern route ++ quote
  ++ " - " ++ quote ++ method draft ++ quote.

Definition addingRouteAction (route : RouteJSON) : string :=
  "Adding route " ++ quote ++ pattern route ++ quote.

Definition pushRoute (st : RunState) (r : ParsedRoute) : RunState :=
  {| allParsedRoutes := (allParsedRoutes st ++ [r])%list;
     parsedRoutes := (parsedRoutes st ++ [r])%list;
     events := events st;
     files := files st |}.

Definition routeStep (group : string) (st : RunState) (route : RouteJSON)
  : Result GenError RunState :=
  match handler route with
  | HandlerFunction =>
      Ok (report st (Skipped (parsingRouteAction group route)
                             "We don't support function routes"))
  | HandlerReference reference =>
      let moduleNameOrPath := parseBindingReference host reference in
      match findSourceFile moduleNameOrPath with
      | None =>
          Ok (report st (Skipped (parsingRouteAction group route)
                                 "We couldn't find the source file"))
      | Some routeSourceFile =>
          parsedRouteDraft <- draftRoute group route moduleNameOrPath routeSourceFile ;;
          let st1 := report st (Succeeded (parsingRouteAction group route)) in
          _ <- checkCollisions (allParsedRoutes st1) parsedRouteDraft ;;
          match validateController routeSourceFile with
          | Skip message =>
              Ok (report st1 (Skipped (validatingRouteAction route parsedRouteDraft)
                                      message))
          | Valid formFlag =>
              let accepted := setForm parsedRouteDraft formFlag in
              let st2 := report st1 (Succeeded (validatingRouteAction route accepted)) in
              Ok (report (pushRoute st2 accepted) (Succeeded (addingRouteAction route)))
          end
      end
  end.

(** *** [#writeSchemaFile] *)

Definition boolText (b : bool) : string := if b then "true" else "false".

Definition typeAliasLine (route : ParsedRoute) : string :=
  "export type " ++ Name.type (name route)
  ++ " = InferController<(typeof import('" ++ Controller.relative (controller route)
  ++ "'))['default']>".

Definition routeEntryLine (route : ParsedRoute) : string :=
  Name.key (name route) ++ ": register<" ++ Name.type (name route)
  ++ ">({ form: " ++ boolText (form route)
  ++ ", path: '" ++ path route
  ++ "', method: '" ++ method route ++ "' }),".

Definition writeSchemaFile (group : string) (routes : list ParsedRoute) : SchemaFile :=
  let referenceFilePath :=
    getRelativePath host (getClientPath group) (getClientPath "reference.ts") in
  {| fileGroup := group;
     filePath := getSchemaPath group;
     referenceLine := "/// <reference path=" ++ quote ++ referenceFilePath ++ quote ++ " />";
     typeAliases := map typeAliasLine routes;
     routeEntries := map routeEntryLine routes;
     fileRoutes := routes |}.

(** *** The body of [for (const [group, groupRoutes] of routes.entries())] *)

Definition beginGroup (st : RunState) : RunState :=
  {| allParsedRoutes := allParsedRoutes st;
     parsedRoutes := [];
     events := events st;
     files := files st |}.

Definition saveFile (st : RunState) (f : SchemaFile) : RunState :=
  {| allParsedRoutes := allParsedRoutes st;
     parsedRoutes := parsedRoutes st;
     events := events st;
     files := (files st ++ [f])%list |}.

Definition groupStep (st : RunState) (entry : string * list RouteJSON)
  : Result GenError RunState :=
  let (group, groupRoutes) := entry in
  st1 <- foldM (routeStep group) (beginGroup st) groupRoutes ;;
  let st2 := report st1 (Succeeded ("Parsing group " ++ quote ++ group ++ quote)) in
  let st3 := saveFile st2 (writeSchemaFile group (parsedRoutes st2)) in
  Ok (report st3 (Succeeded ("Writing group " ++ quote ++ group ++ quote))).

Definition parseRoutes (st : RunState) (routes : list (string * list RouteJSON))
  : Result GenError RunState :=
  foldM groupStep st routes.

(** *** [#command] and [run] *)

(** The flags of the command and the exit codes of the tools. *)
Record Tools : Type :=
  { formatting : bool;
    typechecking : bool;
    linting : bool;
    prettierExit : nat;
    tscExit : nat;
    eslintExit : nat;
    prettierClientExit : nat }.

Definition command (commandName : string) (active : bool) (exitCode : nat)
           (st : RunState) : Result GenError RunState :=
  if negb active then Ok st
  else if negb (Nat.eqb exitCode 0) then Throw (ProcessExit commandName)
  else Ok (report st (Succeeded commandName)).

Definition run (tools : Tools) (rawConfig : option FinesConfig)
           (routerRoutes : list RouteJSON) : Result GenError RunState :=
  let st0 := report emptyState (Succeeded "Preparing destination") in
  routes <- groupRoutes rawConfig routerRoutes ;;
  let st1 := report st0 (Succeeded "Getting routes") in
  st2 <- command "Formatting files" (formatting tools) (prettierExit tools) st1 ;;
  st3 <- command "Typechecking" (typechecking tools) (tscExit tools) st2 ;;
  st4 <- command "Linting" (linting tools) (eslintExit tools) st3 ;;
  let st5 := report st4 (Succeeded "Writing reference file") in
  st6 <- parseRoutes st5 routes ;;
  let st7 := report st6 (Succeeded "Parsing routes") in
  st8 <- command "Formatting client file" (formatting tools)
           (prettierClientExit tools) st7 ;;
  Ok (report st8 (Succeeded "Generating client")).

End Run.

(* ================================================================== *)
(** * Part II: the notions of the specification *)
(* ================================================================== *)

(** ** The language of a pattern *)

Inductive InLanguage : RegExp.regex -> string -> Prop :=
| InEmpty : InLanguage RegExp.Empty EmptyString
| InClass cls i c :
    RegExp.class_accepts cls i c = true ->
    InLanguage (RegExp.Class cls i) (String c EmptyString)
| InSeq r1 r2 s1 s2 :
    InLanguage r1 s1 -> InLanguage r2 s2 -> InLanguage (RegExp.Seq r1 r2) (s1 ++ s2)
| InAltL r1 r2 s : InLanguage r1 s -> InLanguage (RegExp.Alt r1 r2) s
| InAltR r1 r2 s : InLanguage r2 s -> InLanguage (RegExp.Alt r1 r2) s
| InStarNil r : InLanguage (RegExp.Star r) EmptyString
| InStarCons r s1 s2 :
    InLanguage r s1 -> InLanguage (RegExp.Star r) s2 ->
    InLanguage (RegExp.Star r) (s1 ++ s2).

(** ** Character classes, in the words of the specification *)

Definition lowerAlnum (c : ascii) : bool :=
  JsString.is_lower c || JsString.is_digit c.

Definition letter (c : ascii) : bool :=
  JsString.is_lower c || JsString.is_upper c.

Definition isChar (d : ascii) (c : ascii) : bool := Ascii.eqb c d.

(** "lowercase alphanumeric + underscore" *)
Definition keyChar (c : ascii) : bool := lowerAlnum c || isChar "_" c.

(** "lowercase-alphanumeric-with-hyphen" *)
Definition segmentChar (c : ascii) : bool := lowerAlnum c || isChar "-" c.

(** ** Method resolution (section 4.6) *)

Definition isHead (m : string) : bool :=
  String.eqb (JsString.toLowerCase m) "head".

(** The last declared method that is not HEAD, if there is one. *)
Definition lastNonHead (methods : list string) : option string :=
  match rev (filter (fun m => negb (isHead m)) methods) with
  | [] => None
  | m :: _ => Some m
  end.

Definition resolvedMethod (methods : list string) : string :=
  match lastNonHead methods with
  | None => "GET"
  | Some m => JsString.toUpperCase (JsString.toLowerCase m)
  end.

(** ** Group configuration (section 3, GroupConfig) *)

(** An identifier of lowercase alphanumerics and underscores. *)
Definition validGroupKey (key : string) : bool :=
  JsString.truthy key && JsString.all_chars keyChar key.

(** Text of lowercase alphanumerics and hyphens, the empty text
    included. *)
Definition validSegment (segment : string) : bool :=
  JsString.all_chars segmentChar segment.

(** What [defineConfig] lets through as a prefix pattern: a leading
    slash, a trailing slash, at least three code units in all, and
    nothing but lowercase alphanumerics, hyphens and slashes, so that
    [/] cuts the pattern into pieces of lowercase alphanumerics and
    hyphens, empty pieces allowed ([/api/v1/], [/a//b/] and [///] are
    such patterns; [/] and [//] are not). *)
Definition validGroupPattern (value : string) : bool :=
  JsString.startsWith value "/" && JsString.endsWith value "/"
  && Nat.leb 3 (String.length value)
  && forallb validSegment (JsString.split "/" value).

Definition validGroup (e : string * string) : bool :=
  validGroupPattern (snd e) && validGroupKey (fst e).

(** The segments of a prefix pattern: what stands between its slashes,
    the text before the first slash and after the last one left out. *)
Definition innerSegments (value : string) : list string :=
  removelast (JsString.slice1 (JsString.split "/" value)).

(** A prefix pattern in the words of section 3, for a reading
    [segmentOk] of "lowercase alphanumeric and hyphen segment": the
    pattern starts and ends with a slash and holds only such
    segments. *)
Definition claimedGroupPattern (segmentOk : string -> bool) (value : string) : bool :=
  JsString.startsWith value "/" && JsString.endsWith value "/"
  && forallb segmentOk (innerSegments value).

(** ** Group matching (section 4.1), as the specification words it:
    the first group in DECLARATION order whose prefix the path starts
    with, else [internal]. *)
Definition firstDeclaredGroup (declared : list (string * string)) (routePath : string)
  : string :=
  match find (fun e => JsString.startsWith routePath (snd e)) declared with
  | Some e => fst e
  | None => "internal"
  end.

(** The same over the ENUMERATION order of the mapping. *)
Definition firstEnumeratedGroup (o : JsObject.t) (routePath : string) : string :=
  firstDeclaredGroup (JsObject.entries o) routePath.

(** ** Path segments (section 4.5) *)

(** A literal segment as the specification has it: [[a-z0-9-]+]. *)
Definition lowercaseLiteral (segment : string) : bool :=
  JsString.truthy segment && JsString.all_chars segmentChar segment.

(** What the command accepts as a literal segment: capitals too. *)
Definition anyCaseLiteral (segment : string) : bool :=
  JsString.truthy segment
  && JsString.all_chars (fun c => segmentChar c || JsString.is_upper c) segment.

(** A parameter segment: the marker [:] and a name of letters only. *)
Definition parameterName (segment : string) : option string :=
  match segment with
  | String c nm =>
      if isChar ":" c && JsString.truthy nm && JsString.all_chars letter nm
      then Some nm else None
  | EmptyString => None
  end.

(** The segments that [run] checks: the pattern cut at [/], the text
    before the first [/] dropped. *)
Definition segmentsOf (routePattern : string) : list string :=
  JsString.slice1 (JsString.split "/" routePattern).

(** A segment that satisfies section 4.5: a parameter with a name of
    letters, or a literal of the shape [[a-z0-9-]+]. *)
Definition acceptableSegment (segment : string) : bool :=
  if isParameter segment
  then match parameterName segment with Some _ => true | None => false end
  else lowercaseLiteral segment.

(** A segment that is fatal: a parameter without a name of letters, or
    a literal that is empty or holds a code unit that is neither a
    letter, a digit nor a hyphen. *)
Definition fatalSegment (segment : string) : bool :=
  if isParameter segment
  then match parameterName segment with Some _ => false | None => true end
  else negb (anyCaseLiteral segment).

(** The rewritten segment: [{{ name }}] for the parameter [:name]. *)
Definition placeholderOf (segment : string) : string :=
  match parameterName segment with
  | Some nm => "{{ " ++ nm ++ " }}"
  | None => segment
  end.

Definition segmentError (segment : string) (segmentIndex : nat) (routePattern : string)
  : GenError :=
  if isParameter segment
  then InvalidParameterSegment segmentIndex routePattern
  else InvalidLiteralSegment segmentIndex routePattern.

(** ** Names (section 4.2) *)

(** [Some stem] when [s] is [stem ++ suffix]. *)
Fixpoint stripSuffix (suffix s : string) : option string :=
  if String.eqb s suffix then Some EmptyString
  else match s with
       | EmptyString => None
       | String c s' => option_map (String c) (stripSuffix suffix s')
       end.

(** The words of the controller file name: the mandatory suffix
    stripped, the rest cut at underscores. *)
Definition controllerWords (fileName : string) : option (list string) :=
  option_map (JsString.split "_") (stripSuffix "_controller.ts" fileName).

(** Deduplication that keeps the first occurrence of each value. *)
Fixpoint firstOccurrences (xs : list string) : list string :=
  match xs with
  | [] => []
  | x :: xs' => x :: filter (fun y => negb (String.eqb y x)) (firstOccurrences xs')
  end.

(** The final segment of a path. *)
Definition finalSegment (p : string) : string :=
  last (JsString.split "/" p) EmptyString.

(** The name pair as section 4.2 derives it; [None] is the abort for a
    file name without the suffix. *)
Definition specifiedName (host : Host) (routePattern controllerFile : string)
  : option Name.t :=
  match controllerWords (finalSegment controllerFile) with
  | None => None
  | Some words =>
      let tokens := (patternTokens routePattern ++ words)%list in
      let phrase :=
        JsString.join " " (firstOccurrences (map (snakeCase host) tokens)) in
      Some {| Name.key := JsString.toUpperCase (snakeCase host phrase);
              Name.type := pascalCase host phrase ++ "Route" |}
  end.

(** ** The form flag (section 4.3, check 5) *)

(** The value of a boolean literal initializer. *)
Definition literalValue (text : string) : option bool :=
  if String.eqb text "true" then Some true
  else if String.eqb text "false" then Some false
  else None.

(** The flag the specification asks for: the literal value of the
    initializer of [form], [false] without one. *)
Definition specifiedForm (classDef : TsMorph.ClassDeclaration) : option bool :=
  match TsMorph.getProperty classDef "form" with
  | None => Some false
  | Some p =>
      match TsMorph.initializer p with
      | None => Some false
      | Some text => literalValue text
      end
  end.

Definition defaultClass (sf : TsMorph.SourceFile) : option TsMorph.ClassDeclaration :=
  find TsMorph.isDefaultExport (TsMorph.getClasses sf).

(** The default export is a class without a [handle] member. *)
Definition lacksHandle (sf : TsMorph.SourceFile) : bool :=
  match defaultClass sf with
  | Some classDef =>
      TsMorph.isClass (TsMorph.classType classDef)
      && match TsMorph.getProperty classDef "handle" with
         | Some _ => false
         | None => true
         end
  | None => false
  end.

(** ** Path templates (section 4.9) *)

Module Template.

Inductive Piece : Type :=
| Text (s : string)
| Placeholder (name : string).

Definition textChar (c : ascii) : bool := negb (isChar "{" c).
Definition nameChar (c : ascii) : bool :=
  negb (isChar "}" c || Runtime.is_space c).

Definition wellFormed (p : Piece) : bool :=
  match p with
  | Text s => JsString.all_chars textChar s
  | Placeholder n => JsString.all_chars nameChar n
  end.

Definition renderPiece (p : Piece) : string :=
  match p with
  | Text s => s
  | Placeholder n => "{{ " ++ n ++ " }}"
  end.

Fixpoint render (t : list Piece) : string :=
  match t with
  | [] => EmptyString
  | p :: t' => renderPiece p ++ render t'
  end.

(** Every placeholder replaced by the string representation of its
    parameter; an error at the first placeholder without one. *)
Fixpoint substitute (ps : option Runtime.Params) (t : list Piece)
  : Result Runtime.InterpolateError string :=
  match t with
  | [] => Ok EmptyString
  | Text s :: t' => r <- substitute ps t' ;; Ok (s ++ r)
  | Placeholder n :: t' =>
      match Runtime.param n ps with
      | Some v => r <- substitute ps t' ;; Ok (Runtime.toString v ++ r)
      | None => Throw (Runtime.MissingParameter n)
      end
  end.

Definition supplied (ps : option Runtime.Params) (p : Piece) : bool :=
  match p with
  | Text _ => true
  | Placeholder n =>
      match Runtime.param n ps with Some _ => true | None => false end
  end.

End Template.

(** ** Collisions (section 4.4) *)

Definition routeKey (r : ParsedRoute) : string := Name.key (name r).
Definition controllerPath (r : ParsedRoute) : string := Controller.path (controller r).

(** No two routes share a key, no two share a controller path. *)
Definition collisionFree (rs : list ParsedRoute) : Prop :=
  NoDup (map routeKey rs) /\ NoDup (map controllerPath rs).

Definition collides (draft : ParsedRoute) (rs : list ParsedRoute) : Prop :=
  exists r, In r rs /\
            (routeKey r = routeKey draft \/ controllerPath r = controllerPath draft).

Definition isCollision (e : GenError) : bool :=
  match e with
  | ControllerAlreadyRegistered _ _ | KeyAlreadyRegistered _ _ => true
  | _ => false
  end.

(** The routes of all the [routes] mappings written so far. *)
Definition emittedRoutes (st : RunState) : list ParsedRoute :=
  concat (map fileRoutes (files st)).

Definition handleMissingMessage : string :=
  "We were not able to find the " ++ quote ++ "handle" ++ quote ++ " method".

(** The name of the validation action of a route, as the logger shows
    it: the pattern and the resolved method. *)
Definition validatingRouteName (route : RouteJSON) : string :=
  "Validating route " ++ quote ++ pattern route ++ quote
  ++ " - " ++ quote ++ getMethod (methods route) ++ quote.

(** The entry of the skip report for a route without [handle]. *)
Definition missingHandleReport (route : RouteJSON) : Event :=
  Skipped (validatingRouteName route) handleMissingMessage.

(** The log only grows. *)
Definition logExtends (st st' : RunState) : Prop :=
  exists more, events st' = (events st ++ more)%list.

(** ** A host and a project for the examples

    Stand-ins for the library functions, for phrases of lower-case
    ASCII words separated by blanks and an application rooted at
    [/app].  A phrase is cut into words at blanks, underscores and
    hyphens, and every code unit of a word that is neither a letter
    nor a digit (a dot, for one) is dropped without ending the word. *)

Module Sample.

Definition wordBreak (c : ascii) : bool :=
  Runtime.is_space c || isChar "_" c || isChar "-" c.

Definition wordChar (c : ascii) : bool :=
  JsString.is_lower c || JsString.is_upper c || JsString.is_digit c.

Fixpoint keep (p : ascii -> bool) (s : string) : string :=
  match s with
  | EmptyString => EmptyString
  | String c s' => if p c then String c (keep p s') else keep p s'
  end.

Definition words (s : string) : list string :=
  filter JsString.truthy (map (keep wordChar) (JsString.splitRuns wordBreak s)).

Definition capitalise (w : string) : string :=
  match w with
  | EmptyString => EmptyString
  | String c w' => String (JsString.upper_char c) (JsString.toLowerCase w')
  end.

Definition snake (s : string) : string :=
  JsString.join "_" (map JsString.toLowerCase (words s)).

Definition pascal (s : string) : string :=
  JsString.join EmptyString (map capitalise (words s)).

Definition relativeTo (from to : string) : string :=
  if JsString.startsWith to "/app/client/"
  then "../" ++ JsString.drop 12 to
  else "../.." ++ JsString.drop 4 to.

Definition host : Host :=
  {| snakeCase := snake;
     pascalCase := pascal;
     parseBindingReference := fun reference => reference;
     getRootPath := fun p => "/app/" ++ JsString.drop 2 p;
     getRelativePath := relativeTo |}.

Definition anyType : TsMorph.TypeInfo :=
  {| TsMorph.isObject := false; TsMorph.isBoolean := false; TsMorph.isClass := false |}.
Definition classType : TsMorph.TypeInfo :=
  {| TsMorph.isObject := true; TsMorph.isBoolean := false; TsMorph.isClass := true |}.
Definition booleanType : TsMorph.TypeInfo :=
  {| TsMorph.isObject := false; TsMorph.isBoolean := true; TsMorph.isClass := false |}.

Definition handleProperty : TsMorph.PropertyDeclaration :=
  {| TsMorph.getName := "handle"; TsMorph.getType := anyType;
     TsMorph.initializer := Some "async () => ({ ok: true })" |}.

(** [form = false] *)
Definition formFalse : TsMorph.PropertyDeclaration :=
  {| TsMorph.getName := "form"; TsMorph.getType := booleanType;
     TsMorph.initializer := Some "false" |}.

Definition controller (file : string) (props : list TsMorph.PropertyDeclaration)
  : TsMorph.SourceFile :=
  {| TsMorph.getFilePath := file;
     TsMorph.getClasses :=
       [ {| TsMorph.isDefaultExport := true;
            TsMorph.classType := classType;
            TsMorph.getProperties := props |} ] |}.

(** [export default class { handle = ...; form = false }] *)
Definition usersController : TsMorph.SourceFile :=
  controller "/app/app/controllers/users_controller.ts" [handleProperty; formFalse].

(** A second [users_controller.ts], in another directory, WITHOUT a
    [handle] member. *)
Definition adminUsersController : TsMorph.SourceFile :=
  controller "/app/app/controllers/admin/users_controller.ts" [].

Definition listUsers : RouteJSON :=
  {| pattern := "/users"; methods := ["GET"; "HEAD"];
     handler := HandlerReference "#controllers/users_controller" |}.

Definition createUser : RouteJSON :=
  {| pattern := "/users"; methods := ["POST"];
     handler := HandlerReference "#controllers/admin/users_controller" |}.

(** A route with a closure for a handler and an underscore in its
    pattern. *)
Definition healthCheck : RouteJSON :=
  {| pattern := "/health_check"; methods := ["GET"; "HEAD"];
     handler := HandlerFunction |}.

Definition showUser : RouteJSON :=
  {| pattern := "/users/:id"; methods := ["GET"; "HEAD"];
     handler := HandlerReference "#controllers/users_controller" |}.

Definition tools : Tools :=
  {| formatting := true; typechecking := true; linting := true;
     prettierExit := 0; tscExit := 0; eslintExit := 0; prettierClientExit := 0 |}.

Definition config : FinesConfig := {| groups := [("api", "/api/")] |}.

End Sample.

(** ** The run, cut at the route loop *)

(** What [run] does before it parses routes: the three tools. *)
Definition beforeParsing (tools : Tools) : Result GenError RunState :=
  let st0 := report emptyState (Succeeded "Preparing destination") in
  let st1 := report st0 (Succeeded "Getting routes") in
  st2 <- command "Formatting files" (formatting tools) (prettierExit tools) st1 ;;
  st3 <- command "Typechecking" (typechecking tools) (tscExit tools) st2 ;;
  st4 <- command "Linting" (linting tools) (eslintExit tools) st3 ;;
  Ok (report st4 (Succeeded "Writing reference file")).

(** ... and after it has. *)
Definition afterParsing (tools : Tools) (st6 : RunState) : Result GenError RunState :=
  let st7 := report st6 (Succeeded "Parsing routes") in
  st8 <- command "Formatting client file" (formatting tools)
           (prettierClientExit tools) st7 ;;
  Ok (report st8 (Succeeded "Generating client")).

(** ** Invariants of the route loop *)

Section Invariants.

Variable host : Host.
Variable sourcesFiles : list TsMorph.SourceFile.

(** The controller of an accepted route was found and has [handle]. *)
Definition handled (r : ParsedRoute) : Prop :=
  exists sf, findSourceFile sourcesFiles (controllerPath r) = Some sf
             /\ lacksHandle sf = false.

(** Inside the loop over the routes of a group. *)
Definition withinGroup (st : RunState) : Prop :=
  collisionFree (allParsedRoutes st)
  /\ (emittedRoutes st ++ parsedRoutes st)%list = allParsedRoutes st
  /\ Forall handled (allParsedRoutes st).

(** Between two groups, and at both ends of the loop over groups. *)
Definition betweenGroups (st : RunState) : Prop :=
  collisionFree (allParsedRoutes st)
  /\ emittedRoutes st = allParsedRoutes st
  /\ Forall handled (allParsedRoutes st).

End Invariants.

Module SampleRun.

Definition sources : list TsMorph.SourceFile :=
  [Sample.usersController; Sample.adminUsersController].

(** The state of the run once [Sample.listUsers] has been accepted. *)
Definition afterListUsers : RunState :=
  Eval vm_compute in
    match
      (st5 <- beforeParsing Sample.tools ;;
       foldM (routeStep Sample.host sources "internal") (beginGroup st5)
             [Sample.listUsers])
    with
    | Ok st => st
    | Throw _ => emptyState
    end.

(** The draft of [Sample.createUser]: same key, another controller. *)
Definition createUserDraft : ParsedRoute :=
  {| path := "/users";
     method := "POST";
     form := false;
     name := {| Name.key := "USERS"; Name.type := "UsersRoute" |};
     controller :=
       {| Controller.relative := "../../app/controllers/admin/users_controller.ts";
          Controller.path := "#controllers/admin/users_controller" |} |}.

End SampleRun.

(** ** Further notions, for the properties of the remaining code *)

(** The groups of [#groupRoutes], described at once: the group names
    in the order of their first route, each with its routes in the
    order of the router. *)
Definition routeGroup (config : FinesConfig) (route : RouteJSON) : string :=
  groupOf config (pattern route).

Definition groupedAs (config : FinesConfig) (routes : list RouteJSON)
  : list (string * list RouteJSON) :=
  map (fun g => (g, filter (fun r => String.eqb (routeGroup config r) g) routes))
      (firstOccurrences (map (routeGroup config) routes)).

(** The skips of the report. *)
Definition isSkipped (e : Event) : bool :=
  match e with
  | Skipped _ _ => true
  | Succeeded _ => false
  end.

Definition skippedCount (es : list Event) : nat := List.length (filter isSkipped es).

(** The routes settled so far: accepted or skipped. *)
Definition settled (st : RunState) : nat :=
  List.length (allParsedRoutes st) + skippedCount (events st).

(** The first of the three tools before the route loop that is
    switched on and exits with a non-zero code. *)
Definition firstFailingTool (tools : Tools) : option string :=
  if formatting tools && negb (Nat.eqb (prettierExit tools) 0) then Some "Formatting files"
  else if typechecking tools && negb (Nat.eqb (tscExit tools) 0) then Some "Typechecking"
  else if linting tools && negb (Nat.eqb (eslintExit tools) 0) then Some "Linting"
  else None.

(** The code units a generated path can hold: letters, digits, the
    hyphen, the slash and, for placeholders, braces and blanks. *)
Definition pathChar (c : ascii) : bool :=
  letter c || JsString.is_digit c || isChar "-" c || isChar "/" c
  || isChar "{" c || isChar "}" c || isChar " " c.

(** The error of the collision loop for an accepted route that collides
    with the draft: the controller is looked at before the key. *)
Definition collisionError (draft r : ParsedRoute) : GenError :=
  if String.eqb (controllerPath r) (controllerPath draft)
  then ControllerAlreadyRegistered draft r
  else KeyAlreadyRegistered draft r.

(** One accepted route against a draft. *)
Definition sameController (draft r : ParsedRoute) : bool :=
  String.eqb (controllerPath r) (controllerPath draft).

Definition sameKey (draft r : ParsedRoute) : bool :=
  String.eqb (routeKey r) (routeKey draft).

Definition collidesWith (draft r : ParsedRoute) : bool :=
  sameController draft r || sameKey draft r.

(** The first invalid group of a list of entries. *)
Definition firstInvalidGroup (es : list (string * string)) : option (string * string) :=
  find (fun e => negb (validGroup e)) es.

Definition groupError (e : string * string) : ConfigError :=
  if validGroupPattern (snd e)
  then InvalidArgumentsException (invalid_name_message (fst e))
  else InvalidArgumentsException (invalid_value_message (fst e) (snd e)).

Section Origins.

Variable host : Host.
Variable sourcesFiles : list TsMorph.SourceFile.

(** Where an accepted route of a group comes from: one of the routes
    of the group, with a controller reference, the source file found
    for it, the draft built in that group and the flag of the
    validation. *)
Definition acceptedFrom (candidates : list RouteJSON) (group : string)
           (r : ParsedRoute) : Prop :=
  exists route reference sf draft flag,
    In route candidates
    /\ handler route = HandlerReference reference
    /\ findSourceFile sourcesFiles (parseBindingReference host reference) = Some sf
    /\ draftRoute host group route (parseBindingReference host reference) sf = Ok draft
    /\ validateController sf = Valid flag
    /\ r = setForm draft flag.

(** A written file holds routes accepted from the routes of its group. *)
Definition fileFromGroups (groups : list (string * list RouteJSON)) (f : SchemaFile)
  : Prop :=
  exists rs, In (fileGroup f, rs) groups
             /\ Forall (acceptedFrom rs (fileGroup f)) (fileRoutes f).


End Origins.

(** More routes for the examples. *)
Module SampleRoutes.

(** A closure route under the prefix of the group [api]. *)
Definition apiPing : RouteJSON :=
  {| pattern := "/api/ping"; methods := ["GET"; "HEAD"]; handler := HandlerFunction |}.

(** A route whose controller module is not among the source files. *)
Definition orphan : RouteJSON :=
  {| pattern := "/orphans"; methods := ["GET"];
     handler := HandlerReference "#controllers/orphans_controller" |}.

End SampleRoutes.

(* ================================================================== *)
(** * Part III: properties *)
(* ================================================================== *)

(** ** Strings *)

Lemma append_empty_r (s : string) : s ++ EmptyString = s.
Proof. induction s as [|c s IH]; simpl; [reflexivity | now rewrite IH]. Qed.

Lemma append_assoc (a b c : string) : (a ++ b) ++ c = a ++ (b ++ c).
Proof. induction a as [|x a IH]; simpl; [reflexivity | now rewrite IH]. Qed.

Lemma append_eq_empty (a b : string) :
  a ++ b = EmptyString -> a = EmptyString /\ b = EmptyString.
Proof. destruct a; simpl; [auto | discriminate]. Qed.

Lemma append_eq_cons (a b : string) c s :
  a ++ b = String c s ->
  (a = EmptyString /\ b = String c s) \/ (exists a', a = String c a' /\ s = a' ++ b).
Proof.
  destruct a as [|x a]; simpl; intros H.
  - left; auto.
  - right. injection H as -> <-. now exists a.
Qed.

Lemma length_append (a b : string) :
  String.length (a ++ b) = String.length a + String.length b.
Proof. induction a as [|x a IH]; simpl; [reflexivity | now rewrite IH]. Qed.

Lemma all_chars_append p (a b : string) :
  JsString.all_chars p (a ++ b) = JsString.all_chars p a && JsString.all_chars p b.
Proof.
  induction a as [|x a IH]; simpl; [reflexivity|].
  now rewrite IH, andb_assoc.
Qed.

Lemma all_chars_ext p q (s : string) :
  (forall c, p c = q c) -> JsString.all_chars p s = JsString.all_chars q s.
Proof. intros E; induction s as [|c s IH]; simpl; [reflexivity | now rewrite E, IH]. Qed.

Lemma startsWith_spec (s p : string) :
  JsString.startsWith s p = true <-> exists r, s = p ++ r.
Proof.
  revert s; induction p as [|c p IH]; intros s; simpl.
  - split; [now exists s | reflexivity].
  - destruct s as [|d s].
    + split; [discriminate | intros [r H]; discriminate].
    + rewrite andb_true_iff, Ascii.eqb_eq, IH. split.
      * intros [-> [r ->]]. now exists r.
      * intros [r H]. injection H as -> ->. split; [reflexivity | now exists r].
Qed.

Lemma endsWith_spec (s suffix : string) :
  JsString.endsWith s suffix = true <-> exists p, s = p ++ suffix.
Proof.
  induction s as [|c s IH]; cbn [JsString.endsWith].
  - rewrite orb_false_r, String.eqb_eq. split.
    + intros <-. now exists EmptyString.
    + intros [p H]. symmetry in H. apply append_eq_empty in H. symmetry; tauto.
  - rewrite orb_true_iff, String.eqb_eq, IH. split.
    + intros [<- | [p ->]]; [now exists EmptyString | now exists (String c p)].
    + intros [p H]. symmetry in H. apply append_eq_cons in H as [[-> H] | [p' [-> ->]]].
      * left; now symmetry.
      * right; now exists p'.
Qed.

(** ** Regular expressions: the matcher decides the language *)

Lemma nullable_spec r : RegExp.nullable r = true <-> InLanguage r EmptyString.
Proof.
  induction r as [| |cls i|r1 IH1 r2 IH2|r1 IH1 r2 IH2|r IH]; simpl.
  - split; [discriminate | intros H; inversion H].
  - split; [constructor | reflexivity].
  - split; [discriminate | intros H; inversion H].
  - rewrite andb_true_iff, IH1, IH2. split.
    + intros [H1 H2]. change EmptyString with (EmptyString ++ EmptyString).
      now constructor.
    + intros H. inversion H as [| |? ? s1 s2 H1 H2 E1 E2| | | |]; subst.
      apply append_eq_empty in E2 as [-> ->]. now split.
  - rewrite orb_true_iff, IH1, IH2. split.
    + intros [H|H]; [now apply InAltL | now apply InAltR].
    + intros H; inversion H; subst; auto.
  - split; [constructor | reflexivity].
Qed.

Lemma star_cons_inv r' s0 :
  InLanguage r' s0 ->
  forall r c s, r' = RegExp.Star r -> s0 = String c s ->
  exists s1 s2, s = s1 ++ s2 /\ InLanguage r (String c s1) /\ InLanguage (RegExp.Star r) s2.
Proof.
  induction 1 as [| | | | | |r0 s1 s2 H1 _ H2 IH2]; intros q x t Er Es;
    try discriminate.
  injection Er as ->.
  apply append_eq_cons in Es as [[-> ->] | [s1' [-> ->]]].
  - now apply IH2.
  - now exists s1', s2.
Qed.

Lemma deriv_spec c r : forall s, InLanguage (RegExp.deriv c r) s <-> InLanguage r (String c s).
Proof.
  induction r as [| |cls i|r1 IH1 r2 IH2|r1 IH1 r2 IH2|r IH]; intros s; simpl.
  - split; intros H; inversion H.
  - split; intros H; inversion H.
  - destruct (RegExp.class_accepts cls i c) eqn:A; split; intros H; inversion H; subst.
    + now constructor.
    + constructor.
    + congruence.
  - assert (Hseq : InLanguage (RegExp.Seq (RegExp.deriv c r1) r2) s ->
                   InLanguage (RegExp.Seq r1 r2) (String c s)).
    { intros H; inversion H as [| |? ? s1 s2 H1 H2| | | |]; subst.
      apply IH1 in H1. change (String c (s1 ++ s2)) with (String c s1 ++ s2).
      now constructor. }
    assert (Hinv : InLanguage (RegExp.Seq r1 r2) (String c s) ->
                   InLanguage (RegExp.Seq (RegExp.deriv c r1) r2) s \/
                   (InLanguage r1 EmptyString /\ InLanguage (RegExp.deriv c r2) s)).
    { intros H; inversion H as [| |? ? s1 s2 H1 H2 E1 E2| | | |]; subst.
      apply append_eq_cons in E2 as [[-> ->] | [s1' [-> ->]]].
      - right; split; [assumption | now apply IH2].
      - left; constructor; [now apply IH1 | assumption]. }
    destruct (RegExp.nullable r1) eqn:N; split.
    + intros H; inversion H; subst; [now apply Hseq|].
      change (String c s) with (EmptyString ++ String c s).
      constructor; [now apply nullable_spec | now apply IH2].
    + intros H; apply Hinv in H as [H | [_ H]]; [now apply InAltL | now apply InAltR].
    + apply Hseq.
    + intros H; apply Hinv in H as [H | [H _]]; [assumption|].
      apply nullable_spec in H; congruence.
  - split; intros H; inversion H; subst.
    + apply InAltL; now apply IH1.
    + apply InAltR; now apply IH2.
    + apply InAltL; now apply IH1.
    + apply InAltR; now apply IH2.
  - split.
    + intros H; inversion H as [| |? ? s1 s2 H1 H2| | | |]; subst.
      apply IH in H1. change (String c (s1 ++ s2)) with (String c s1 ++ s2).
      now constructor.
    + intros H.
      destruct (star_cons_inv _ _ H _ _ _ eq_refl eq_refl) as (s1 & s2 & -> & H1 & H2).
      constructor; [now apply IH | assumption].
Qed.

Lemma matches_spec s : forall r, RegExp.matches r s = true <-> InLanguage r s.
Proof.
  induction s as [|c s IH]; intros r; simpl.
  - apply nullable_spec.
  - rewrite IH. apply deriv_spec.
Qed.

Lemma chr_language c s :
  InLanguage (RegExp.Chr c) s <-> s = String c EmptyString.
Proof.
  unfold RegExp.Chr. split.
  - intros H; inversion H as [|? ? x A| | | | |]; subst.
    unfold RegExp.class_accepts, RegExp.in_class in A; simpl in A.
    rewrite orb_false_r in A. apply Ascii.eqb_eq in A. now subst.
  - intros ->. constructor.
    unfold RegExp.class_accepts, RegExp.in_class; simpl.
    now rewrite Ascii.eqb_refl.
Qed.

Lemma star_class_language cls i s :
  InLanguage (RegExp.Star (RegExp.Class cls i)) s <->
  JsString.all_chars (RegExp.class_accepts cls i) s = true.
Proof.
  split.
  - intros H. remember (RegExp.Star (RegExp.Class cls i)) as r eqn:Er.
    induction H as [| | | | | |r0 s1 s2 H1 _ H2 IH2]; try discriminate.
    + reflexivity.
    + injection Er as ->. inversion H1; subst. simpl.
      rewrite IH2 by reflexivity. now rewrite andb_true_r.
  - induction s as [|c s IH]; simpl; intros H.
    + constructor.
    + apply andb_true_iff in H as [A B].
      change (String c s) with (String c EmptyString ++ s).
      constructor; [now constructor | now apply IH].
Qed.

Lemma plus_class_language cls i s :
  InLanguage (RegExp.Plus (RegExp.Class cls i)) s <->
  JsString.truthy s = true /\ JsString.all_chars (RegExp.class_accepts cls i) s = true.
Proof.
  unfold RegExp.Plus. split.
  - intros H; inversion H as [| |? ? s1 s2 H1 H2| | | |]; subst.
    inversion H1; subst. apply star_class_language in H2. simpl.
    split; [reflexivity | now rewrite H2, andb_true_r].
  - destruct s as [|c s]; simpl; intros [T A]; [discriminate|].
    apply andb_true_iff in A as [A B].
    change (String c s) with (String c EmptyString ++ s).
    constructor; [now constructor | now apply star_class_language].
Qed.

(** The members of the four classes. *)

Lemma groupKey_class c :
  RegExp.class_accepts [RegExp.lower_az; RegExp.digit_09; RegExp.One "_"] false c = keyChar c.
Proof. destruct c as [[] [] [] [] [] [] [] []]; reflexivity. Qed.

Lemma groupValue_class c :
  RegExp.class_accepts
    [RegExp.lower_az; RegExp.digit_09; RegExp.One "-"; RegExp.One "/"] false c
  = segmentChar c || isChar "/" c.
Proof. destruct c as [[] [] [] [] [] [] [] []]; reflexivity. Qed.

Lemma literalSegment_class c :
  RegExp.class_accepts [RegExp.lower_az; RegExp.digit_09; RegExp.One "-"] true c
  = segmentChar c || JsString.is_upper c.
Proof. destruct c as [[] [] [] [] [] [] [] []]; reflexivity. Qed.

Lemma parameterSegment_class c :
  RegExp.class_accepts [RegExp.lower_az; RegExp.upper_az] true c = letter c.
Proof. destruct c as [[] [] [] [] [] [] [] []]; reflexivity. Qed.

Lemma bool_eq_iff (a b : bool) : (a = true <-> b = true) -> a = b.
Proof.
  destruct a, b; intros [H1 H2]; try reflexivity.
  - symmetry; now apply H1.
  - now apply H2.
Qed.

(** What each pattern of the sources accepts. *)

Lemma test_groupKey key : RegExp.test RegExp.groupKey key = validGroupKey key.
Proof.
  apply bool_eq_iff. unfold RegExp.test, validGroupKey; simpl RegExp.flag_i; cbv iota.
  simpl RegExp.body. rewrite matches_spec, plus_class_language, andb_true_iff.
  now rewrite (all_chars_ext _ keyChar key groupKey_class).
Qed.

Lemma test_literalSegment segment :
  RegExp.test RegExp.literalSegment segment = anyCaseLiteral segment.
Proof.
  apply bool_eq_iff. unfold RegExp.test, anyCaseLiteral; simpl RegExp.flag_i; cbv iota.
  simpl RegExp.with_flag_i.
  change (RegExp.Seq ?r (RegExp.Star ?r)) with (RegExp.Plus r).
  rewrite matches_spec, plus_class_language, andb_true_iff.
  now rewrite (all_chars_ext _ _ segment literalSegment_class).
Qed.

Lemma test_parameterSegment segment :
  RegExp.test RegExp.parameterSegment segment = true <->
  exists nm, segment = String ":" nm /\ JsString.truthy nm = true
             /\ JsString.all_chars letter nm = true.
Proof.
  unfold RegExp.test; simpl RegExp.flag_i; cbv iota. simpl RegExp.with_flag_i.
  change (RegExp.Seq ?r (RegExp.Star ?r)) with (RegExp.Plus r).
  rewrite matches_spec. split.
  - intros H; inversion H as [| |? ? s1 s2 H1 H2| | | |]; subst.
    inversion H1 as [|? ? x A| | | | |]; subst.
    apply plus_class_language in H2 as [T L].
    rewrite (all_chars_ext _ _ s2 parameterSegment_class) in L.
    exists s2. repeat split; try assumption.
    destruct x as [[] [] [] [] [] [] [] []]; try discriminate A. reflexivity.
  - intros (nm & -> & T & L).
    change (String ":" nm) with (String ":" EmptyString ++ nm).
    constructor; [now constructor|].
    apply plus_class_language.
    now rewrite (all_chars_ext _ _ nm parameterSegment_class).
Qed.

Lemma split_all_chars p sep s :
  forallb (JsString.all_chars p) (JsString.split sep s)
  = JsString.all_chars (fun c => p c || isChar sep c) s.
Proof.
  induction s as [|c s IH]; simpl; [reflexivity|].
  unfold isChar at 1. destruct (Ascii.eqb c sep) eqn:E; simpl.
  - now rewrite orb_true_r, IH.
  - rewrite orb_false_r. destruct (JsString.split sep s) as [|t ts]; simpl in *.
    + now rewrite <- IH, andb_true_r.
    + now rewrite <- IH, andb_assoc.
Qed.

Lemma test_groupValue value :
  RegExp.test RegExp.groupValue value = validGroupPattern value.
Proof.
  apply bool_eq_iff. unfold RegExp.test, validGroupPattern; simpl RegExp.flag_i; cbv iota.
  simpl RegExp.body. rewrite matches_spec.
  unfold validSegment. rewrite split_all_chars, !andb_true_iff.
  rewrite startsWith_spec, endsWith_spec, Nat.leb_le. split.
  - intros H; inversion H as [| |? ? s1 s23 H1 H23| | | |]; subst.
    apply chr_language in H1 as ->.
    inversion H23 as [| |? ? s2 s3 H2 H3| | | |]; subst.
    apply chr_language in H3 as ->.
    apply plus_class_language in H2 as [T A].
    rewrite (all_chars_ext _ _ s2 groupValue_class) in A.
    repeat split.
    + now exists (s2 ++ "/").
    + exists (String "/" s2). reflexivity.
    + simpl. rewrite length_append. simpl. destruct s2; [discriminate T | simpl; lia].
    + simpl. now rewrite all_chars_append, A.
  - intros [[[[r Hr] [p Hp]] L] A]. subst value.
    destruct p as [|c p]; simpl in Hp.
    { injection Hp as ->. simpl in L. lia. }
    injection Hp as <- ->.
    simpl in A. rewrite all_chars_append in A. apply andb_true_iff in A as [A _].
    change (String "/" (p ++ "/")) with (String "/" EmptyString ++ (p ++ "/")).
    constructor; [now apply chr_language|].
    constructor; [|now apply chr_language].
    apply plus_class_language. split.
    + destruct p; [simpl in L; lia | reflexivity].
    + now rewrite (all_chars_ext _ _ p groupValue_class).
Qed.

(** The patterns at the edges. *)
Example groupValue_edges :
  map (RegExp.test RegExp.groupValue) ["/api/v1/"; "/"; "//"; "///"; "/a//b/"; "/Api/"; "/api"]
  = [true; false; false; true; true; false; false]
  /\ map validGroupPattern ["/api/v1/"; "/"; "//"; "///"; "/a//b/"; "/Api/"; "/api"]
     = [true; false; false; true; true; false; false].
Proof. split; reflexivity. Qed.

Example segment_edges :
  map (RegExp.test RegExp.literalSegment) ["users"; "blog-posts"; "v2"; "a_b"; "Users"]
  = [true; true; true; false; true]
  /\ RegExp.test RegExp.literalSegment EmptyString = false
  /\ map (RegExp.test RegExp.parameterSegment) [":id"; ":postId"; ":post_id"; ":"; ":id2"]
     = [true; true; false; false; false].
Proof. repeat split. Qed.

(** ** Enumeration of an object *)

Lemma insert_sorted_In n e l x :
  In x (JsObject.insert_sorted n e l) <-> x = (n, e) \/ In x l.
Proof.
  induction l as [|[m e'] l IH]; simpl.
  - intuition.
  - destruct (n <? m)%N; simpl; [intuition|]. rewrite IH. intuition.
Qed.

Lemma index_entries_In o e :
  In e (map snd (JsObject.index_entries o)) <->
  In e o /\ JsObject.is_index_key (fst e) = true.
Proof.
  unfold JsObject.is_index_key.
  induction o as [|e0 o IH]; cbn [JsObject.index_entries map In].
  - tauto.
  - destruct (JsObject.arrayIndex (fst e0)) as [n|] eqn:A.
    + rewrite in_map_iff. split.
      * intros [[m x] [<- H]]. cbn [snd] in *.
        apply insert_sorted_In in H as [H|H].
        -- injection H as -> ->. rewrite A. auto.
        -- assert (I : In x (map snd (JsObject.index_entries o))).
           { apply in_map_iff. now exists (m, x). }
           apply IH in I. tauto.
      * intros [[->|H] K].
        -- exists (n, e). split; [reflexivity | apply insert_sorted_In; auto].
        -- assert (I : In e (map snd (JsObject.index_entries o))) by (apply IH; auto).
           apply in_map_iff in I as [[m x] [<- I]].
           exists (m, x). split; [reflexivity | apply insert_sorted_In; auto].
    + rewrite IH. split; [tauto|]. intros [[->|H] K]; [|tauto].
      rewrite A in K. discriminate.
Qed.

Lemma entries_In o e : In e (JsObject.entries o) <-> In e o.
Proof.
  unfold JsObject.entries, JsObject.named_entries.
  rewrite in_app_iff, index_entries_In, filter_In, negb_true_iff.
  destruct (JsObject.is_index_key (fst e)); intuition congruence.
Qed.

Lemma entries_no_index o :
  forallb (fun e => negb (JsObject.is_index_key (fst e))) o = true ->
  JsObject.entries o = o.
Proof.
  unfold JsObject.entries, JsObject.named_entries, JsObject.is_index_key.
  induction o as [|e o IH]; [reflexivity|].
  cbn [JsObject.index_entries filter forallb].
  intros H. apply andb_true_iff in H as [K H].
  destruct (JsObject.arrayIndex (fst e)); [discriminate|]. cbn [negb].
  specialize (IH H). apply (f_equal (cons e)) in IH.
  destruct (JsObject.index_entries o) eqn:Ei.
  - simpl in *. exact IH.
  - exfalso. assert (I : In (snd p) (map snd (JsObject.index_entries o))).
    { rewrite Ei. now left. }
    apply index_entries_In in I as [I1 I2].
    rewrite forallb_forall in H. specialize (H _ I1).
    unfold JsObject.is_index_key in I2.
    destruct (JsObject.arrayIndex (fst (snd p))); discriminate.
Qed.

(** ** [defineConfig] *)

Lemma defineConfig_unfold config :
  defineConfig config
  = (_ <- checkGroups (JsObject.entries (groups config)) ;; Ok config).
Proof.
  unfold defineConfig, JsObject.keys. rewrite length_map.
  destruct (JsObject.entries (groups config)); reflexivity.
Qed.

Lemma checkGroups_accepts es :
  forallb validGroup es = true -> checkGroups es = Ok tt.
Proof.
  induction es as [|[key value] es IH]; simpl; [reflexivity|].
  unfold validGroup at 1; simpl. rewrite test_groupValue, test_groupKey.
  intros H. apply andb_true_iff in H as [H1 H2]. apply andb_true_iff in H1 as [-> ->].
  simpl. now apply IH.
Qed.

Lemma checkGroups_rejects es :
  forallb validGroup es = false ->
  exists key value,
    In (key, value) es /\
    ((validGroupPattern value = false /\
      checkGroups es = Throw (InvalidArgumentsException (invalid_value_message key value)))
     \/
     (validGroupKey key = false /\
      checkGroups es = Throw (InvalidArgumentsException (invalid_name_message key)))).
Proof.
  induction es as [|[key value] es IH]; simpl; [discriminate|].
  unfold validGroup at 1; simpl. rewrite test_groupValue, test_groupKey.
  destruct (validGroupPattern value) eqn:V; simpl.
  - destruct (validGroupKey key) eqn:K; simpl.
    + intros H. destruct (IH H) as (k & v & I & D). exists k, v. split; [now right | exact D].
    + intros _. exists key, value. split; [now left | right; auto].
  - intros _. exists key, value. split; [now left | left; auto].
Qed.

Lemma checkGroups_ok_valid es :
  checkGroups es = Ok tt -> forallb validGroup es = true.
Proof.
  intros H. destruct (forallb validGroup es) eqn:F; [reflexivity|].
  destruct (checkGroups_rejects es F) as (k & v & _ & [[_ D] | [_ D]]); congruence.
Qed.

Lemma forallb_entries (f : string * string -> bool) o :
  forallb f (JsObject.entries o) = forallb f o.
Proof.
  apply bool_eq_iff. rewrite !forallb_forall.
  split; intros H x I; apply H; now apply entries_In.
Qed.

Lemma defineConfig_ok_valid config :
  defineConfig config = Ok config -> forallb validGroup (groups config) = true.
Proof.
  rewrite defineConfig_unfold. intros H. rewrite <- forallb_entries.
  apply checkGroups_ok_valid.
  destruct (checkGroups (JsObject.entries (groups config))) as [[]|e]; [reflexivity | discriminate].
Qed.

(** C7, amended.  [defineConfig] hands the configuration back unchanged
    when every group key is a non-empty text of lowercase
    alphanumerics and underscores and every group pattern has a
    leading and a trailing slash, at least three code units in all,
    and nothing but lowercase alphanumerics, hyphens and slashes
    (empty segments allowed); otherwise it throws, on the spot,
    [InvalidArgumentsException] whose message quotes the key of an
    offending group (and its value, when it is the pattern that is
    malformed). *)
Theorem defineConfig_validates_groups (config : FinesConfig) :
  (forallb validGroup (groups config) = true -> defineConfig config = Ok config)
  /\
  (forallb validGroup (groups config) = false ->
   exists key value,
     In (key, value) (groups config) /\
     ((validGroupPattern value = false /\
       defineConfig config
       = Throw (InvalidArgumentsException (invalid_value_message key value)))
      \/
      (validGroupKey key = false /\
       defineConfig config
       = Throw (InvalidArgumentsException (invalid_name_message key))))).
Proof.
  rewrite defineConfig_unfold. split; intros H.
  - rewrite <- forallb_entries in H. now rewrite (checkGroups_accepts _ H).
  - rewrite <- forallb_entries in H.
    destruct (checkGroups_rejects _ H) as (k & v & I & D).
    exists k, v. split; [now apply entries_In|].
    destruct D as [[V D] | [K D]]; rewrite D; simpl; auto.
Qed.

Lemma defineConfig_validates_groups_witness :
  let good := {| groups := [("admin", "/admin/"); ("api_v1", "/api/v1/")] |} in
  let bad := {| groups := [("admin", "/admin/"); ("Api", "/api")] |} in
  defineConfig good = Ok good /\
  exists key value,
    In (key, value) (groups bad) /\
    ((validGroupPattern value = false /\
      defineConfig bad
      = Throw (InvalidArgumentsException (invalid_value_message key value)))
     \/
     (validGroupKey key = false /\
      defineConfig bad
      = Throw (InvalidArgumentsException (invalid_name_message key)))).
Proof.
  split.
  - apply (proj1 (defineConfig_validates_groups _)). vm_compute. reflexivity.
  - apply (proj2 (defineConfig_validates_groups _)). vm_compute. reflexivity.
Defined.

(** C7 as stated fails.  With a segment read as [[a-z0-9-]+], the
    pattern [/a//b/] holds an empty segment and is malformed, yet
    [defineConfig] hands the configuration back.  No other reading of
    "segment" saves the claim: [//] and [///] hold the same segments,
    all of them empty, and [defineConfig] throws on the first and
    accepts the second. *)
Lemma empty_segments_are_accepted :
  let doubled := {| groups := [("api", "/a//b/")] |} in
  let two := {| groups := [("api", "//")] |} in
  let three := {| groups := [("api", "///")] |} in
  innerSegments "/a//b/" = ["a"; EmptyString; "b"]
  /\ claimedGroupPattern lowercaseLiteral "/a//b/" = false
  /\ defineConfig doubled = Ok doubled
  /\ (forall segmentOk : string -> bool,
        claimedGroupPattern segmentOk "//" = claimedGroupPattern segmentOk "///")
  /\ defineConfig two
     = Throw (InvalidArgumentsException (invalid_value_message "api" "//"))
  /\ defineConfig three = Ok three.
Proof.
  cbv zeta. split; [reflexivity|]. split; [reflexivity|].
  split; [vm_compute; reflexivity|]. split.
  - intros segmentOk. cbv. destruct (segmentOk EmptyString); reflexivity.
  - split; vm_compute; reflexivity.
Qed.

(** ** Group matching *)

Lemma matchGroup_find es routePath :
  matchGroup es routePath
  = option_map fst (find (fun e => JsString.startsWith routePath (snd e)) es).
Proof.
  induction es as [|[key value] es IH]; simpl; [reflexivity|].
  destruct (JsString.startsWith routePath value); [reflexivity | exact IH].
Qed.

Lemma validGroupKey_truthy key : validGroupKey key = true -> JsString.truthy key = true.
Proof. unfold validGroupKey. intros H. now apply andb_true_iff in H as [H _]. Qed.

(** Whatever the keys: an empty matching key counts as no group. *)
Lemma groupOf_enumeration config routePath :
  groupOf config routePath
  = match find (fun e => JsString.startsWith routePath (snd e))
               (JsObject.entries (groups config)) with
    | Some e => if JsString.truthy (fst e) then fst e else "internal"
    | None => "internal"
    end.
Proof.
  unfold groupOf. rewrite matchGroup_find.
  destruct (find _ _) as [[k v]|]; simpl; [|reflexivity].
  destruct (JsString.truthy k); reflexivity.
Qed.

(** C6, amended.  For a configuration that [defineConfig] accepts, the
    group of a route is the key of the first group, in the ENUMERATION
    order of the mapping (array-index keys first, in ascending numeric
    order, then every other key in declaration order), whose prefix
    pattern is a literal prefix of the route's path, and [internal]
    when no prefix matches; when no key is an array index this is the
    first match in declaration order. *)
Theorem groupOf_first_enumerated (config : FinesConfig) (routePath : string) :
  defineConfig config = Ok config ->
  groupOf config routePath = firstEnumeratedGroup (groups config) routePath
  /\
  (forallb (fun e => negb (JsObject.is_index_key (fst e))) (groups config) = true ->
   groupOf config routePath = firstDeclaredGroup (groups config) routePath).
Proof.
  intros D. apply defineConfig_ok_valid in D.
  assert (E : groupOf config routePath = firstEnumeratedGroup (groups config) routePath).
  { rewrite groupOf_enumeration. unfold firstEnumeratedGroup, firstDeclaredGroup.
    destruct (find _ _) as [e|] eqn:F; [|reflexivity].
    apply find_some in F as [I _]. apply (proj1 (entries_In _ _)) in I.
    rewrite forallb_forall in D. specialize (D _ I).
    unfold validGroup in D. apply andb_true_iff in D as [_ K].
    now rewrite (validGroupKey_truthy _ K). }
  split; [exact E|].
  intros N. rewrite E. unfold firstEnumeratedGroup. now rewrite (entries_no_index _ N).
Qed.

Lemma groupOf_first_enumerated_witness :
  let numbered :=
    {| groups := [("admin", "/api/admin/"); ("api", "/api/"); ("7", "/api/admin/x/")] |} in
  let named := {| groups := [("admin", "/api/admin/"); ("api", "/api/")] |} in
  let routePath := "/api/admin/x/users" in
  (defineConfig numbered = Ok numbered /\ groupOf numbered routePath = "7")
  /\ (defineConfig named = Ok named
      /\ forallb (fun e => negb (JsObject.is_index_key (fst e))) (groups named) = true
      /\ groupOf named routePath = "admin").
Proof.
  intros numbered named routePath. split.
  - split; [vm_compute; reflexivity|].
    rewrite (proj1 (groupOf_first_enumerated numbered routePath
                      ltac:(vm_compute; reflexivity))).
    vm_compute. reflexivity.
  - split; [vm_compute; reflexivity|]. split; [vm_compute; reflexivity|].
    rewrite (proj2 (groupOf_first_enumerated named routePath
                      ltac:(vm_compute; reflexivity))
                   ltac:(vm_compute; reflexivity)).
    vm_compute. reflexivity.
Defined.

(** C6 as stated fails: a configuration that declares group [2] with
    prefix [/b/] before group [1] with prefix [/b/c/] is accepted by
    [defineConfig], and the route [/b/c/x] lands in group [1], not in
    the group declared first. *)
Lemma groupOf_not_declaration_order :
  let config := {| groups := [("2", "/b/"); ("1", "/b/c/")] |} in
  defineConfig config = Ok config
  /\ firstDeclaredGroup (groups config) "/b/c/x" = "2"
  /\ groupOf config "/b/c/x" = "1"
  /\ groupOf config "/b/c/x" <> firstDeclaredGroup (groups config) "/b/c/x".
Proof.
  vm_compute. repeat split; try reflexivity. discriminate.
Qed.

Example entries_order :
  JsObject.entries [("b", "/x/"); ("10", "/t/"); ("a", "/a/"); ("9", "/n/"); ("01", "/z/")]
  = [("9", "/n/"); ("10", "/t/"); ("b", "/x/"); ("a", "/a/"); ("01", "/z/")].
Proof. reflexivity. Qed.

(** ** Method resolution *)

Lemma getMethod_fold methods : forall init,
  fold_left
    (fun result method =>
       let lowerMethod := JsString.toLowerCase method in
       if String.eqb lowerMethod "head" then result
       else JsString.toUpperCase lowerMethod)
    methods init
  = match lastNonHead methods with
    | None => init
    | Some m => JsString.toUpperCase (JsString.toLowerCase m)
    end.
Proof.
  unfold lastNonHead.
  induction methods as [|m methods IH] using rev_ind; intros init; [reflexivity|].
  rewrite fold_left_app, filter_app, rev_app_distr. cbn [fold_left filter].
  rewrite IH. unfold isHead.
  destruct (String.eqb (JsString.toLowerCase m) "head"); reflexivity.
Qed.

(** C5.  The resolved method is [GET] unless some declared method is
    not HEAD (compared case-insensitively); then it is the last such
    method, in upper case.  So [GET, HEAD] gives GET, [POST, HEAD]
    gives POST and [GET, POST] gives POST. *)
Theorem getMethod_last_non_head_wins :
  (forall methods, getMethod methods = resolvedMethod methods)
  /\ getMethod ["GET"; "HEAD"] = "GET"
  /\ getMethod ["POST"; "HEAD"] = "POST"
  /\ getMethod ["GET"; "POST"] = "POST".
Proof.
  split; [|repeat split].
  intros methods. unfold getMethod, resolvedMethod. apply getMethod_fold.
Qed.

(** ** Path segments *)

Lemma parameterName_Some segment nm :
  parameterName segment = Some nm <->
  segment = String ":" nm /\ JsString.truthy nm = true
  /\ JsString.all_chars letter nm = true.
Proof.
  destruct segment as [|c rest]; simpl.
  - split; [discriminate | intros [H _]; discriminate].
  - unfold isChar. destruct (Ascii.eqb c ":") eqn:E; simpl.
    + apply Ascii.eqb_eq in E as ->.
      destruct (JsString.truthy rest) eqn:T; simpl.
      * destruct (JsString.all_chars letter rest) eqn:L.
        -- split; [intros H; injection H as ->; auto | intros [H _]; now injection H as ->].
        -- split; [discriminate | intros (H & _ & K); injection H as ->; congruence].
      * split; [discriminate | intros (H & K & _); injection H as ->; congruence].
    + split; [discriminate|]. intros [H _]. injection H as -> _.
      rewrite Ascii.eqb_refl in E. discriminate.
Qed.

Lemma replace_marker nm : JsString.replace ":" EmptyString (String ":" nm) = nm.
Proof. destruct nm; reflexivity. Qed.

(** What the loop over [splittedPath] does with one segment. *)
Lemma rewriteSegment_cases routePattern segmentIndex segment :
  rewriteSegment routePattern segmentIndex segment
  = if isParameter segment then
      match parameterName segment with
      | Some nm => Ok ("{{ " ++ nm ++ " }}")
      | None => Throw (InvalidParameterSegment segmentIndex routePattern)
      end
    else if anyCaseLiteral segment then Ok segment
         else Throw (InvalidLiteralSegment segmentIndex routePattern).
Proof.
  unfold rewriteSegment. rewrite test_literalSegment.
  destruct (isParameter segment).
  - destruct (RegExp.test RegExp.parameterSegment segment) eqn:T.
    + apply test_parameterSegment in T as (nm & -> & T & L).
      rewrite replace_marker.
      now rewrite (proj2 (parameterName_Some (String ":" nm) nm) (conj eq_refl (conj T L))).
    + destruct (parameterName segment) as [nm|] eqn:P; [|reflexivity].
      apply parameterName_Some in P as (-> & T' & L).
      assert (K : RegExp.test RegExp.parameterSegment (String ":" nm) = true).
      { apply test_parameterSegment. now exists nm. }
      congruence.
  - destruct (anyCaseLiteral segment); reflexivity.
Qed.

(** A literal segment of the specification's shape is always let
    through unchanged; the converse is what fails. *)
Lemma lowercaseLiteral_accepted routePattern segmentIndex segment :
  lowercaseLiteral segment = true ->
  rewriteSegment routePattern segmentIndex segment = Ok segment.
Proof.
  intros H. rewrite rewriteSegment_cases.
  unfold lowercaseLiteral in H. apply andb_true_iff in H as [T A].
  assert (P : isParameter segment = false).
  { destruct segment as [|c s]; [reflexivity|].
    unfold isParameter. cbn [JsString.startsWith].
    cbn [JsString.all_chars] in A. apply andb_true_iff in A as [A _].
    destruct (Ascii.eqb ":" c) eqn:E; [|reflexivity].
    apply Ascii.eqb_eq in E as <-. discriminate A. }
  rewrite P. unfold anyCaseLiteral. rewrite T. simpl.
  assert (Q : JsString.all_chars (fun c => segmentChar c || JsString.is_upper c) segment = true).
  { clear T P. induction segment as [|c s IH]; simpl in *; [reflexivity|].
    apply andb_true_iff in A as [A B]. now rewrite A, IH. }
  now rewrite Q.
Qed.

Lemma lowercaseLiteral_anyCase segment :
  lowercaseLiteral segment = true -> anyCaseLiteral segment = true.
Proof.
  unfold lowercaseLiteral, anyCaseLiteral. intros H.
  apply andb_true_iff in H as [-> A]. simpl.
  induction segment as [|c s IH]; simpl in *; [reflexivity|].
  apply andb_true_iff in A as [A B]. now rewrite A, IH.
Qed.

(** No segment is both acceptable and fatal. *)
Lemma acceptable_not_fatal segment :
  acceptableSegment segment = true -> fatalSegment segment = false.
Proof.
  unfold acceptableSegment, fatalSegment.
  destruct (isParameter segment).
  - now destruct (parameterName segment).
  - intros L. now rewrite (lowercaseLiteral_anyCase _ L).
Qed.

Lemma fatal_not_acceptable segment :
  fatalSegment segment = true -> acceptableSegment segment = false.
Proof.
  intros F. destruct (acceptableSegment segment) eqn:A; [|reflexivity].
  rewrite (acceptable_not_fatal segment A) in F. discriminate.
Qed.

Lemma rewriteSegment_not_fatal routePattern segmentIndex segment :
  fatalSegment segment = false ->
  exists segment', rewriteSegment routePattern segmentIndex segment = Ok segment'.
Proof.
  rewrite rewriteSegment_cases. unfold fatalSegment.
  destruct (isParameter segment).
  - destruct (parameterName segment); [now eexists | discriminate].
  - destruct (anyCaseLiteral segment); [now eexists | discriminate].
Qed.

Lemma rewriteSegment_fatal routePattern segmentIndex segment :
  fatalSegment segment = true ->
  rewriteSegment routePattern segmentIndex segment
  = Throw (segmentError segment segmentIndex routePattern).
Proof.
  rewrite rewriteSegment_cases. unfold fatalSegment, segmentError.
  destruct (isParameter segment).
  - destruct (parameterName segment); [discriminate | reflexivity].
  - destruct (anyCaseLiteral segment); [discriminate | reflexivity].
Qed.

Lemma rewriteSegment_acceptable routePattern segmentIndex segment :
  acceptableSegment segment = true ->
  rewriteSegment routePattern segmentIndex segment = Ok (placeholderOf segment).
Proof.
  intros A. unfold acceptableSegment in A. unfold placeholderOf.
  destruct (isParameter segment) eqn:P.
  - rewrite rewriteSegment_cases, P. now destruct (parameterName segment).
  - rewrite (lowercaseLiteral_accepted _ _ _ A).
    destruct (parameterName segment) as [nm|] eqn:N; [|reflexivity].
    apply parameterName_Some in N as [-> _].
    unfold isParameter in P. cbn [JsString.startsWith] in P.
    rewrite Ascii.eqb_refl in P. discriminate.
Qed.

Lemma rewriteSegments_acceptable routePattern segments : forall k,
  forallb acceptableSegment segments = true ->
  rewriteSegments routePattern k segments = Ok (map placeholderOf segments).
Proof.
  induction segments as [|segment rest IH]; intros k A; [reflexivity|].
  cbn [forallb] in A. apply andb_true_iff in A as [A B].
  cbn [rewriteSegments map].
  now rewrite (rewriteSegment_acceptable _ _ _ A), (IH _ B).
Qed.

Lemma rewriteSegments_fatal routePattern segments : forall k,
  existsb fatalSegment segments = true ->
  exists i segment,
    nth_error segments i = Some segment
    /\ fatalSegment segment = true
    /\ existsb fatalSegment (firstn i segments) = false
    /\ rewriteSegments routePattern k segments
       = Throw (segmentError segment (k + i) routePattern).
Proof.
  induction segments as [|segment rest IH]; intros k F; [discriminate|].
  cbn [existsb] in F. cbn [rewriteSegments].
  destruct (fatalSegment segment) eqn:Fs.
  - exists 0, segment. repeat split; [exact Fs|].
    now rewrite (rewriteSegment_fatal _ _ _ Fs), Nat.add_0_r.
  - simpl in F. destruct (IH (S k) F) as (i & x & N & Fx & B & R).
    destruct (rewriteSegment_not_fatal routePattern k segment Fs) as [segment' ->].
    exists (S i), x. cbn [nth_error firstn existsb bind]. rewrite Fs, B, R.
    repeat split; try assumption. now rewrite Nat.add_succ_r.
Qed.

(** C2, amended.  For every route that reaches the rewriting of its
    path (its handler is a controller reference, the source file is
    found and the controller file name is accepted): when every
    segment is a parameter with a name of letters only or a literal of
    the shape [[a-z0-9-]+], the path of the draft is the pattern with
    each parameter rewritten to [{{ name }}]; and when some segment is
    a parameter without such a name, or a literal that is empty or
    holds a code unit other than a letter, a digit or a hyphen, the
    route step throws (it does not skip) an error that names the
    pattern and the index of a segment that breaks these rules. *)
Theorem path_segments_checked
        (host : Host) (sourcesFiles : list TsMorph.SourceFile)
        (group : string) (st : RunState) (route : RouteJSON)
        (reference : string) (sf : TsMorph.SourceFile) (names : Name.t) :
  handler route = HandlerReference reference ->
  findSourceFile sourcesFiles (parseBindingReference host reference) = Some sf ->
  deriveName host (pattern route)
             (getRelativePath host (getClientPath host group) (TsMorph.getFilePath sf))
  = Ok names ->
  (forallb acceptableSegment (segmentsOf (pattern route)) = true ->
   exists draft,
     draftRoute host group route (parseBindingReference host reference) sf = Ok draft
     /\ path draft
        = "/" ++ JsString.join "/" (map placeholderOf (segmentsOf (pattern route))))
  /\
  (existsb fatalSegment (segmentsOf (pattern route)) = true ->
   exists i segment,
     nth_error (segmentsOf (pattern route)) i = Some segment
     /\ acceptableSegment segment = false
     /\ routeStep host sourcesFiles group st route
        = Throw (segmentError segment i (pattern route))).
Proof.
  intros H F N. split.
  - intros A. unfold draftRoute. rewrite N. cbn [bind]. unfold rewritePath.
    fold (segmentsOf (pattern route)).
    rewrite (rewriteSegments_acceptable _ _ 0 A). cbn [bind].
    eexists. split; reflexivity.
  - intros B.
    destruct (rewriteSegments_fatal (pattern route) _ 0 B) as (i & x & E & Fx & P & R).
    exists i, x. split; [exact E|]. split; [exact (fatal_not_acceptable x Fx)|].
    unfold routeStep. rewrite H, F. unfold draftRoute. rewrite N. cbn [bind].
    unfold rewritePath. fold (segmentsOf (pattern route)). now rewrite R.
Qed.

Lemma path_segments_checked_witness :
  let names := {| Name.key := "USERS"; Name.type := "UsersRoute" |} in
  let badUser :=
    {| pattern := "/users/:user_id"; methods := ["GET"];
       handler := HandlerReference "#controllers/users_controller" |} in
  (handler Sample.showUser = HandlerReference "#controllers/users_controller"
   /\ findSourceFile [Sample.usersController] "#controllers/users_controller"
      = Some Sample.usersController
   /\ deriveName Sample.host "/users/:id" "../../app/controllers/users_controller.ts"
      = Ok names
   /\ forallb acceptableSegment (segmentsOf "/users/:id") = true
   /\ exists draft,
       draftRoute Sample.host "internal" Sample.showUser "#controllers/users_controller"
                  Sample.usersController = Ok draft
       /\ path draft = "/users/{{ id }}")
  /\ (existsb fatalSegment (segmentsOf (pattern badUser)) = true
      /\ exists i segment,
          nth_error (segmentsOf (pattern badUser)) i = Some segment
          /\ acceptableSegment segment = false
          /\ routeStep Sample.host [Sample.usersController] "internal" emptyState badUser
             = Throw (segmentError segment i (pattern badUser))).
Proof.
  intros names badUser. split.
  - split; [reflexivity|]. split; [reflexivity|]. split; [vm_compute; reflexivity|].
    split; [reflexivity|].
    exact (proj1 (path_segments_checked
                    Sample.host [Sample.usersController] "internal" emptyState
                    Sample.showUser "#controllers/users_controller" Sample.usersController
                    names eq_refl eq_refl eq_refl) eq_refl).
  - split; [reflexivity|].
    exact (proj2 (path_segments_checked
                    Sample.host [Sample.usersController] "internal" emptyState
                    badUser "#controllers/users_controller" Sample.usersController
                    names eq_refl eq_refl eq_refl) eq_refl).
Defined.

(** C2 as stated fails twice.  The route [/health_check], handled by a
    closure, has a segment that is not of the shape [[a-z0-9-]+]; it
    is skipped, not fatal, and the run completes.  And the segment
    [Users] is not of that shape either, yet [/Users] is rewritten
    without an error, capitals kept: the tests carry the [i] flag. *)
Lemma segment_rules_not_always_fatal :
  (segmentsOf (pattern Sample.healthCheck) = ["health_check"]
   /\ lowercaseLiteral "health_check" = false
   /\ exists st,
       run Sample.host [Sample.usersController] Sample.tools (Some Sample.config)
           [Sample.healthCheck; Sample.listUsers] = Ok st
       /\ In (Skipped (parsingRouteAction "internal" Sample.healthCheck)
                      "We don't support function routes") (events st))
  /\ (segmentsOf "/Users" = ["Users"]
      /\ lowercaseLiteral "Users" = false
      /\ rewritePath "/Users" = Ok "/Users").
Proof.
  split.
  - split; [reflexivity|]. split; [reflexivity|].
    eexists. split; [vm_compute; reflexivity|].
    vm_compute. do 6 right. left. reflexivity.
  - repeat split.
Qed.

(** The example of section 8, and the root pattern. *)
Example rewritePath_examples :
  rewritePath "/users/:id/posts/:postId" = Ok "/users/{{ id }}/posts/{{ postId }}"
  /\ rewritePath "/" = Throw (InvalidLiteralSegment 0 "/")
  /\ rewritePath "/users/:post_id" = Throw (InvalidParameterSegment 1 "/users/:post_id").
Proof. repeat split. Qed.

(** ** Names *)

Lemma filter_filter_comm {A} (p q : A -> bool) (l : list A) :
  filter p (filter q l) = filter q (filter p l).
Proof.
  induction l as [|x l IH]; simpl; [reflexivity|].
  destruct (p x) eqn:P, (q x) eqn:Q; simpl; rewrite ?P, ?Q, IH; reflexivity.
Qed.

Lemma filter_andb {A} (p q : A -> bool) (l : list A) :
  filter (fun x => p x && q x) l = filter q (filter p l).
Proof.
  induction l as [|x l IH]; simpl; [reflexivity|].
  destruct (p x); simpl; [destruct (q x); now rewrite IH | exact IH].
Qed.

Lemma filter_absorb {A} (p q : A -> bool) (l : list A) :
  (forall x, p x = true -> q x = true) -> filter p (filter q l) = filter p l.
Proof.
  intros H. induction l as [|x l IH]; simpl; [reflexivity|].
  destruct (q x) eqn:Q; simpl.
  - now rewrite IH.
  - destruct (p x) eqn:P; [|exact IH]. apply H in P. congruence.
Qed.

Lemma firstOccurrences_filter (q : string -> bool) xs :
  firstOccurrences (filter q xs) = filter q (firstOccurrences xs).
Proof.
  induction xs as [|x xs IH]; simpl; [reflexivity|].
  destruct (q x) eqn:Q; simpl.
  - now rewrite IH, filter_filter_comm.
  - rewrite IH. symmetry. apply filter_absorb.
    intros y Y. apply negb_true_iff. destruct (String.eqb y x) eqn:E; [|reflexivity].
    apply String.eqb_eq in E. congruence.
Qed.

Lemma newSet_from acc xs :
  fold_left setAdd xs acc
  = (acc ++ firstOccurrences (filter (fun y => negb (existsb (String.eqb y) acc)) xs))%list.
Proof.
  revert acc; induction xs as [|x xs IH]; intros acc; simpl.
  - now rewrite app_nil_r.
  - unfold setAdd at 2. destruct (existsb (String.eqb x) acc) eqn:M; simpl.
    + apply IH.
    + rewrite IH, <- app_assoc. simpl. do 2 f_equal.
      rewrite <- firstOccurrences_filter, <- filter_andb. f_equal.
      apply filter_ext. intros y. rewrite existsb_app. simpl.
      rewrite orb_false_r, negb_orb. reflexivity.
Qed.

(** [new Set] is deduplication that keeps first occurrences. *)
Lemma newSet_firstOccurrences xs : newSet xs = firstOccurrences xs.
Proof.
  unfold newSet. rewrite newSet_from. simpl. f_equal.
  induction xs as [|x xs IH]; simpl; [reflexivity | now rewrite IH].
Qed.

Lemma stripSuffix_spec suffix s : forall stem,
  stripSuffix suffix s = Some stem <-> s = stem ++ suffix.
Proof.
  induction s as [|c s IH]; intros stem; cbn [stripSuffix].
  - destruct (String.eqb EmptyString suffix) eqn:E.
    + apply String.eqb_eq in E as <-. split.
      * intros H; now injection H as <-.
      * intros H. symmetry in H. apply append_eq_empty in H as [-> _]. reflexivity.
    + apply String.eqb_neq in E. split; [discriminate|].
      intros H. symmetry in H. apply append_eq_empty in H as [_ H]. congruence.
  - destruct (String.eqb (String c s) suffix) eqn:E.
    + apply String.eqb_eq in E as <-. split.
      * intros H; now injection H as <-.
      * intros H. apply (f_equal String.length) in H.
        rewrite length_append in H. destruct stem; [reflexivity | simpl in H; lia].
    + apply String.eqb_neq in E. split.
      * intros H. destruct (stripSuffix suffix s) as [t|]; [|discriminate H].
        simpl in H. injection H as <-. simpl. f_equal. now apply IH.
      * intros H. destruct stem as [|d t]; simpl in H; [congruence|].
        injection H as <- H. now rewrite (proj2 (IH t) H).
Qed.

Lemma endsWith_stripSuffix s suffix :
  JsString.endsWith s suffix = true <-> exists stem, stripSuffix suffix s = Some stem.
Proof.
  rewrite endsWith_spec. split; intros [stem H]; exists stem; now apply stripSuffix_spec.
Qed.

Lemma split_not_nil sep s : JsString.split sep s <> [].
Proof.
  destruct s as [|c s]; simpl; [discriminate|].
  destruct (Ascii.eqb c sep); [discriminate|].
  destruct (JsString.split sep s); discriminate.
Qed.

Lemma pop_last xs : xs <> [] -> JsString.pop xs = Some (last xs EmptyString).
Proof.
  intros N. unfold JsString.pop.
  destruct (exists_last N) as (ys & y & ->).
  rewrite rev_app_distr, last_last. reflexivity.
Qed.

Lemma getConstructorAction_cases p :
  getConstructorAction p
  = let fileName := finalSegment p in
    if negb (JsString.truthy fileName) then Throw (UnableToDetermineFileName p)
    else if negb (JsString.endsWith fileName "_controller.ts")
         then Throw (FileNameMustEndWithController p)
         else Ok (JsString.split "_"
                    (JsString.replace "_controller.ts" EmptyString fileName)).
Proof.
  unfold getConstructorAction, finalSegment.
  now rewrite (pop_last _ (split_not_nil "/" p)).
Qed.

(** The abort of section 4.2: no name for a controller file that does
    not end with [_controller.ts]. *)
Lemma deriveName_abort host routePattern controllerFile :
  specifiedName host routePattern controllerFile = None ->
  deriveName host routePattern controllerFile
  = Throw (if JsString.truthy (finalSegment controllerFile)
           then FileNameMustEndWithController controllerFile
           else UnableToDetermineFileName controllerFile).
Proof.
  unfold specifiedName, controllerWords, deriveName.
  rewrite getConstructorAction_cases. cbv zeta.
  destruct (stripSuffix "_controller.ts" (finalSegment controllerFile)) as [stem|] eqn:S;
    [discriminate|]. intros _.
  destruct (JsString.truthy (finalSegment controllerFile)); simpl; [|reflexivity].
  destruct (JsString.endsWith (finalSegment controllerFile) "_controller.ts") eqn:E;
    [|reflexivity].
  apply endsWith_stripSuffix in E as [stem E]. congruence.
Qed.

(** Where the text [_controller.ts] occurs in the file name only as
    its suffix, the command derives the name of section 4.2. *)
Lemma deriveName_refines host routePattern controllerFile stem :
  stripSuffix "_controller.ts" (finalSegment controllerFile) = Some stem ->
  JsString.replace "_controller.ts" EmptyString (finalSegment controllerFile) = stem ->
  exists names,
    specifiedName host routePattern controllerFile = Some names
    /\ deriveName host routePattern controllerFile = Ok names.
Proof.
  intros S R. unfold specifiedName, controllerWords, deriveName.
  rewrite getConstructorAction_cases. cbv zeta. rewrite S, R. simpl.
  assert (E : JsString.endsWith (finalSegment controllerFile) "_controller.ts" = true).
  { apply endsWith_stripSuffix. now exists stem. }
  rewrite E.
  assert (T : JsString.truthy (finalSegment controllerFile) = true).
  { apply stripSuffix_spec in S. rewrite S. destruct stem; reflexivity. }
  rewrite T. simpl. eexists. split; [reflexivity|].
  unfold joinedSpacedPath. now rewrite newSet_firstOccurrences.
Qed.

(** C4, the code at the failing input.  For the controller file
    [a_controller.tsb_controller.ts] the words of section 4.2 (suffix
    stripped, cut at underscores) are [a] and [controller.tsb]; the
    command removes the FIRST occurrence of [_controller.ts] instead,
    and, whatever the case helpers are, names the route after the
    words [ab] and [controller.ts] where section 4.2 names it after
    [a] and [controller.tsb]. *)
Theorem first_occurrence_of_suffix_removed :
  let controllerFile := "../../app/controllers/a_controller.tsb_controller.ts" in
  controllerWords (finalSegment controllerFile) = Some ["a"; "controller.tsb"]
  /\ getConstructorAction controllerFile = Ok ["ab"; "controller.ts"]
  /\ forall host : Host,
       specifiedName host "/x" controllerFile
       = Some (nameOfPhrase host
                 (JsString.join " "
                    (firstOccurrences
                       (map (snakeCase host) [EmptyString; "x"; "a"; "controller.tsb"]))))
       /\ deriveName host "/x" controllerFile
          = Ok (nameOfPhrase host
                  (joinedSpacedPath host [EmptyString; "x"; "ab"; "controller.ts"])).
Proof.
  cbv zeta. split; [reflexivity|]. split; [reflexivity|].
  intros host. split; reflexivity.
Qed.

(** ** The form flag *)

Lemma validateController_form sf b :
  validateController sf = Valid b ->
  exists classDef,
    defaultClass sf = Some classDef
    /\ lacksHandle sf = false
    /\ b = match TsMorph.getProperty classDef "form" with
           | None => false
           | Some p => JsString.truthy_opt (TsMorph.initializer p)
           end.
Proof.
  unfold validateController, lacksHandle, defaultClass.
  destruct (find TsMorph.isDefaultExport (TsMorph.getClasses sf)) as [c|]; [|discriminate].
  destruct (TsMorph.isClass (TsMorph.classType c)); simpl; [|discriminate].
  destruct (TsMorph.getProperty c "handle") as [h|]; [|discriminate].
  assert (K : forall b',
             match TsMorph.getProperty c "form" with
             | Some q =>
                 if negb (TsMorph.isBoolean (TsMorph.getType q))
                 then Skip ("The " ++ quote ++ "form" ++ quote ++ " property is not a boolean")
                 else Valid (JsString.truthy_opt (TsMorph.initializer q))
             | None => Valid false
             end = Valid b' ->
             exists classDef, Some c = Some classDef /\ false = false /\
               b' = match TsMorph.getProperty classDef "form" with
                    | None => false
                    | Some q => JsString.truthy_opt (TsMorph.initializer q)
                    end).
  { intros b' H. exists c. split; [reflexivity|]. split; [reflexivity|].
    destruct (TsMorph.getProperty c "form") as [q|].
    - destruct (TsMorph.isBoolean (TsMorph.getType q)); simpl in H; [|discriminate].
      now injection H as <-.
    - now injection H as <-. }
  destruct (TsMorph.getProperty c "input") as [p|].
  - destruct (TsMorph.isObject (TsMorph.getType p)); simpl; [|discriminate]. apply K.
  - apply K.
Qed.

(** The flag is right without a [form] member, without an initializer
    and for the initializer [true]. *)
Lemma validateController_form_agrees sf b classDef :
  validateController sf = Valid b ->
  defaultClass sf = Some classDef ->
  specifiedForm classDef <> Some false \/
  (forall p, TsMorph.getProperty classDef "form" = Some p -> TsMorph.initializer p = None) ->
  specifiedForm classDef = Some b \/ specifiedForm classDef = None.
Proof.
  intros V D H. apply validateController_form in V as (c & D' & _ & ->).
  rewrite D in D'. injection D' as <-.
  unfold specifiedForm in *.
  destruct (TsMorph.getProperty classDef "form") as [p|]; [|now left].
  destruct (TsMorph.initializer p) as [text|] eqn:I; [|now left].
  destruct H as [H | H]; [|specialize (H p eq_refl); congruence].
  unfold literalValue in *.
  destruct (String.eqb text "true") eqn:T.
  - apply String.eqb_eq in T as ->. now left.
  - destruct (String.eqb text "false"); [congruence | now right].
Qed.

(** C3, the code at the failing input.  A controller that declares
    [form = false] (of boolean type) beside [handle] is accepted, and
    the entry written for its route says [form: true]: the flag is the
    truthiness of the initializer's TEXT, and the text [false] is a
    non-empty string. *)
Theorem form_false_is_emitted_as_true :
  (exists classDef,
      defaultClass Sample.usersController = Some classDef
      /\ specifiedForm classDef = Some false)
  /\ validateController Sample.usersController = Valid true
  /\ exists st,
      run Sample.host [Sample.usersController] Sample.tools (Some Sample.config)
          [Sample.listUsers] = Ok st
      /\ map form (emittedRoutes st) = [true]
      /\ map routeEntries (files st)
         = [["USERS: register<UsersRoute>({ form: true, path: '/users', method: 'GET' }),"]].
Proof.
  split; [eexists; split; reflexivity|].
  split; [reflexivity|].
  eexists. split; [vm_compute; reflexivity|]. split; reflexivity.
Qed.

(** ** Path interpolation *)

Lemma scan_text ps s rest :
  JsString.all_chars Template.textChar s = true ->
  Runtime.scan ps None (s ++ rest) = (r <- Runtime.scan ps None rest ;; Ok (s ++ r)).
Proof.
  induction s as [|c s IH]; intros A.
  - simpl. now destruct (Runtime.scan ps None rest).
  - cbn [JsString.all_chars] in A. apply andb_true_iff in A as [C A].
    unfold Template.textChar, isChar in C. apply negb_true_iff in C.
    cbn [append Runtime.scan]. rewrite C, (IH A).
    now destruct (Runtime.scan ps None rest).
Qed.

Lemma scan_placeholder ps t : forall acc rest,
  JsString.all_chars (fun c => negb (isChar "}" c)) t = true ->
  Runtime.scan ps (Some acc) (t ++ String "}" (String "}" rest))
  = match Runtime.param (Runtime.trim (acc ++ t)) ps with
    | Some v => r <- Runtime.scan ps None rest ;; Ok (Runtime.toString v ++ r)
    | None => Throw (Runtime.MissingParameter (Runtime.trim (acc ++ t)))
    end.
Proof.
  induction t as [|c t IH]; intros acc rest A.
  - cbn [append Runtime.scan]. rewrite !Ascii.eqb_refl. now rewrite append_empty_r.
  - cbn [JsString.all_chars] in A. apply andb_true_iff in A as [C A].
    unfold isChar in C. apply negb_true_iff in C.
    cbn [append Runtime.scan]. rewrite C, (IH _ _ A).
    now rewrite append_assoc.
Qed.

Lemma trimEnd_padded n :
  JsString.all_chars Template.nameChar n = true -> Runtime.trimEnd (n ++ " ") = n.
Proof.
  induction n as [|c n IH]; intros A; [reflexivity|].
  cbn [JsString.all_chars] in A. apply andb_true_iff in A as [C A].
  unfold Template.nameChar in C. apply negb_true_iff, orb_false_iff in C as [_ C].
  cbn [append Runtime.trimEnd]. rewrite (IH A), C. now destruct n.
Qed.

Lemma trim_padded n :
  JsString.all_chars Template.nameChar n = true ->
  Runtime.trim (" " ++ n ++ " ") = n.
Proof.
  intros A. unfold Runtime.trim. cbn [append Runtime.trimStart].
  change (Runtime.is_space " ") with true. cbv iota.
  destruct n as [|c n]; [reflexivity|].
  pose proof (trimEnd_padded _ A) as T.
  cbn [JsString.all_chars] in A. apply andb_true_iff in A as [C _].
  unfold Template.nameChar in C. apply negb_true_iff, orb_false_iff in C as [_ C].
  cbn [append Runtime.trimStart]. rewrite C. exact T.
Qed.

Lemma nameChar_no_brace n :
  JsString.all_chars Template.nameChar n = true ->
  JsString.all_chars (fun c => negb (isChar "}" c)) (" " ++ n ++ " ") = true.
Proof.
  intros A. cbn [append JsString.all_chars]. apply andb_true_iff. split; [reflexivity|].
  rewrite all_chars_append. apply andb_true_iff. split; [|reflexivity].
  induction n as [|c n IH]; [reflexivity|].
  cbn [JsString.all_chars] in *. apply andb_true_iff in A as [C A].
  unfold Template.nameChar in C. apply negb_true_iff, orb_false_iff in C as [C _].
  now rewrite C, (IH A).
Qed.

Lemma scan_open ps x :
  Runtime.scan ps None (String "{" (String "{" x)) = Runtime.scan ps (Some EmptyString) x.
Proof. reflexivity. Qed.

Lemma interpolate_render ps t :
  forallb Template.wellFormed t = true ->
  Runtime.interpolate (Template.render t) ps = Template.substitute ps t.
Proof.
  unfold Runtime.interpolate.
  induction t as [|[s|n] t IH]; intros W; [reflexivity| |];
    cbn [forallb Template.wellFormed] in W; apply andb_true_iff in W as [A W];
    cbn [Template.render Template.renderPiece Template.substitute].
  - now rewrite (scan_text ps s _ A), (IH W).
  - assert (E : ("{{ " ++ n ++ " }}") ++ Template.render t
               = String "{" (String "{"
                   ((" " ++ n ++ " ") ++ String "}" (String "}" (Template.render t))))).
    { cbn [append]. do 3 f_equal. now rewrite !append_assoc. }
    rewrite E, scan_open.
    rewrite (scan_placeholder ps _ EmptyString _ (nameChar_no_brace _ A)).
    change (EmptyString ++ " " ++ n ++ " ") with (" " ++ n ++ " ").
    now rewrite (trim_padded _ A), (IH W).
Qed.

Lemma substitute_supplied ps t :
  forallb (Template.supplied ps) t = true ->
  exists r, Template.substitute ps t = Ok r.
Proof.
  induction t as [|[s|n] t IH]; cbn [forallb Template.supplied Template.substitute]; intros S.
  - now eexists.
  - destruct (IH S) as [r ->]. now eexists.
  - destruct (Runtime.param n ps); [|discriminate].
    destruct (IH S) as [r ->]. now eexists.
Qed.

Lemma substitute_missing ps t :
  forallb (Template.supplied ps) t = false ->
  exists n, In (Template.Placeholder n) t /\ Runtime.param n ps = None
            /\ Template.substitute ps t = Throw (Runtime.MissingParameter n).
Proof.
  induction t as [|[s|n] t IH]; cbn [forallb Template.supplied Template.substitute]; intros S.
  - discriminate.
  - destruct (IH S) as (n & I & P & ->). exists n. repeat split; [now right | assumption].
  - destruct (Runtime.param n ps) eqn:P.
    + destruct (IH S) as (m & I & Q & ->). exists m. repeat split; [now right | assumption].
    + exists n. repeat split; [now left | assumption].
Qed.

(** C8.  For a path template made of literal text and [{{ name }}]
    placeholders, the path builder of a registered route returns the
    template with every placeholder replaced by the string
    representation of its parameter, and fails, naming the parameter,
    when a placeholder has none; [/users/{{ id }}] with [id: "42"]
    gives [/users/42] and fails without [id]. *)
Theorem path_interpolation (t : list Template.Piece) (ps : option Runtime.Params)
        (params : Runtime.RegisterParams) :
  forallb Template.wellFormed t = true ->
  Runtime.params_path params = Template.render t ->
  Runtime.path (Runtime.register params) ps = Template.substitute ps t
  /\ (forallb (Template.supplied ps) t = true ->
      exists r, Runtime.path (Runtime.register params) ps = Ok r)
  /\ (forallb (Template.supplied ps) t = false ->
      exists n, In (Template.Placeholder n) t /\ Runtime.param n ps = None
                /\ Runtime.path (Runtime.register params) ps
                   = Throw (Runtime.MissingParameter n))
  /\ Runtime.interpolate "/users/{{ id }}" (Some [("id", Runtime.PString "42")])
     = Ok "/users/42"
  /\ Runtime.interpolate "/users/{{ id }}" (Some []) = Throw (Runtime.MissingParameter "id").
Proof.
  intros W P.
  assert (E : Runtime.path (Runtime.register params) ps = Template.substitute ps t).
  { cbn [Runtime.register Runtime.path]. unfold Runtime.pathParser.
    rewrite P. now apply interpolate_render. }
  rewrite E. split; [reflexivity|]. split; [apply substitute_supplied|].
  split; [apply substitute_missing|]. split; reflexivity.
Qed.

Lemma path_interpolation_witness :
  let t := [Template.Text "/users/"; Template.Placeholder "id";
            Template.Text "/posts/"; Template.Placeholder "postId"] in
  let both := Some [("id", Runtime.PString "42"); ("postId", Runtime.PNumber 7)] in
  let one := Some [("id", Runtime.PString "42")] in
  let params := {| Runtime.params_path := "/users/{{ id }}/posts/{{ postId }}";
                   Runtime.params_method := "GET"; Runtime.params_form := false |} in
  forallb Template.wellFormed t = true
  /\ Runtime.params_path params = Template.render t
  /\ Runtime.path (Runtime.register params) both = Ok "/users/42/posts/7"
  /\ forallb (Template.supplied one) t = false
  /\ exists n, In (Template.Placeholder n) t /\ Runtime.param n one = None
                /\ Runtime.path (Runtime.register params) one
                   = Throw (Runtime.MissingParameter n).
Proof.
  intros t both one params. split; [reflexivity|]. split; [reflexivity|]. split.
  - rewrite (proj1 (path_interpolation t both params eq_refl eq_refl)). reflexivity.
  - split; [reflexivity|].
    exact (proj1 (proj2 (proj2 (path_interpolation t one params eq_refl eq_refl))) eq_refl).
Defined.

(** ** The route loop *)

Lemma foldM_app {E S A} (f : S -> A -> Result E S) (l1 l2 : list A) : forall s,
  foldM f s (l1 ++ l2) = (s' <- foldM f s l1 ;; foldM f s' l2).
Proof.
  induction l1 as [|a l1 IH]; intros s; simpl; [reflexivity|].
  destruct (f s a) as [s'|e]; simpl; [apply IH | reflexivity].
Qed.

Lemma foldM_invariant {E S A} (f : S -> A -> Result E S) (P : S -> Prop) :
  (forall s a s', P s -> f s a = Ok s' -> P s') ->
  forall l s s', P s -> foldM f s l = Ok s' -> P s'.
Proof.
  intros Step. induction l as [|a l IH]; intros s s' H; simpl.
  - intros Q; now injection Q as <-.
  - destruct (f s a) as [s1|e] eqn:F; simpl; [|discriminate].
    apply IH. now apply (Step s a).
Qed.

Lemma checkCollisions_throws registered draft :
  collides draft registered ->
  exists e, isCollision e = true /\ checkCollisions registered draft = Throw e.
Proof.
  induction registered as [|r rs IH]; intros (x & I & C); [destruct I|].
  cbn [checkCollisions].
  destruct (String.eqb (Controller.path (controller r)) (Controller.path (controller draft)))
    eqn:P; [eexists; split; [|reflexivity]; reflexivity|].
  destruct (String.eqb (Name.key (name r)) (Name.key (name draft)))
    eqn:K; [eexists; split; [|reflexivity]; reflexivity|].
  apply IH. exists x. split; [|exact C].
  destruct I as [->|I]; [|exact I].
  apply String.eqb_neq in P, K. unfold routeKey, controllerPath in C. tauto.
Qed.

Lemma checkCollisions_passes registered draft :
  checkCollisions registered draft = Ok tt <-> ~ collides draft registered.
Proof.
  split.
  - intros H C. destruct (checkCollisions_throws _ _ C) as (e & _ & T). congruence.
  - induction registered as [|r rs IH]; intros N; [reflexivity|].
    cbn [checkCollisions].
    destruct (String.eqb (Controller.path (controller r)) (Controller.path (controller draft)))
      eqn:P.
    { exfalso. apply N. exists r. apply String.eqb_eq in P. split; [now left | now right]. }
    destruct (String.eqb (Name.key (name r)) (Name.key (name draft))) eqn:K.
    { exfalso. apply N. exists r. apply String.eqb_eq in K. split; [now left | now left]. }
    apply IH. intros (x & I & C). apply N. exists x. split; [now right | exact C].
Qed.

Lemma collisionFree_snoc rs r :
  collisionFree rs -> ~ collides r rs -> collisionFree (rs ++ [r]).
Proof.
  intros [K P] N. unfold collisionFree. rewrite !map_app. simpl.
  split; apply NoDup_app; try assumption; try (constructor; [intros []|constructor]).
  - intros k I [<-|[]]. apply in_map_iff in I as (x & E & I).
    apply N. exists x. split; [exact I | now left].
  - intros k I [<-|[]]. apply in_map_iff in I as (x & E & I).
    apply N. exists x. split; [exact I | now right].
Qed.

Lemma lacksHandle_skips sf :
  lacksHandle sf = true -> validateController sf = Skip handleMissingMessage.
Proof.
  unfold lacksHandle, defaultClass, validateController.
  destruct (find TsMorph.isDefaultExport (TsMorph.getClasses sf)) as [c|]; [|discriminate].
  destruct (TsMorph.isClass (TsMorph.classType c)); simpl; [|discriminate].
  destruct (TsMorph.getProperty c "handle"); [discriminate | reflexivity].
Qed.

Section RouteLoop.

Variable host : Host.
Variable sourcesFiles : list TsMorph.SourceFile.

Lemma draftRoute_controllerPath group route moduleNameOrPath sf draft :
  draftRoute host group route moduleNameOrPath sf = Ok draft ->
  controllerPath draft = moduleNameOrPath /\ form draft = false.
Proof.
  unfold draftRoute.
  destruct (deriveName host _ _) as [nm|e]; simpl; [|discriminate].
  destruct (rewritePath _) as [p|e]; simpl; [|discriminate].
  intros H; injection H as <-. split; reflexivity.
Qed.

(** A route whose draft collides is fatal, whatever its controller. *)
Lemma routeStep_collision group st route reference sf draft :
  handler route = HandlerReference reference ->
  findSourceFile sourcesFiles (parseBindingReference host reference) = Some sf ->
  draftRoute host group route (parseBindingReference host reference) sf = Ok draft ->
  collides draft (allParsedRoutes st) ->
  exists e, isCollision e = true
            /\ routeStep host sourcesFiles group st route = Throw e.
Proof.
  intros H F D C. unfold routeStep. rewrite H, F, D. cbn [bind].
  destruct (checkCollisions_throws _ _ C) as (e & I & T).
  exists e. split; [exact I|].
  change (allParsedRoutes (report st _)) with (allParsedRoutes st).
  now rewrite T.
Qed.

(** Without a collision, a controller that fails validation is a
    skip: the route is reported and nothing else changes. *)
Lemma routeStep_skip group st route reference sf draft message :
  handler route = HandlerReference reference ->
  findSourceFile sourcesFiles (parseBindingReference host reference) = Some sf ->
  draftRoute host group route (parseBindingReference host reference) sf = Ok draft ->
  ~ collides draft (allParsedRoutes st) ->
  validateController sf = Skip message ->
  routeStep host sourcesFiles group st route
  = Ok (report (report st (Succeeded (parsingRouteAction group route)))
               (Skipped (validatingRouteAction route draft) message)).
Proof.
  intros H F D C V. unfold routeStep. rewrite H, F, D. cbn [bind].
  change (allParsedRoutes (report st _)) with (allParsedRoutes st).
  apply checkCollisions_passes in C. now rewrite C, V.
Qed.

(** What a step that does not throw has done. *)
Lemma routeStep_ok group st route st' :
  routeStep host sourcesFiles group st route = Ok st' ->
  files st' = files st
  /\ ((allParsedRoutes st' = allParsedRoutes st /\ parsedRoutes st' = parsedRoutes st)
      \/ exists accepted,
          ~ collides accepted (allParsedRoutes st)
          /\ handled sourcesFiles accepted
          /\ allParsedRoutes st' = (allParsedRoutes st ++ [accepted])%list
          /\ parsedRoutes st' = (parsedRoutes st ++ [accepted])%list).
Proof.
  unfold routeStep.
  destruct (handler route) as [|reference].
  { intros E; injection E as <-. split; [reflexivity | left; split; reflexivity]. }
  destruct (findSourceFile sourcesFiles (parseBindingReference host reference))
    as [sf|] eqn:F.
  2:{ intros E; injection E as <-. split; [reflexivity | left; split; reflexivity]. }
  destruct (draftRoute host group route (parseBindingReference host reference) sf)
    as [draft|e] eqn:D; cbn [bind]; [|discriminate].
  change (allParsedRoutes (report st _)) with (allParsedRoutes st).
  destruct (checkCollisions (allParsedRoutes st) draft) as [[]|e] eqn:C;
    cbn [bind]; [|discriminate].
  apply checkCollisions_passes in C.
  destruct (validateController sf) as [message|b] eqn:V.
  { intros E; injection E as <-. split; [reflexivity | left; split; reflexivity]. }
  intros E; injection E as <-. split; [reflexivity|]. right.
  exists (setForm draft b). repeat split.
  - intros (x & I & K). apply C. exists x. split; [exact I | exact K].
  - exists sf. apply draftRoute_controllerPath in D as [P _].
    unfold controllerPath in *. cbn [setForm controller]. rewrite P.
    split; [exact F|]. now apply validateController_form in V as (c & _ & L & _).
Qed.

Lemma routeStep_withinGroup group st route st' :
  withinGroup sourcesFiles st ->
  routeStep host sourcesFiles group st route = Ok st' ->
  withinGroup sourcesFiles st'.
Proof.
  intros (C & E & H) S. apply routeStep_ok in S as [Fl [[A P] | (r & N & Hr & A & P)]];
    unfold withinGroup, emittedRoutes in *; rewrite A, P, Fl.
  - auto.
  - repeat split.
    + now apply collisionFree_snoc.
    + now apply collisionFree_snoc.
    + now rewrite app_assoc, E.
    + apply Forall_app. split; [exact H | now constructor].
Qed.

Lemma routes_withinGroup group routes : forall st st',
  withinGroup sourcesFiles st ->
  foldM (routeStep host sourcesFiles group) st routes = Ok st' ->
  withinGroup sourcesFiles st'.
Proof.
  apply foldM_invariant. intros s a s'. apply routeStep_withinGroup.
Qed.

Lemma groupStep_betweenGroups st entry st' :
  betweenGroups sourcesFiles st ->
  groupStep host sourcesFiles st entry = Ok st' ->
  betweenGroups sourcesFiles st'.
Proof.
  destruct entry as [group routes]. intros (C & E & H). unfold groupStep.
  destruct (foldM (routeStep host sourcesFiles group) (beginGroup st) routes)
    as [st1|e] eqn:L; cbn [bind]; [|discriminate].
  intros K; injection K as <-.
  assert (W : withinGroup sourcesFiles (beginGroup st)).
  { unfold withinGroup, emittedRoutes in *. cbn [beginGroup allParsedRoutes parsedRoutes files].
    rewrite app_nil_r. auto. }
  destruct (routes_withinGroup _ _ _ _ W L) as (C1 & E1 & H1).
  unfold betweenGroups, emittedRoutes in *.
  cbn [report saveFile allParsedRoutes parsedRoutes files].
  repeat split; try apply C1; try exact H1.
  rewrite map_app, concat_app. cbn [map concat writeSchemaFile fileRoutes].
  now rewrite app_nil_r.
Qed.

Lemma parseRoutes_betweenGroups routes : forall st st',
  betweenGroups sourcesFiles st ->
  parseRoutes host sourcesFiles st routes = Ok st' ->
  betweenGroups sourcesFiles st'.
Proof.
  apply foldM_invariant. intros s a s'. apply groupStep_betweenGroups.
Qed.

Lemma command_fields commandName active exitCode st st' :
  command commandName active exitCode st = Ok st' ->
  allParsedRoutes st' = allParsedRoutes st /\ files st' = files st.
Proof.
  unfold command. destruct active; simpl.
  - destruct (Nat.eqb exitCode 0); simpl; [|discriminate].
    intros E; injection E as <-. split; reflexivity.
  - intros E; injection E as <-. split; reflexivity.
Qed.

Lemma command_betweenGroups commandName active exitCode st st' :
  betweenGroups sourcesFiles st ->
  command commandName active exitCode st = Ok st' ->
  betweenGroups sourcesFiles st'.
Proof.
  intros B C. apply command_fields in C as [A F].
  unfold betweenGroups, emittedRoutes in *. now rewrite A, F.
Qed.

Lemma report_betweenGroups st e :
  betweenGroups sourcesFiles st -> betweenGroups sourcesFiles (report st e).
Proof. intros B. exact B. Qed.

Lemma beforeParsing_betweenGroups tools st :
  beforeParsing tools = Ok st -> betweenGroups sourcesFiles st.
Proof.
  unfold beforeParsing.
  set (st1 := report (report emptyState _) _).
  assert (B1 : betweenGroups sourcesFiles st1).
  { repeat split; constructor. }
  destruct (command "Formatting files" _ _ st1) as [st2|e] eqn:C2; cbn [bind]; [|discriminate].
  destruct (command "Typechecking" _ _ st2) as [st3|e] eqn:C3; cbn [bind]; [|discriminate].
  destruct (command "Linting" _ _ st3) as [st4|e] eqn:C4; cbn [bind]; [|discriminate].
  intros E; injection E as <-. apply report_betweenGroups.
  eapply command_betweenGroups; [|exact C4].
  eapply command_betweenGroups; [|exact C3].
  eapply command_betweenGroups; [exact B1 | exact C2].
Qed.

Lemma afterParsing_betweenGroups tools st st' :
  betweenGroups sourcesFiles st -> afterParsing tools st = Ok st' ->
  betweenGroups sourcesFiles st'.
Proof.
  unfold afterParsing. intros B.
  destruct (command "Formatting client file" _ _ _) as [st8|e] eqn:C; cbn [bind];
    [|discriminate].
  intros E; injection E as <-. apply report_betweenGroups.
  eapply command_betweenGroups; [|exact C]. now apply report_betweenGroups.
Qed.

(** [run], cut at the loop. *)
Lemma run_unfold tools rawConfig routerRoutes :
  run host sourcesFiles tools rawConfig routerRoutes
  = (routes <- groupRoutes rawConfig routerRoutes ;;
     st5 <- beforeParsing tools ;;
     st6 <- parseRoutes host sourcesFiles st5 routes ;;
     afterParsing tools st6).
Proof.
  unfold run, beforeParsing, afterParsing.
  destruct (groupRoutes rawConfig routerRoutes) as [routes|e]; cbn [bind]; [|reflexivity].
  destruct (command "Formatting files" _ _ _) as [st2|e]; cbn [bind]; [|reflexivity].
  destruct (command "Typechecking" _ _ _) as [st3|e]; cbn [bind]; [|reflexivity].
  destruct (command "Linting" _ _ _) as [st4|e]; cbn [bind]; reflexivity.
Qed.

Lemma run_betweenGroups tools rawConfig routerRoutes st :
  run host sourcesFiles tools rawConfig routerRoutes = Ok st ->
  betweenGroups sourcesFiles st.
Proof.
  rewrite run_unfold.
  destruct (groupRoutes rawConfig routerRoutes) as [routes|e]; cbn [bind]; [|discriminate].
  destruct (beforeParsing tools) as [st5|e] eqn:B; cbn [bind]; [|discriminate].
  destruct (parseRoutes host sourcesFiles st5 routes) as [st6|e] eqn:P; cbn [bind];
    [|discriminate].
  apply afterParsing_betweenGroups.
  eapply parseRoutes_betweenGroups; [|exact P]. now apply beforeParsing_betweenGroups in B.
Qed.

(** A fatal route is fatal for the loop over groups. *)
Lemma parseRoutes_aborts start groupsBefore st0 group before st route after groupsAfter e :
  parseRoutes host sourcesFiles start groupsBefore = Ok st0 ->
  foldM (routeStep host sourcesFiles group) (beginGroup st0) before = Ok st ->
  routeStep host sourcesFiles group st route = Throw e ->
  parseRoutes host sourcesFiles start
              (groupsBefore ++ (group, (before ++ route :: after)%list) :: groupsAfter)
  = Throw e.
Proof.
  intros P B S. unfold parseRoutes in *. rewrite foldM_app, P. cbn [bind foldM groupStep].
  now rewrite foldM_app, B; cbn [bind foldM]; rewrite S.
Qed.

(** ... and for the run. *)
Lemma run_aborts tools rawConfig routerRoutes
      groupsBefore st5 st0 group before st route after groupsAfter e :
  groupRoutes rawConfig routerRoutes
  = Ok (groupsBefore ++ (group, (before ++ route :: after)%list) :: groupsAfter)%list ->
  beforeParsing tools = Ok st5 ->
  parseRoutes host sourcesFiles st5 groupsBefore = Ok st0 ->
  foldM (routeStep host sourcesFiles group) (beginGroup st0) before = Ok st ->
  routeStep host sourcesFiles group st route = Throw e ->
  run host sourcesFiles tools rawConfig routerRoutes = Throw e.
Proof.
  intros G T P B S. rewrite run_unfold, G, T. cbn [bind].
  now rewrite (parseRoutes_aborts _ _ _ _ _ _ _ _ _ _ P B S).
Qed.

End RouteLoop.

(** ** The skip report *)

Lemma logExtends_refl st : logExtends st st.
Proof. exists []. now rewrite app_nil_r. Qed.

Lemma logExtends_trans st1 st2 st3 :
  logExtends st1 st2 -> logExtends st2 st3 -> logExtends st1 st3.
Proof.
  intros [m1 E1] [m2 E2]. exists (m1 ++ m2)%list. now rewrite E2, E1, app_assoc.
Qed.

Lemma logExtends_report st e : logExtends st (report st e).
Proof. now exists [e]. Qed.

Lemma logExtends_In st st' e :
  logExtends st st' -> In e (events st) -> In e (events st').
Proof. intros [more ->] I. apply in_or_app. now left. Qed.

Create HintDb skema.
#[local] Hint Resolve logExtends_refl logExtends_report : skema.

Ltac log_chain :=
  repeat first
    [ apply logExtends_refl
    | apply logExtends_report
    | eapply logExtends_trans; [|apply logExtends_report] ].

Lemma command_logExtends commandName active exitCode st st' :
  command commandName active exitCode st = Ok st' -> logExtends st st'.
Proof.
  unfold command. destruct active; simpl.
  - destruct (Nat.eqb exitCode 0); simpl; [|discriminate].
    intros E; injection E as <-. auto with skema.
  - intros E; injection E as <-. auto with skema.
Qed.

Lemma mapPush_new group route result :
  exists rs, In (group, rs) (mapPush group route result) /\ In route rs.
Proof.
  induction result as [|[g rs] rest IH]; cbn [mapPush].
  - exists [route]. split; now left.
  - destruct (String.eqb g group) eqn:E.
    + apply String.eqb_eq in E as ->. exists (rs ++ [route])%list.
      split; [now left | apply in_or_app; right; now left].
    + destruct IH as (rs' & I & J). exists rs'. split; [now right | exact J].
Qed.

Lemma mapPush_keeps group route result g rs r :
  In (g, rs) result -> In r rs ->
  exists rs', In (g, rs') (mapPush group route result) /\ In r rs'.
Proof.
  induction result as [|[g0 rs0] rest IH]; intros I J; [destruct I|].
  cbn [mapPush]. destruct (String.eqb g0 group) eqn:E.
  - destruct I as [I|I].
    + injection I as -> ->. exists (rs ++ [route])%list.
      split; [now left | apply in_or_app; now left].
    + exists rs. split; [now right | exact J].
  - destruct I as [I|I].
    + injection I as -> ->. exists rs. split; [now left | exact J].
    + destruct (IH I J) as (rs' & I' & J'). exists rs'. split; [now right | exact J'].
Qed.

(** Every route of the router is in one of the groups. *)
Lemma groupRoutes_covers rawConfig routerRoutes routes route :
  groupRoutes rawConfig routerRoutes = Ok routes ->
  In route routerRoutes ->
  exists group rs, In (group, rs) routes /\ In route rs.
Proof.
  unfold groupRoutes. destruct rawConfig as [config|]; [|discriminate].
  intros E; injection E as <-. intros I.
  assert (G : forall l acc,
             In route l \/ (exists g rs, In (g, rs) acc /\ In route rs) ->
             exists g rs,
               In (g, rs)
                  (fold_left
                     (fun result r => mapPush (groupOf config (pattern r)) r result) l acc)
               /\ In route rs).
  { induction l as [|r l IH]; intros acc [H|H]; cbn [fold_left].
    - destruct H.
    - exact H.
    - apply IH. destruct H as [->|H]; [right | now left].
      destruct (mapPush_new (groupOf config (pattern route)) route acc) as (rs & K & J).
      now exists (groupOf config (pattern route)), rs.
    - apply IH. right. destruct H as (g & rs & K & J).
      destruct (mapPush_keeps (groupOf config (pattern r)) r acc g rs route K J)
        as (rs' & K' & J').
      now exists g, rs'. }
  apply G. now left.
Qed.

Section SkipReport.

Variable host : Host.
Variable sourcesFiles : list TsMorph.SourceFile.

Lemma draftRoute_method group route moduleNameOrPath sf draft :
  draftRoute host group route moduleNameOrPath sf = Ok draft ->
  method draft = getMethod (methods route).
Proof.
  unfold draftRoute.
  destruct (deriveName host _ _) as [nm|e]; simpl; [|discriminate].
  destruct (rewritePath _) as [p|e]; simpl; [|discriminate].
  intros H; now injection H as <-.
Qed.

Lemma routeStep_logExtends group st route st' :
  routeStep host sourcesFiles group st route = Ok st' -> logExtends st st'.
Proof.
  unfold routeStep.
  destruct (handler route) as [|reference].
  { intros E; injection E as <-. log_chain. }
  destruct (findSourceFile sourcesFiles (parseBindingReference host reference)) as [sf|].
  2:{ intros E; injection E as <-. log_chain. }
  destruct (draftRoute host group route (parseBindingReference host reference) sf)
    as [draft|e]; cbn [bind]; [|discriminate].
  destruct (checkCollisions _ draft) as [[]|e]; cbn [bind]; [|discriminate].
  destruct (validateController sf) as [message|b]; intros E; injection E as <-.
  - log_chain.
  - eapply logExtends_trans; [|apply logExtends_report].
    eapply logExtends_trans; [|apply logExtends_refl].
    change (logExtends st (report (report st (Succeeded (parsingRouteAction group route)))
                                  (Succeeded (validatingRouteAction route (setForm draft b))))).
    log_chain.
Qed.

Lemma routes_logExtends group routes : forall st st',
  foldM (routeStep host sourcesFiles group) st routes = Ok st' -> logExtends st st'.
Proof.
  induction routes as [|r routes IH]; intros st st'; cbn [foldM].
  - intros E; injection E as <-. apply logExtends_refl.
  - destruct (routeStep host sourcesFiles group st r) as [st1|e] eqn:S; cbn [bind];
      [|discriminate].
    intros F. eapply logExtends_trans; [exact (routeStep_logExtends _ _ _ _ S) | now apply IH].
Qed.

Lemma groupStep_logExtends st entry st' :
  groupStep host sourcesFiles st entry = Ok st' -> logExtends st st'.
Proof.
  destruct entry as [group routes]. unfold groupStep.
  destruct (foldM (routeStep host sourcesFiles group) (beginGroup st) routes)
    as [st1|e] eqn:L; cbn [bind]; [|discriminate].
  intros E; injection E as <-. apply routes_logExtends in L.
  destruct L as [more L]. cbn [beginGroup events] in L.
  exists (more ++ [Succeeded ("Parsing group " ++ quote ++ group ++ quote);
                   Succeeded ("Writing group " ++ quote ++ group ++ quote)])%list.
  cbn [report saveFile events]. rewrite L, <- !app_assoc. reflexivity.
Qed.

Lemma parseRoutes_logExtends routes : forall st st',
  parseRoutes host sourcesFiles st routes = Ok st' -> logExtends st st'.
Proof.
  unfold parseRoutes. induction routes as [|g routes IH]; intros st st'; cbn [foldM].
  - intros E; injection E as <-. apply logExtends_refl.
  - destruct (groupStep host sourcesFiles st g) as [st1|e] eqn:S; cbn [bind];
      [|discriminate].
    intros F. eapply logExtends_trans; [exact (groupStep_logExtends _ _ _ S) | now apply IH].
Qed.

(** A step that does not throw, on a route whose controller lacks
    [handle], has reported the skip. *)
Lemma routeStep_reports_missing_handle group st route reference sf st' :
  handler route = HandlerReference reference ->
  findSourceFile sourcesFiles (parseBindingReference host reference) = Some sf ->
  lacksHandle sf = true ->
  routeStep host sourcesFiles group st route = Ok st' ->
  In (missingHandleReport route) (events st').
Proof.
  intros H F L. unfold routeStep. rewrite H, F.
  destruct (draftRoute host group route (parseBindingReference host reference) sf)
    as [draft|e] eqn:D; cbn [bind]; [|discriminate].
  destruct (checkCollisions _ draft) as [[]|e]; cbn [bind]; [|discriminate].
  rewrite (lacksHandle_skips _ L). intros E; injection E as <-.
  cbn [report events]. apply in_or_app. right. left.
  unfold missingHandleReport, validatingRouteName, validatingRouteAction.
  now rewrite (draftRoute_method _ _ _ _ _ D).
Qed.

Lemma routes_report_missing_handle group route reference sf routes : forall st st',
  handler route = HandlerReference reference ->
  findSourceFile sourcesFiles (parseBindingReference host reference) = Some sf ->
  lacksHandle sf = true ->
  In route routes ->
  foldM (routeStep host sourcesFiles group) st routes = Ok st' ->
  In (missingHandleReport route) (events st').
Proof.
  induction routes as [|r routes IH]; intros st st' H F L I; [destruct I|].
  cbn [foldM].
  destruct (routeStep host sourcesFiles group st r) as [st1|e] eqn:S; cbn [bind];
    [|discriminate].
  intros R. destruct I as [->|I].
  - apply (logExtends_In st1); [now apply (routes_logExtends group routes)|].
    exact (routeStep_reports_missing_handle _ _ _ _ _ _ H F L S).
  - exact (IH _ _ H F L I R).
Qed.

Lemma parseRoutes_report_missing_handle route reference sf group rs routes : forall st st',
  handler route = HandlerReference reference ->
  findSourceFile sourcesFiles (parseBindingReference host reference) = Some sf ->
  lacksHandle sf = true ->
  In (group, rs) routes -> In route rs ->
  parseRoutes host sourcesFiles st routes = Ok st' ->
  In (missingHandleReport route) (events st').
Proof.
  unfold parseRoutes.
  induction routes as [|g routes IH]; intros st st' H F L I J; [destruct I|].
  cbn [foldM].
  destruct (groupStep host sourcesFiles st g) as [st1|e] eqn:S; cbn [bind]; [|discriminate].
  intros R. destruct I as [->|I].
  - apply (logExtends_In st1); [now apply (parseRoutes_logExtends routes)|].
    unfold groupStep in S.
    destruct (foldM (routeStep host sourcesFiles group) (beginGroup st) rs)
      as [st2|e] eqn:P; cbn [bind] in S; [|discriminate].
    injection S as <-. cbn [report saveFile events].
    apply in_or_app; left. apply in_or_app; left.
    exact (routes_report_missing_handle _ _ _ _ _ _ _ H F L J P).
  - exact (IH _ _ H F L I J R).
Qed.

Lemma run_reports_missing_handle tools rawConfig routerRoutes st route reference sf :
  run host sourcesFiles tools rawConfig routerRoutes = Ok st ->
  In route routerRoutes ->
  handler route = HandlerReference reference ->
  findSourceFile sourcesFiles (parseBindingReference host reference) = Some sf ->
  lacksHandle sf = true ->
  In (missingHandleReport route) (events st).
Proof.
  rewrite run_unfold. intros R I H F L.
  destruct (groupRoutes rawConfig routerRoutes) as [routes|e] eqn:G; cbn [bind] in R;
    [|discriminate].
  destruct (beforeParsing tools) as [st5|e]; cbn [bind] in R; [|discriminate].
  destruct (parseRoutes host sourcesFiles st5 routes) as [st6|e] eqn:P; cbn [bind] in R;
    [|discriminate].
  destruct (groupRoutes_covers _ _ _ _ G I) as (group & rs & K & J).
  pose proof (parseRoutes_report_missing_handle _ _ _ _ _ _ _ _ H F L K J P) as Q.
  unfold afterParsing in R.
  destruct (command "Formatting client file" _ _ _) as [st8|e] eqn:C; cbn [bind] in R;
    [|discriminate].
  injection R as <-.
  apply (logExtends_In st6); [|exact Q].
  eapply logExtends_trans; [apply logExtends_report|].
  eapply logExtends_trans; [exact (command_logExtends _ _ _ _ _ C) | apply logExtends_report].
Qed.

End SkipReport.



(** ** Collisions, skips and their order *)



(** C10.  The collision checks come before the validation of the
    controller: when the draft of a route collides with an accepted
    route, the route step throws the collision error without looking
    at the controller, and the whole run dies of that error, although
    the same route, with a controller that fails validation, is merely
    skipped wherever its draft does not collide. *)
Theorem collision_checked_before_validation
        (host : Host) (sourcesFiles : list TsMorph.SourceFile)
        (group : string) (st : RunState) (route : RouteJSON)
        (reference : string) (sf : TsMorph.SourceFile) (draft : ParsedRoute) :
  handler route = HandlerReference reference ->
  findSourceFile sourcesFiles (parseBindingReference host reference) = Some sf ->
  draftRoute host group route (parseBindingReference host reference) sf = Ok draft ->
  collides draft (allParsedRoutes st) ->
  exists e,
    isCollision e = true
    /\ routeStep host sourcesFiles group st route = Throw e
    /\ (forall tools rawConfig routerRoutes groupsBefore st5 st0 before after groupsAfter,
           groupRoutes rawConfig routerRoutes
           = Ok (groupsBefore ++ (group, (before ++ route :: after)%list) :: groupsAfter)%list ->
           beforeParsing tools = Ok st5 ->
           parseRoutes host sourcesFiles st5 groupsBefore = Ok st0 ->
           foldM (routeStep host sourcesFiles group) (beginGroup st0) before = Ok st ->
           run host sourcesFiles tools rawConfig routerRoutes = Throw e)
    /\ (forall other message,
           validateController sf = Skip message ->
           ~ collides draft (allParsedRoutes other) ->
           routeStep host sourcesFiles group other route
           = Ok (report (report other (Succeeded (parsingRouteAction group route)))
                        (Skipped (validatingRouteAction route draft) message))).
Proof.
  intros H F D C.
  destruct (routeStep_collision host sourcesFiles group st route reference sf draft H F D C)
    as (e & I & T).
  exists e. split; [exact I|]. split; [exact T|]. split.
  - intros tools rawConfig routerRoutes groupsBefore st5 st0 before after groupsAfter G B P L.
    exact (run_aborts host sourcesFiles tools rawConfig routerRoutes groupsBefore st5 st0
                      group before st route after groupsAfter e G B P L T).
  - intros other message V N.
    exact (routeStep_skip host sourcesFiles group other route reference sf draft message
                          H F D N V).
Qed.

Lemma collision_checked_before_validation_witness :
  handler Sample.createUser = HandlerReference "#controllers/admin/users_controller"
  /\ findSourceFile SampleRun.sources "#controllers/admin/users_controller"
     = Some Sample.adminUsersController
  /\ draftRoute Sample.host "internal" Sample.createUser
                "#controllers/admin/users_controller" Sample.adminUsersController
     = Ok SampleRun.createUserDraft
  /\ collides SampleRun.createUserDraft (allParsedRoutes SampleRun.afterListUsers)
  /\ validateController Sample.adminUsersController = Skip handleMissingMessage
  /\ exists e,
      isCollision e = true
      /\ run Sample.host SampleRun.sources Sample.tools (Some Sample.config)
             [Sample.listUsers; Sample.createUser] = Throw e.
Proof.
  assert (C : collides SampleRun.createUserDraft
                       (allParsedRoutes SampleRun.afterListUsers)).
  { eexists. split; [left; reflexivity | left; reflexivity]. }
  split; [reflexivity|]. split; [reflexivity|]. split; [reflexivity|]. split; [exact C|].
  split; [reflexivity|].
  destruct (collision_checked_before_validation
              Sample.host SampleRun.sources "internal" SampleRun.afterListUsers
              Sample.createUser "#controllers/admin/users_controller"
              Sample.adminUsersController SampleRun.createUserDraft
              eq_refl eq_refl eq_refl C) as (e & I & _ & R & _).
  exists e. split; [exact I|].
  apply (R Sample.tools (Some Sample.config) [Sample.listUsers; Sample.createUser]
           [] (match beforeParsing Sample.tools with Ok s => s | Throw _ => emptyState end)
           (match beforeParsing Sample.tools with Ok s => s | Throw _ => emptyState end)
           [Sample.listUsers] [] []); vm_compute; reflexivity.
Defined.

(** C9, amended.  A route that reaches validation, its draft built and
    free of collisions, and whose default-exported controller class
    has no [handle] member is skipped: the step succeeds, reports the
    skip with its reason and leaves the accepted routes and the
    written files as they were.  And in every run that completes, each
    route of the router whose controller lacks [handle] is in the skip
    report, and no written route has a controller without [handle]. *)
Theorem missing_handle_is_skipped
        (host : Host) (sourcesFiles : list TsMorph.SourceFile) :
  (forall group st route reference sf draft,
      handler route = HandlerReference reference ->
      findSourceFile sourcesFiles (parseBindingReference host reference) = Some sf ->
      draftRoute host group route (parseBindingReference host reference) sf = Ok draft ->
      ~ collides draft (allParsedRoutes st) ->
      lacksHandle sf = true ->
      exists st',
        routeStep host sourcesFiles group st route = Ok st'
        /\ allParsedRoutes st' = allParsedRoutes st
        /\ parsedRoutes st' = parsedRoutes st
        /\ files st' = files st
        /\ events st'
           = (events st ++ [Succeeded (parsingRouteAction group route);
                            missingHandleReport route])%list)
  /\ (forall tools rawConfig routerRoutes st,
         run host sourcesFiles tools rawConfig routerRoutes = Ok st ->
         (forall route reference sf,
             In route routerRoutes ->
             handler route = HandlerReference reference ->
             findSourceFile sourcesFiles (parseBindingReference host reference) = Some sf ->
             lacksHandle sf = true ->
             In (missingHandleReport route) (events st))
         /\ (forall r, In r (emittedRoutes st) ->
                       exists sf, findSourceFile sourcesFiles (controllerPath r) = Some sf
                                  /\ lacksHandle sf = false)).
Proof.
  split.
  - intros group st route reference sf draft H F D N L.
    eexists. split.
    + apply (routeStep_skip host sourcesFiles group st route reference sf draft
                            handleMissingMessage H F D N).
      now apply lacksHandle_skips.
    + cbn [report allParsedRoutes parsedRoutes files events].
      repeat split. rewrite <- app_assoc.
      unfold missingHandleReport, validatingRouteName, validatingRouteAction.
      now rewrite (draftRoute_method host _ _ _ _ _ D).
  - intros tools rawConfig routerRoutes st R. split.
    + intros route reference sf I H F L.
      exact (run_reports_missing_handle host sourcesFiles tools rawConfig routerRoutes
                                        st route reference sf R I H F L).
    + intros r I. apply run_betweenGroups in R as (_ & E & A).
      rewrite E in I. rewrite Forall_forall in A. exact (A r I).
Qed.

Lemma missing_handle_is_skipped_witness :
  handler Sample.createUser = HandlerReference "#controllers/admin/users_controller"
  /\ findSourceFile SampleRun.sources "#controllers/admin/users_controller"
     = Some Sample.adminUsersController
  /\ draftRoute Sample.host "internal" Sample.createUser
                "#controllers/admin/users_controller" Sample.adminUsersController
     = Ok SampleRun.createUserDraft
  /\ ~ collides SampleRun.createUserDraft (allParsedRoutes emptyState)
  /\ lacksHandle Sample.adminUsersController = true
  /\ (exists st',
        routeStep Sample.host SampleRun.sources "internal" emptyState Sample.createUser
        = Ok st'
        /\ allParsedRoutes st' = []
        /\ events st'
           = [Succeeded (parsingRouteAction "internal" Sample.createUser);
              missingHandleReport Sample.createUser])
  /\ (exists st,
        run Sample.host SampleRun.sources Sample.tools (Some Sample.config)
            [Sample.createUser; Sample.listUsers] = Ok st
        /\ In (missingHandleReport Sample.createUser) (events st)).
Proof.
  assert (N : ~ collides SampleRun.createUserDraft (allParsedRoutes emptyState)).
  { intros (r & [] & _). }
  split; [reflexivity|]. split; [reflexivity|]. split; [reflexivity|]. split; [exact N|].
  split; [reflexivity|]. split.
  - destruct (proj1 (missing_handle_is_skipped Sample.host SampleRun.sources)
                    "internal" emptyState Sample.createUser
                    "#controllers/admin/users_controller" Sample.adminUsersController
                    SampleRun.createUserDraft eq_refl eq_refl eq_refl N eq_refl)
      as (st' & S & A & _ & _ & E).
    exists st'. split; [exact S|]. split; [exact A | exact E].
  - eexists. split; [vm_compute; reflexivity|].
    apply (proj1 (proj2 (missing_handle_is_skipped Sample.host SampleRun.sources)
                        Sample.tools (Some Sample.config)
                        [Sample.createUser; Sample.listUsers] _ ltac:(vm_compute; reflexivity))
                 Sample.createUser "#controllers/admin/users_controller"
                 Sample.adminUsersController);
      [now left | reflexivity | reflexivity | reflexivity].
Defined.

(** C9 as stated fails: the controller of [Sample.createUser] has no
    [handle] member, yet the run over [listUsers; createUser] does not
    skip that route and go on; it dies of the key collision between
    the two routes. *)
Lemma missing_handle_route_aborts_run :
  handler Sample.createUser = HandlerReference "#controllers/admin/users_controller"
  /\ findSourceFile SampleRun.sources "#controllers/admin/users_controller"
     = Some Sample.adminUsersController
  /\ lacksHandle Sample.adminUsersController = true
  /\ exists registered,
      run Sample.host SampleRun.sources Sample.tools (Some Sample.config)
          [Sample.listUsers; Sample.createUser]
      = Throw (KeyAlreadyRegistered SampleRun.createUserDraft registered).
Proof.
  split; [reflexivity|]. split; [reflexivity|]. split; [reflexivity|].
  eexists. vm_compute. reflexivity.
Qed.

(* ================================================================== *)
(** * Part IV: further properties of the code *)
(* ================================================================== *)

(** ** Grouping *)

Lemma firstOccurrences_In xs x : In x (firstOccurrences xs) <-> In x xs.
Proof.
  induction xs as [|y xs IH]; simpl; [tauto|].
  rewrite filter_In, IH, negb_true_iff, String.eqb_neq.
  destruct (String.eqb_spec x y) as [->|N]; [tauto|].
  split; [tauto|]. intros [E|I]; [congruence | right; split; [exact I | exact N]].
Qed.

Lemma firstOccurrences_NoDup xs : NoDup (firstOccurrences xs).
Proof.
  induction xs as [|y xs IH]; simpl; constructor.
  - rewrite filter_In, String.eqb_refl. intros [_ H]. discriminate.
  - now apply NoDup_filter.
Qed.

Lemma firstOccurrences_snoc xs x :
  firstOccurrences (xs ++ [x])
  = if existsb (String.eqb x) (firstOccurrences xs)
    then firstOccurrences xs
    else (firstOccurrences xs ++ [x])%list.
Proof.
  rewrite <- !newSet_firstOccurrences. unfold newSet.
  now rewrite fold_left_app.
Qed.

Lemma existsb_eqb_In x xs : existsb (String.eqb x) xs = true <-> In x xs.
Proof.
  rewrite existsb_exists. split.
  - intros (y & I & E). apply String.eqb_eq in E. now subst.
  - intros I. exists x. split; [exact I | apply String.eqb_refl].
Qed.

Lemma mapPush_absent group route (F : string -> list RouteJSON) ks :
  ~ In group ks ->
  mapPush group route (map (fun g => (g, F g)) ks)
  = (map (fun g => (g, F g)) ks ++ [(group, [route])])%list.
Proof.
  induction ks as [|k ks IH]; intros N; cbn [map mapPush app]; [reflexivity|].
  destruct (String.eqb_spec k group) as [->|D].
  - exfalso. apply N. now left.
  - rewrite IH; [reflexivity|]. intros I. apply N. now right.
Qed.

Lemma mapPush_present group route (F G : string -> list RouteJSON) ks :
  NoDup ks -> In group ks ->
  G group = (F group ++ [route])%list ->
  (forall g, g <> group -> G g = F g) ->
  mapPush group route (map (fun g => (g, F g)) ks) = map (fun g => (g, G g)) ks.
Proof.
  intros ND I Hg Ho. induction ks as [|k ks IH]; [destruct I|].
  cbn [map mapPush]. inversion ND as [|? ? Nk NDk]; subst.
  destruct (String.eqb_spec k group) as [->|D].
  - rewrite Hg. f_equal. apply map_ext_in. intros g Ig.
    rewrite Ho; [reflexivity|]. intros ->. contradiction.
  - rewrite (Ho k D). f_equal. apply IH; [exact NDk|].
    destruct I as [E|I]; [contradiction | exact I].
Qed.

Lemma filter_none {A} (f : A -> bool) (l : list A) :
  (forall x, In x l -> f x = false) -> filter f l = [].
Proof.
  induction l as [|x l IH]; intros H; simpl; [reflexivity|].
  rewrite (H x (or_introl eq_refl)). apply IH. intros y I. apply H. now right.
Qed.

Lemma groupRoutes_fold config routes :
  fold_left (fun result route => mapPush (groupOf config (pattern route)) route result)
            routes []
  = groupedAs config routes.
Proof.
  induction routes as [|r routes IH] using rev_ind; [reflexivity|].
  rewrite fold_left_app. cbn [fold_left]. rewrite IH. unfold groupedAs.
  rewrite map_app. cbn [map]. rewrite firstOccurrences_snoc.
  fold (routeGroup config r).
  set (ks := firstOccurrences (map (routeGroup config) routes)).
  destruct (existsb (String.eqb (routeGroup config r)) ks) eqn:M.
  - apply existsb_eqb_In in M.
    apply mapPush_present; [apply firstOccurrences_NoDup | exact M | |].
    + rewrite filter_app. cbn [filter]. now rewrite String.eqb_refl.
    + intros g D. rewrite filter_app. cbn [filter].
      destruct (String.eqb_spec (routeGroup config r) g) as [E|_]; [congruence|].
      now rewrite app_nil_r.
  - assert (N : ~ In (routeGroup config r) ks).
    { intros I. apply existsb_eqb_In in I. congruence. }
    rewrite (mapPush_absent _ _ _ _ N). rewrite map_app. cbn [map]. f_equal.
    + apply map_ext_in. intros g Ig. f_equal. rewrite filter_app. cbn [filter].
      destruct (String.eqb_spec (routeGroup config r) g) as [E|_];
        [subst g; contradiction | now rewrite app_nil_r].
    + do 2 f_equal. rewrite filter_app. cbn [filter]. rewrite String.eqb_refl.
      rewrite filter_none; [reflexivity|]. intros x I.
      apply String.eqb_neq. intros E. apply N. unfold ks.
      apply firstOccurrences_In, in_map_iff. now exists x.
Qed.

Lemma groupedAs_keys config routes :
  map fst (groupedAs config routes) = firstOccurrences (map (routeGroup config) routes).
Proof.
  unfold groupedAs. rewrite map_map. cbn [fst]. apply map_id.
Qed.

Lemma groupedAs_In config routes group rs :
  In (group, rs) (groupedAs config routes) ->
  rs = filter (fun r => String.eqb (routeGroup config r) group) routes
  /\ exists route, In route routes /\ routeGroup config route = group.
Proof.
  unfold groupedAs. intros I. apply in_map_iff in I as (g & E & I).
  injection E as -> <-. split; [reflexivity|].
  apply firstOccurrences_In, in_map_iff in I as (route & E & I). now exists route.
Qed.

(** X1.  [#groupRoutes] fails only without a configuration.  With
    one, the groups it returns are the group names in the order in
    which their first route comes in the router, each once, and every
    group holds exactly the routes assigned to it, in the order of the
    router; no group is empty. *)
Theorem groupRoutes_partitions (config : FinesConfig) (routes : list RouteJSON) :
  groupRoutes None routes = Throw InvalidConfigFile
  /\ groupRoutes (Some config) routes = Ok (groupedAs config routes)
  /\ NoDup (map fst (groupedAs config routes))
  /\ (forall group rs,
         In (group, rs) (groupedAs config routes) ->
         rs <> []
         /\ rs = filter (fun r => String.eqb (routeGroup config r) group) routes).
Proof.
  split; [reflexivity|]. split.
  - unfold groupRoutes. now rewrite groupRoutes_fold.
  - split.
    + rewrite groupedAs_keys. apply firstOccurrences_NoDup.
    + intros group rs I. apply groupedAs_In in I as (-> & route & I & E).
      split; [|reflexivity]. intros F.
      assert (J : In route (filter (fun r => String.eqb (routeGroup config r) group) routes)).
      { apply filter_In. split; [exact I | now apply String.eqb_eq]. }
      rewrite F in J. destruct J.
Qed.

Lemma groupRoutes_partitions_witness :
  let routes := [Sample.listUsers; SampleRoutes.apiPing; Sample.showUser] in
  groupRoutes (Some Sample.config) routes
  = Ok [("internal", [Sample.listUsers; Sample.showUser]); ("api", [SampleRoutes.apiPing])]
  /\ [Sample.listUsers; Sample.showUser]
     = filter (fun r => String.eqb (routeGroup Sample.config r) "internal") routes.
Proof.
  intros routes. split; [reflexivity|].
  apply (proj2 (proj2 (proj2 (groupRoutes_partitions Sample.config routes)))
               "internal" [Sample.listUsers; Sample.showUser]).
  left. reflexivity.
Defined.

(** ** The run, taken apart *)

Lemma run_inversion host sourcesFiles tools rawConfig routerRoutes st :
  run host sourcesFiles tools rawConfig routerRoutes = Ok st ->
  exists config st5 st6,
    rawConfig = Some config
    /\ beforeParsing tools = Ok st5
    /\ parseRoutes host sourcesFiles st5 (groupedAs config routerRoutes) = Ok st6
    /\ afterParsing tools st6 = Ok st.
Proof.
  rewrite run_unfold. destruct rawConfig as [config|]; [|discriminate].
  unfold groupRoutes. rewrite groupRoutes_fold. cbn [bind].
  destruct (beforeParsing tools) as [st5|e]; cbn [bind]; [|discriminate].
  destruct (parseRoutes host sourcesFiles st5 _) as [st6|e] eqn:P; cbn [bind]; [|discriminate].
  intros A. now exists config, st5, st6.
Qed.

Lemma command_cases commandName active exitCode st :
  command commandName active exitCode st
  = if active
    then if Nat.eqb exitCode 0 then Ok (report st (Succeeded commandName))
         else Throw (ProcessExit commandName)
    else Ok st.
Proof. unfold command. destruct active, (Nat.eqb exitCode 0); reflexivity. Qed.

Lemma command_ok commandName active exitCode st st' :
  command commandName active exitCode st = Ok st' ->
  (active = true -> exitCode = 0)
  /\ allParsedRoutes st' = allParsedRoutes st
  /\ parsedRoutes st' = parsedRoutes st
  /\ files st' = files st
  /\ skippedCount (events st') = skippedCount (events st).
Proof.
  rewrite command_cases. destruct active.
  - destruct (Nat.eqb_spec exitCode 0) as [->|N]; [|discriminate].
    intros E; injection E as <-. repeat split.
    cbn [report events]. unfold skippedCount. rewrite filter_app. cbn [filter isSkipped].
    now rewrite app_nil_r.
  - intros E; injection E as <-. repeat split. discriminate.
Qed.

Lemma skippedCount_snoc es e :
  skippedCount (es ++ [e]) = skippedCount es + (if isSkipped e then 1 else 0).
Proof.
  unfold skippedCount. rewrite filter_app, length_app. cbn [filter].
  destruct (isSkipped e); reflexivity.
Qed.

Lemma beforeParsing_ok tools st5 :
  beforeParsing tools = Ok st5 ->
  (formatting tools = true -> prettierExit tools = 0)
  /\ (typechecking tools = true -> tscExit tools = 0)
  /\ (linting tools = true -> eslintExit tools = 0)
  /\ allParsedRoutes st5 = [] /\ files st5 = []
  /\ skippedCount (events st5) = 0.
Proof.
  unfold beforeParsing.
  destruct (command "Formatting files" _ _ _) as [st2|e] eqn:C2; cbn [bind]; [|discriminate].
  destruct (command "Typechecking" _ _ st2) as [st3|e] eqn:C3; cbn [bind]; [|discriminate].
  destruct (command "Linting" _ _ st3) as [st4|e] eqn:C4; cbn [bind]; [|discriminate].
  intros E; injection E as <-.
  apply command_ok in C2 as (T2 & A2 & _ & F2 & S2).
  apply command_ok in C3 as (T3 & A3 & _ & F3 & S3).
  apply command_ok in C4 as (T4 & A4 & _ & F4 & S4).
  cbn [report allParsedRoutes files events]. rewrite skippedCount_snoc. cbn [isSkipped].
  rewrite A4, A3, A2, F4, F3, F2, S4, S3, S2. repeat split; assumption || reflexivity.
Qed.

Lemma afterParsing_ok tools st6 st :
  afterParsing tools st6 = Ok st ->
  (formatting tools = true -> prettierClientExit tools = 0)
  /\ allParsedRoutes st = allParsedRoutes st6
  /\ files st = files st6
  /\ skippedCount (events st) = skippedCount (events st6).
Proof.
  unfold afterParsing.
  destruct (command "Formatting client file" _ _ _) as [st8|e] eqn:C; cbn [bind];
    [|discriminate].
  intros E; injection E as <-. apply command_ok in C as (T & A & _ & F & S).
  cbn [report allParsedRoutes files events] in *.
  rewrite !skippedCount_snoc in *. cbn [isSkipped] in *.
  repeat split; try assumption. lia.
Qed.

(** ** Tools *)

Lemma beforeParsing_fails tools name :
  firstFailingTool tools = Some name ->
  beforeParsing tools = Throw (ProcessExit name).
Proof.
  unfold firstFailingTool, beforeParsing, command.
  destruct (formatting tools), (Nat.eqb (prettierExit tools) 0),
    (typechecking tools), (Nat.eqb (tscExit tools) 0),
    (linting tools), (Nat.eqb (eslintExit tools) 0);
    cbn [andb negb bind]; intros E; try discriminate E; now injection E as <-.
Qed.

(** X2.  A run that completes had a configuration, and every tool that
    is switched on exited with code 0; and with a configuration, the
    first tool before the route loop that is switched on and exits
    with another code ends the run with [ProcessExit], whatever the
    routes and the source files are. *)
Theorem tools_gate_the_run
        (host : Host) (sourcesFiles : list TsMorph.SourceFile) (tools : Tools)
        (rawConfig : option FinesConfig) (routerRoutes : list RouteJSON) :
  (forall st,
      run host sourcesFiles tools rawConfig routerRoutes = Ok st ->
      rawConfig <> None
      /\ firstFailingTool tools = None
      /\ (formatting tools = true -> prettierExit tools = 0 /\ prettierClientExit tools = 0)
      /\ (typechecking tools = true -> tscExit tools = 0)
      /\ (linting tools = true -> eslintExit tools = 0))
  /\ (forall config name,
         rawConfig = Some config ->
         firstFailingTool tools = Some name ->
         run host sourcesFiles tools rawConfig routerRoutes = Throw (ProcessExit name)).
Proof.
  split.
  - intros st R. apply run_inversion in R as (config & st5 & st6 & -> & B & _ & A).
    apply beforeParsing_ok in B as (F & T & L & _). apply afterParsing_ok in A as (C & _).
    split; [discriminate|]. split; [|tauto].
    unfold firstFailingTool.
    destruct (formatting tools); cbn [andb].
    { rewrite (F eq_refl). cbn [Nat.eqb negb].
      destruct (typechecking tools); cbn [andb].
      { rewrite (T eq_refl). cbn [Nat.eqb negb].
        destruct (linting tools); cbn [andb]; [|reflexivity]. now rewrite (L eq_refl). }
      destruct (linting tools); cbn [andb]; [|reflexivity]. now rewrite (L eq_refl). }
    destruct (typechecking tools); cbn [andb].
    { rewrite (T eq_refl). cbn [Nat.eqb negb].
      destruct (linting tools); cbn [andb]; [|reflexivity]. now rewrite (L eq_refl). }
    destruct (linting tools); cbn [andb]; [|reflexivity]. now rewrite (L eq_refl).
  - intros config name -> F. rewrite run_unfold.
    unfold groupRoutes. cbn [bind]. now rewrite (beforeParsing_fails _ _ F).
Qed.

Lemma tools_gate_the_run_witness :
  let failing :=
    {| formatting := true; typechecking := true; linting := true;
       prettierExit := 0; tscExit := 2; eslintExit := 1; prettierClientExit := 0 |} in
  (exists st,
      run Sample.host SampleRun.sources Sample.tools (Some Sample.config)
          [Sample.listUsers] = Ok st
      /\ firstFailingTool Sample.tools = None)
  /\ (firstFailingTool failing = Some "Typechecking"
      /\ run Sample.host SampleRun.sources failing (Some Sample.config) [Sample.listUsers]
         = Throw (ProcessExit "Typechecking")).
Proof.
  intros failing. split.
  - eexists. split; [vm_compute; reflexivity|].
    eapply (proj1 (tools_gate_the_run Sample.host SampleRun.sources Sample.tools
                     (Some Sample.config) [Sample.listUsers])).
    vm_compute. reflexivity.
  - split; [reflexivity|].
    exact (proj2 (tools_gate_the_run Sample.host SampleRun.sources failing
                    (Some Sample.config) [Sample.listUsers])
                 Sample.config "Typechecking" eq_refl eq_refl).
Defined.

(** ** Accounting: every route is accepted or skipped *)

Lemma foldM_measure {E St A} (f : St -> A -> Result E St) (m : St -> nat) :
  (forall s a s', f s a = Ok s' -> m s' = 1 + m s) ->
  forall l s s', foldM f s l = Ok s' -> m s' = m s + List.length l.
Proof.
  intros Step. induction l as [|a l IH]; intros s s'; cbn [foldM List.length].
  - intros Q; injection Q as <-. lia.
  - destruct (f s a) as [s1|e] eqn:F; cbn [bind]; [|discriminate].
    intros Q. rewrite (IH _ _ Q), (Step _ _ _ F). lia.
Qed.

Lemma settled_report st e :
  settled (report st e) = settled st + (if isSkipped e then 1 else 0).
Proof.
  unfold settled. cbn [report allParsedRoutes events]. rewrite skippedCount_snoc. lia.
Qed.

Lemma routeStep_settles host sourcesFiles group st route st' :
  routeStep host sourcesFiles group st route = Ok st' ->
  settled st' = 1 + settled st.
Proof.
  unfold routeStep.
  destruct (handler route) as [|reference].
  { intros E; injection E as <-. rewrite settled_report. cbn [isSkipped]. lia. }
  destruct (findSourceFile sourcesFiles (parseBindingReference host reference)) as [sf|].
  2:{ intros E; injection E as <-. rewrite settled_report. cbn [isSkipped]. lia. }
  destruct (draftRoute host group route (parseBindingReference host reference) sf)
    as [draft|e]; cbn [bind]; [|discriminate].
  destruct (checkCollisions _ draft) as [[]|e]; cbn [bind]; [|discriminate].
  destruct (validateController sf) as [message|b]; intros E; injection E as <-.
  - rewrite !settled_report. cbn [isSkipped]. lia.
  - rewrite settled_report. cbn [isSkipped].
    unfold settled. cbn [pushRoute report allParsedRoutes events].
    rewrite length_app, !skippedCount_snoc. cbn [isSkipped List.length]. lia.
Qed.

Lemma groupStep_settles host sourcesFiles st entry st' :
  groupStep host sourcesFiles st entry = Ok st' ->
  settled st' = settled st + List.length (snd entry).
Proof.
  destruct entry as [group routes]. unfold groupStep.
  destruct (foldM (routeStep host sourcesFiles group) (beginGroup st) routes)
    as [st1|e] eqn:L; cbn [bind]; [|discriminate].
  intros E; injection E as <-.
  apply (foldM_measure _ settled (routeStep_settles host sourcesFiles group)) in L.
  unfold settled in *. cbn [report saveFile beginGroup allParsedRoutes events snd] in *.
  rewrite !skippedCount_snoc. cbn [isSkipped]. lia.
Qed.

Lemma parseRoutes_settles host sourcesFiles routes : forall st st',
  parseRoutes host sourcesFiles st routes = Ok st' ->
  settled st' = settled st + List.length (concat (map snd routes)).
Proof.
  unfold parseRoutes. induction routes as [|g routes IH]; intros st st'; cbn [foldM].
  - intros E; injection E as <-. cbn. lia.
  - destruct (groupStep host sourcesFiles st g) as [st1|e] eqn:G; cbn [bind]; [|discriminate].
    intros P. rewrite (IH _ _ P), (groupStep_settles _ _ _ _ _ G).
    cbn [map concat]. rewrite length_app. lia.
Qed.

Lemma mapPush_length group route result :
  List.length (concat (map snd (mapPush group route result)))
  = 1 + List.length (concat (map snd result)).
Proof.
  induction result as [|[g rs] rest IH]; cbn [mapPush]; [reflexivity|].
  destruct (String.eqb g group); cbn [map concat snd].
  - rewrite !length_app. cbn [List.length]. lia.
  - rewrite !length_app, IH. lia.
Qed.

Lemma groupedAs_length config routes :
  List.length (concat (map snd (groupedAs config routes))) = List.length routes.
Proof.
  rewrite <- groupRoutes_fold.
  assert (G : forall l acc,
             List.length
               (concat (map snd
                  (fold_left
                     (fun result r => mapPush (groupOf config (pattern r)) r result) l acc)))
             = List.length (concat (map snd acc)) + List.length l).
  { induction l as [|r l IH]; intros acc; cbn [fold_left List.length]; [lia|].
    rewrite IH, mapPush_length. lia. }
  now rewrite G.
Qed.

(** X3.  In a run that completes every route of the router is settled
    exactly once: the number of routes written to the [routes] mappings
    plus the number of skips in the report is the number of routes. *)
Theorem every_route_written_or_skipped
        (host : Host) (sourcesFiles : list TsMorph.SourceFile) (tools : Tools)
        (rawConfig : option FinesConfig) (routerRoutes : list RouteJSON) (st : RunState) :
  run host sourcesFiles tools rawConfig routerRoutes = Ok st ->
  List.length (emittedRoutes st) + skippedCount (events st) = List.length routerRoutes.
Proof.
  intros R. pose proof (run_betweenGroups _ _ _ _ _ _ R) as (_ & E & _). rewrite E.
  apply run_inversion in R as (config & st5 & st6 & -> & B & P & A).
  apply beforeParsing_ok in B as (_ & _ & _ & A5 & _ & S5).
  apply afterParsing_ok in A as (_ & A6 & _ & S6).
  apply parseRoutes_settles in P. rewrite groupedAs_length in P.
  unfold settled in P. rewrite A5, S5 in P. cbn [List.length] in P.
  rewrite A6, S6. lia.
Qed.

Lemma every_route_written_or_skipped_witness :
  exists st,
    run Sample.host SampleRun.sources Sample.tools (Some Sample.config)
        [Sample.healthCheck; Sample.createUser; Sample.listUsers] = Ok st
    /\ List.length (emittedRoutes st) + skippedCount (events st) = 3.
Proof.
  eexists. split; [vm_compute; reflexivity|].
  apply (every_route_written_or_skipped
           Sample.host SampleRun.sources Sample.tools (Some Sample.config)
           [Sample.healthCheck; Sample.createUser; Sample.listUsers]).
  vm_compute. reflexivity.
Defined.

(** ** Written files *)

Lemma routes_keep_files host sourcesFiles group routes : forall st st',
  foldM (routeStep host sourcesFiles group) st routes = Ok st' -> files st' = files st.
Proof.
  induction routes as [|r routes IH]; intros st st'; cbn [foldM].
  - intros E; now injection E as <-.
  - destruct (routeStep host sourcesFiles group st r) as [st1|e] eqn:S; cbn [bind];
      [|discriminate].
    intros F. rewrite (IH _ _ F). now apply routeStep_ok in S as [-> _].
Qed.

Lemma groupStep_file host sourcesFiles st group routes st' :
  groupStep host sourcesFiles st (group, routes) = Ok st' ->
  exists st1,
    foldM (routeStep host sourcesFiles group) (beginGroup st) routes = Ok st1
    /\ files st' = (files st ++ [writeSchemaFile host group (parsedRoutes st1)])%list.
Proof.
  unfold groupStep.
  destruct (foldM (routeStep host sourcesFiles group) (beginGroup st) routes)
    as [st1|e] eqn:L; cbn [bind]; [|discriminate].
  intros E; injection E as <-. exists st1. split; [reflexivity|].
  cbn [report saveFile files parsedRoutes]. now rewrite (routes_keep_files _ _ _ _ _ _ L).
Qed.




(** ** Routes that are never looked at *)

Lemma groupedAs_covers config routes route :
  In route routes ->
  In (routeGroup config route,
      filter (fun r => String.eqb (routeGroup config r) (routeGroup config route)) routes)
     (groupedAs config routes)
  /\ In route
        (filter (fun r => String.eqb (routeGroup config r) (routeGroup config route)) routes).
Proof.
  intros I. split.
  - unfold groupedAs. apply in_map_iff. exists (routeGroup config route).
    split; [reflexivity|]. apply firstOccurrences_In, in_map_iff. now exists route.
  - apply filter_In. split; [exact I | apply String.eqb_refl].
Qed.

(** What every successful step on a route reports is in the report of
    the run. *)
Lemma parseRoutes_reports host sourcesFiles group route e :
  (forall st st', routeStep host sourcesFiles group st route = Ok st' -> In e (events st')) ->
  forall routes rs st st',
    In (group, rs) routes -> In route rs ->
    parseRoutes host sourcesFiles st routes = Ok st' ->
    In e (events st').
Proof.
  intros Step. unfold parseRoutes.
  induction routes as [|g routes IH]; intros rs st st' I J; [destruct I|].
  cbn [foldM].
  destruct (groupStep host sourcesFiles st g) as [st1|x] eqn:G; cbn [bind]; [|discriminate].
  intros P. destruct I as [->|I]; [|exact (IH _ _ _ I J P)].
  apply (logExtends_In st1); [now apply (parseRoutes_logExtends host sourcesFiles routes)|].
  unfold groupStep in G.
  destruct (foldM (routeStep host sourcesFiles group) (beginGroup st) rs)
    as [st2|x] eqn:L; cbn [bind] in G; [|discriminate].
  injection G as <-. cbn [report saveFile events].
  apply in_or_app; left. apply in_or_app; left.
  clear P IH. revert L. generalize (beginGroup st).
  induction rs as [|r rs IHr]; intros s L; [destruct J|].
  cbn [foldM] in L.
  destruct (routeStep host sourcesFiles group s r) as [s1|x] eqn:S; cbn [bind] in L;
    [|discriminate].
  destruct J as [->|J]; [|exact (IHr J _ L)].
  apply (logExtends_In s1); [now apply (routes_logExtends host sourcesFiles group rs)|].
  exact (Step _ _ S).
Qed.

Lemma run_reports host sourcesFiles tools config routerRoutes st route e :
  (forall s s',
      routeStep host sourcesFiles (routeGroup config route) s route = Ok s' ->
      In e (events s')) ->
  In route routerRoutes ->
  run host sourcesFiles tools (Some config) routerRoutes = Ok st ->
  In e (events st).
Proof.
  intros Step I R. apply run_inversion in R as (c & st5 & st6 & E & _ & P & A).
  injection E as <-.
  destruct (groupedAs_covers config routerRoutes route I) as [G J].
  pose proof (parseRoutes_reports _ _ _ _ _ Step _ _ _ _ G J P) as Q.
  unfold afterParsing in A.
  destruct (command "Formatting client file" _ _ _) as [st8|x] eqn:C; cbn [bind] in A;
    [|discriminate].
  injection A as <-.
  apply (logExtends_In st6); [|exact Q].
  eapply logExtends_trans; [apply logExtends_report|].
  eapply logExtends_trans; [exact (command_logExtends _ _ _ _ _ C) | apply logExtends_report].
Qed.

(** X5.  A route handled by a closure, and a route whose controller
    module is not among the source files of the project, never end the
    run and never reach the accepted routes, whatever their pattern
    is: the step on such a route succeeds and leaves the accepted
    routes alone, and every run that completes lists the route in its
    report as skipped, under its group, with the reason. *)
Theorem unsupported_routes_are_skipped
        (host : Host) (sourcesFiles : list TsMorph.SourceFile)
        (config : FinesConfig) (route : RouteJSON) :
  let skipped :=
    Skipped (parsingRouteAction (routeGroup config route) route)
            (match handler route with
             | HandlerFunction => "We don't support function routes"
             | HandlerReference _ => "We couldn't find the source file"
             end) in
  match handler route with
  | HandlerFunction => True
  | HandlerReference reference =>
      findSourceFile sourcesFiles (parseBindingReference host reference) = None
  end ->
  (forall group st,
      exists st',
        routeStep host sourcesFiles group st route = Ok st'
        /\ allParsedRoutes st' = allParsedRoutes st
        /\ parsedRoutes st' = parsedRoutes st)
  /\ (forall tools routerRoutes st,
         In route routerRoutes ->
         run host sourcesFiles tools (Some config) routerRoutes = Ok st ->
         In skipped (events st)).
Proof.
  intros skipped H. split.
  - intros group st. unfold routeStep.
    destruct (handler route) as [|reference]; [|rewrite H]; eexists; repeat split.
  - intros tools routerRoutes st I R.
    apply (run_reports host sourcesFiles tools config routerRoutes st route skipped);
      try assumption.
    intros s s'. unfold routeStep, skipped.
    destruct (handler route) as [|reference]; [|rewrite H];
      intros E; injection E as <-; cbn [report events]; apply in_or_app; right; now left.
Qed.

Lemma unsupported_routes_are_skipped_witness :
  findSourceFile SampleRun.sources "#controllers/orphans_controller" = None
  /\ exists st,
      run Sample.host SampleRun.sources Sample.tools (Some Sample.config)
          [SampleRoutes.orphan; Sample.healthCheck] = Ok st
      /\ In (Skipped (parsingRouteAction "internal" SampleRoutes.orphan)
                     "We couldn't find the source file") (events st)
      /\ In (Skipped (parsingRouteAction "internal" Sample.healthCheck)
                     "We don't support function routes") (events st).
Proof.
  split; [reflexivity|]. eexists. split; [vm_compute; reflexivity|]. split.
  - apply (proj2 (unsupported_routes_are_skipped
                    Sample.host SampleRun.sources Sample.config SampleRoutes.orphan eq_refl)
                 Sample.tools [SampleRoutes.orphan; Sample.healthCheck]);
      [now left | vm_compute; reflexivity].
  - apply (proj2 (unsupported_routes_are_skipped
                    Sample.host SampleRun.sources Sample.config Sample.healthCheck I)
                 Sample.tools [SampleRoutes.orphan; Sample.healthCheck]);
      [right; now left | vm_compute; reflexivity].
Defined.

(** ** Where written routes come from *)

Section Provenance.

Variable host : Host.
Variable sourcesFiles : list TsMorph.SourceFile.

Lemma acceptedFrom_incl candidates candidates' group r :
  incl candidates candidates' ->
  acceptedFrom host sourcesFiles candidates group r ->
  acceptedFrom host sourcesFiles candidates' group r.
Proof.
  intros Inc (route & reference & sf & draft & flag & I & H).
  exists route, reference, sf, draft, flag. split; [now apply Inc | exact H].
Qed.

Lemma routeStep_origin group st route st' :
  routeStep host sourcesFiles group st route = Ok st' ->
  parsedRoutes st' = parsedRoutes st
  \/ exists r, acceptedFrom host sourcesFiles [route] group r
               /\ parsedRoutes st' = (parsedRoutes st ++ [r])%list.
Proof.
  unfold routeStep.
  destruct (handler route) as [|reference] eqn:H.
  { intros E; injection E as <-. now left. }
  destruct (findSourceFile sourcesFiles (parseBindingReference host reference))
    as [sf|] eqn:F.
  2:{ intros E; injection E as <-. now left. }
  destruct (draftRoute host group route (parseBindingReference host reference) sf)
    as [draft|e] eqn:D; cbn [bind]; [|discriminate].
  destruct (checkCollisions _ draft) as [[]|e]; cbn [bind]; [|discriminate].
  destruct (validateController sf) as [message|flag] eqn:V;
    intros E; injection E as <-; [now left|].
  right. exists (setForm draft flag). split; [|reflexivity].
  exists route, reference, sf, draft, flag. repeat split; try assumption. now left.
Qed.

Lemma routes_origin group candidates routes : forall st st',
  incl routes candidates ->
  Forall (acceptedFrom host sourcesFiles candidates group) (parsedRoutes st) ->
  foldM (routeStep host sourcesFiles group) st routes = Ok st' ->
  Forall (acceptedFrom host sourcesFiles candidates group) (parsedRoutes st').
Proof.
  induction routes as [|r routes IH]; intros st st' Inc A; cbn [foldM].
  - intros E; now injection E as <-.
  - destruct (routeStep host sourcesFiles group st r) as [st1|e] eqn:S; cbn [bind];
      [|discriminate].
    apply IH; [intros x I; apply Inc; now right|].
    apply routeStep_origin in S as [-> | (x & O & ->)]; [exact A|].
    apply Forall_app. split; [exact A|]. constructor; [|constructor].
    apply (acceptedFrom_incl [r]); [|exact O].
    intros y [<-|[]]. apply Inc. now left.
Qed.

Lemma parseRoutes_origin groups routes : forall st st',
  incl routes groups ->
  Forall (fileFromGroups host sourcesFiles groups) (files st) ->
  parseRoutes host sourcesFiles st routes = Ok st' ->
  Forall (fileFromGroups host sourcesFiles groups) (files st').
Proof.
  unfold parseRoutes. induction routes as [|[g rs] routes IH]; intros st st' Inc A; cbn [foldM].
  - intros E; now injection E as <-.
  - destruct (groupStep host sourcesFiles st (g, rs)) as [st1|e] eqn:G; cbn [bind];
      [|discriminate].
    apply IH; [intros x I; apply Inc; now right|].
    apply groupStep_file in G as (st2 & L & ->).
    apply Forall_app. split; [exact A|]. constructor; [|constructor].
    exists rs. cbn [writeSchemaFile fileGroup fileRoutes].
    split; [apply Inc; now left|].
    apply (routes_origin g rs rs _ _ (incl_refl rs)) in L; [exact L | constructor].
Qed.

Lemma run_origin tools config routerRoutes st :
  run host sourcesFiles tools (Some config) routerRoutes = Ok st ->
  Forall (fileFromGroups host sourcesFiles (groupedAs config routerRoutes)) (files st).
Proof.
  intros R. apply run_inversion in R as (c & st5 & st6 & E & B & P & A).
  injection E as <-.
  apply beforeParsing_ok in B as (_ & _ & _ & _ & F5 & _).
  apply afterParsing_ok in A as (_ & _ & -> & _).
  apply (parseRoutes_origin _ _ _ _ (incl_refl _)) in P; [exact P|].
  rewrite F5. constructor.
Qed.

Lemma draftRoute_fields group route moduleNameOrPath sf draft :
  draftRoute host group route moduleNameOrPath sf = Ok draft ->
  let relativePath :=
    getRelativePath host (getClientPath host group) (TsMorph.getFilePath sf) in
  deriveName host (pattern route) relativePath = Ok (name draft)
  /\ rewritePath (pattern route) = Ok (path draft)
  /\ method draft = getMethod (methods route)
  /\ form draft = false
  /\ controller draft = {| Controller.relative := relativePath;
                           Controller.path := moduleNameOrPath |}.
Proof.
  unfold draftRoute.
  destruct (deriveName host _ _) as [nm|e]; cbn [bind]; [|discriminate].
  destruct (rewritePath _) as [p|e]; cbn [bind]; [|discriminate].
  intros H; injection H as <-. repeat split.
Qed.

End Provenance.

(** X6.  Every route written by a run that completes stems from a route
    of the router that belongs to the group of the file it is written
    in: that route has a controller reference, the source file found
    for the reference meets the controller contract, and the written
    route carries the rewritten pattern, the resolved method, the
    derived name, the module of the reference as controller path and,
    as import path, the path of the source file relative to the
    directory of that group. *)
Theorem written_routes_come_from_their_group
        (host : Host) (sourcesFiles : list TsMorph.SourceFile) (tools : Tools)
        (config : FinesConfig) (routerRoutes : list RouteJSON) (st : RunState) :
  run host sourcesFiles tools (Some config) routerRoutes = Ok st ->
  forall f r,
    In f (files st) -> In r (fileRoutes f) ->
    exists route reference sf,
      In route routerRoutes
      /\ routeGroup config route = fileGroup f
      /\ handler route = HandlerReference reference
      /\ findSourceFile sourcesFiles (parseBindingReference host reference) = Some sf
      /\ validateController sf = Valid (form r)
      /\ rewritePath (pattern route) = Ok (path r)
      /\ method r = getMethod (methods route)
      /\ controllerPath r = parseBindingReference host reference
      /\ Controller.relative (controller r)
         = getRelativePath host (getClientPath host (fileGroup f)) (TsMorph.getFilePath sf)
      /\ deriveName host (pattern route) (Controller.relative (controller r))
         = Ok (name r).
Proof.
  intros R f r If Ir. apply run_origin in R. rewrite Forall_forall in R.
  destruct (R f If) as (rs & G & A). rewrite Forall_forall in A.
  destruct (A r Ir) as (route & reference & sf & draft & flag & I & H & F & D & V & ->).
  apply groupedAs_In in G as (-> & _). apply filter_In in I as [I E].
  apply String.eqb_eq in E.
  apply draftRoute_fields in D as (N & P & M & _ & C).
  exists route, reference, sf. unfold controllerPath. cbn [setForm form path method name controller].
  rewrite C. cbn [Controller.relative Controller.path].
  repeat split; assumption.
Qed.

Lemma written_routes_come_from_their_group_witness :
  exists st f r,
    run Sample.host SampleRun.sources Sample.tools (Some Sample.config)
        [SampleRoutes.apiPing; Sample.listUsers] = Ok st
    /\ In f (files st) /\ In r (fileRoutes f)
    /\ exists route reference sf,
        In route [SampleRoutes.apiPing; Sample.listUsers]
        /\ routeGroup Sample.config route = fileGroup f
        /\ handler route = HandlerReference reference
        /\ findSourceFile SampleRun.sources reference = Some sf
        /\ rewritePath (pattern route) = Ok (path r).
Proof.
  eexists. eexists. eexists. split; [vm_compute; reflexivity|].
  split; [right; left; reflexivity|]. split; [left; reflexivity|].
  destruct (written_routes_come_from_their_group
              Sample.host SampleRun.sources Sample.tools Sample.config
              [SampleRoutes.apiPing; Sample.listUsers] _
              ltac:(vm_compute; reflexivity) _ _
              ltac:(right; left; reflexivity) ltac:(left; reflexivity))
    as (route & reference & sf & I & G & H & F & _ & P & _).
  exists route, reference, sf. repeat split; assumption.
Defined.

(** ** Splitting and joining *)

Lemma join_split c s :
  JsString.join (String c EmptyString) (JsString.split c s) = s.
Proof.
  unfold JsString.join. induction s as [|x s IH]; [reflexivity|].
  cbn [JsString.split]. pose proof (split_not_nil c s) as N.
  destruct (Ascii.eqb_spec x c) as [->|D].
  - destruct (JsString.split c s) as [|t ts]; [contradiction|].
    rewrite <- IH. reflexivity.
  - destruct (JsString.split c s) as [|t ts]; [contradiction|].
    rewrite <- IH. destruct ts; reflexivity.
Qed.

Lemma split_no_separator c s :
  Forall (fun w => JsString.all_chars (fun x => negb (isChar c x)) w = true)
         (JsString.split c s).
Proof.
  induction s as [|x s IH]; cbn [JsString.split].
  - constructor; [reflexivity | constructor].
  - destruct (Ascii.eqb x c) eqn:E.
    + constructor; [reflexivity | exact IH].
    + destruct (JsString.split c s) as [|t ts].
      * constructor; [|constructor]. cbn [JsString.all_chars]. unfold isChar. now rewrite E.
      * inversion IH as [|? ? Ht Hts]; subst. constructor; [|exact Hts].
        cbn [JsString.all_chars]. unfold isChar at 1. now rewrite E.
Qed.

Lemma all_chars_impl (p q : ascii -> bool) s :
  (forall c, p c = true -> q c = true) ->
  JsString.all_chars p s = true -> JsString.all_chars q s = true.
Proof.
  intros H. induction s as [|c s IH]; cbn [JsString.all_chars]; [reflexivity|].
  intros A. apply andb_true_iff in A as [A B]. now rewrite (H _ A), (IH B).
Qed.

Lemma all_chars_join p sep parts :
  JsString.all_chars p sep = true ->
  Forall (fun w => JsString.all_chars p w = true) parts ->
  JsString.all_chars p (JsString.join sep parts) = true.
Proof.
  intros S. unfold JsString.join. induction 1 as [|w ws Hw Hws IH]; [reflexivity|].
  destruct ws as [|v ws]; [exact Hw|].
  change (String.concat sep (w :: v :: ws)) with (w ++ sep ++ String.concat sep (v :: ws)).
  rewrite !all_chars_append, Hw, S. exact IH.
Qed.

(** ** Generated paths *)

Lemma letter_pathChar c : letter c = true -> pathChar c = true.
Proof. unfold pathChar. now intros ->. Qed.

Lemma literal_pathChar c :
  segmentChar c || JsString.is_upper c = true -> pathChar c = true.
Proof. destruct c as [[] [] [] [] [] [] [] []]; intros H; try discriminate H; reflexivity. Qed.

Lemma rewriteSegment_pathChar routePattern segmentIndex segment segment' :
  rewriteSegment routePattern segmentIndex segment = Ok segment' ->
  JsString.all_chars pathChar segment' = true.
Proof.
  rewrite rewriteSegment_cases. destruct (isParameter segment).
  - destruct (parameterName segment) as [nm|] eqn:P; [|discriminate].
    intros E; injection E as <-. apply parameterName_Some in P as (_ & _ & L).
    cbn [JsString.all_chars append].
    rewrite all_chars_append, (all_chars_impl _ _ _ letter_pathChar L). reflexivity.
  - destruct (anyCaseLiteral segment) eqn:A; [|discriminate].
    intros E; injection E as <-. unfold anyCaseLiteral in A.
    apply andb_true_iff in A as [_ A]. exact (all_chars_impl _ _ _ literal_pathChar A).
Qed.

Lemma rewriteSegments_pathChar routePattern segments : forall k rewritten,
  rewriteSegments routePattern k segments = Ok rewritten ->
  Forall (fun w => JsString.all_chars pathChar w = true) rewritten.
Proof.
  induction segments as [|segment rest IH]; intros k rewritten; cbn [rewriteSegments].
  - intros E; injection E as <-. constructor.
  - destruct (rewriteSegment routePattern k segment) as [segment'|e] eqn:Hs; cbn [bind];
      [|discriminate].
    destruct (rewriteSegments routePattern (S k) rest) as [rest'|e] eqn:R; cbn [bind];
      [|discriminate].
    intros E; injection E as <-. constructor.
    + exact (rewriteSegment_pathChar _ _ _ _ Hs).
    + exact (IH _ _ R).
Qed.

Lemma rewritePath_pathChar routePattern newPath :
  rewritePath routePattern = Ok newPath ->
  JsString.startsWith newPath "/" = true
  /\ JsString.all_chars pathChar newPath = true.
Proof.
  unfold rewritePath.
  destruct (rewriteSegments routePattern 0 _) as [rewritten|e] eqn:R; cbn [bind];
    [|discriminate].
  intros E; injection E as <-. split.
  - cbn [append JsString.startsWith]. reflexivity.
  - cbn [append JsString.all_chars]. apply andb_true_iff. split; [reflexivity|].
    apply all_chars_join; [reflexivity|]. exact (rewriteSegments_pathChar _ _ _ _ R).
Qed.

(** X7.  The path of every route written by a run that completes
    begins with a slash and holds nothing but letters, digits,
    hyphens, slashes and the braces and blanks of placeholders: no
    quote, no backslash, no line break and no parameter marker, so it
    can stand between the single quotes of the generated entry. *)
Theorem written_paths_are_plain
        (host : Host) (sourcesFiles : list TsMorph.SourceFile) (tools : Tools)
        (config : FinesConfig) (routerRoutes : list RouteJSON) (st : RunState) :
  run host sourcesFiles tools (Some config) routerRoutes = Ok st ->
  (forall r, In r (emittedRoutes st) ->
             JsString.startsWith (path r) "/" = true
             /\ JsString.all_chars pathChar (path r) = true)
  /\ map pathChar ["'"%char; "\"%char; ":"%char;
                   ascii_of_nat 10; ascii_of_nat 13; ascii_of_nat 34]
     = [false; false; false; false; false; false].
Proof.
  intros R. split; [|reflexivity]. intros r I.
  unfold emittedRoutes in I. apply in_concat in I as (rs & Irs & Ir).
  apply in_map_iff in Irs as (f & <- & If).
  apply run_origin in R. rewrite Forall_forall in R.
  destruct (R f If) as (cands & _ & A). rewrite Forall_forall in A.
  destruct (A r Ir) as (route & reference & sf & draft & flag & _ & _ & _ & D & _ & ->).
  apply draftRoute_fields in D as (_ & P & _). cbn [setForm path].
  exact (rewritePath_pathChar _ _ P).
Qed.

Lemma written_paths_are_plain_witness :
  exists st r,
    run Sample.host SampleRun.sources Sample.tools (Some Sample.config)
        [Sample.showUser] = Ok st
    /\ In r (emittedRoutes st)
    /\ path r = "/users/{{ id }}"
    /\ JsString.all_chars pathChar (path r) = true.
Proof.
  eexists. eexists. split; [vm_compute; reflexivity|].
  split; [left; reflexivity|]. split; [reflexivity|].
  apply (proj1 (written_paths_are_plain
                  Sample.host SampleRun.sources Sample.tools Sample.config
                  [Sample.showUser] _ ltac:(vm_compute; reflexivity))).
  left. reflexivity.
Defined.

Lemma anyCaseLiteral_not_parameter segment :
  anyCaseLiteral segment = true -> isParameter segment = false.
Proof.
  unfold anyCaseLiteral, isParameter. intros A. apply andb_true_iff in A as [_ A].
  destruct segment as [|c s]; [reflexivity|].
  cbn [JsString.startsWith JsString.all_chars] in *. apply andb_true_iff in A as [A _].
  destruct (Ascii.eqb_spec ":" c) as [<-|_]; [discriminate A | reflexivity].
Qed.

Lemma rewriteSegments_literals routePattern segments : forall k,
  forallb anyCaseLiteral segments = true ->
  rewriteSegments routePattern k segments = Ok segments.
Proof.
  induction segments as [|segment rest IH]; intros k A; [reflexivity|].
  cbn [forallb] in A. apply andb_true_iff in A as [A B].
  cbn [rewriteSegments]. rewrite rewriteSegment_cases.
  now rewrite (anyCaseLiteral_not_parameter _ A), A, (IH _ B).
Qed.

(** X8.  A pattern that begins with a slash and whose segments are all
    literals (non-empty, of letters, digits and hyphens) is rewritten
    to itself: without parameters the generated path is the pattern of
    the router, character for character. *)
Theorem literal_patterns_are_kept (rest : string) :
  forallb anyCaseLiteral (JsString.split "/" rest) = true ->
  rewritePath (String "/" rest) = Ok (String "/" rest).
Proof.
  intros A. unfold rewritePath. cbn [JsString.split JsString.slice1 tl].
  rewrite Ascii.eqb_refl. cbn [tl].
  rewrite (rewriteSegments_literals _ _ 0 A). cbn [bind].
  now rewrite (join_split "/" rest).
Qed.

Lemma literal_patterns_are_kept_witness :
  forallb anyCaseLiteral (JsString.split "/" "api/v2/blog-posts") = true
  /\ rewritePath "/api/v2/blog-posts" = Ok "/api/v2/blog-posts".
Proof.
  split; [reflexivity|]. exact (literal_patterns_are_kept "api/v2/blog-posts" eq_refl).
Defined.

(** ** The resolved method *)

Lemma lower_upper_lower_char c :
  JsString.lower_char (JsString.upper_char (JsString.lower_char c)) = JsString.lower_char c.
Proof. destruct c as [[] [] [] [] [] [] [] []]; reflexivity. Qed.

Lemma lower_lower_char c :
  JsString.lower_char (JsString.lower_char c) = JsString.lower_char c.
Proof. destruct c as [[] [] [] [] [] [] [] []]; reflexivity. Qed.

Lemma lower_upper_char c :
  JsString.lower_char (JsString.upper_char c) = JsString.lower_char c.
Proof. destruct c as [[] [] [] [] [] [] [] []]; reflexivity. Qed.

Lemma upper_upper_char c :
  JsString.upper_char (JsString.upper_char c) = JsString.upper_char c.
Proof. destruct c as [[] [] [] [] [] [] [] []]; reflexivity. Qed.

Lemma upper_not_lower c : JsString.is_lower (JsString.upper_char c) = false.
Proof. destruct c as [[] [] [] [] [] [] [] []]; reflexivity. Qed.

Lemma map_chars_compose f g h s :
  (forall c, f (g c) = h c) ->
  JsString.map_chars f (JsString.map_chars g s) = JsString.map_chars h s.
Proof.
  intros H. induction s as [|c s IH]; cbn [JsString.map_chars]; [reflexivity|].
  now rewrite H, IH.
Qed.

Lemma toLowerCase_idempotent s :
  JsString.toLowerCase (JsString.toLowerCase s) = JsString.toLowerCase s.
Proof. apply map_chars_compose, lower_lower_char. Qed.

Lemma toLowerCase_toUpperCase s :
  JsString.toLowerCase (JsString.toUpperCase s) = JsString.toLowerCase s.
Proof. apply map_chars_compose, lower_upper_char. Qed.

Lemma toUpperCase_idempotent s :
  JsString.toUpperCase (JsString.toUpperCase s) = JsString.toUpperCase s.
Proof. apply map_chars_compose, upper_upper_char. Qed.

Lemma toUpperCase_no_lower s :
  JsString.all_chars (fun c => negb (JsString.is_lower c)) (JsString.toUpperCase s) = true.
Proof.
  induction s as [|c s IH]; [reflexivity|].
  cbn [JsString.toUpperCase JsString.map_chars JsString.all_chars].
  rewrite upper_not_lower. exact IH.
Qed.

Lemma lastNonHead_Some methods m :
  lastNonHead methods = Some m -> In m methods /\ isHead m = false.
Proof.
  unfold lastNonHead.
  destruct (rev (filter (fun x => negb (isHead x)) methods)) as [|x l] eqn:R; [discriminate|].
  intros E; injection E as ->.
  assert (I : In m (rev (filter (fun x => negb (isHead x)) methods))) by (rewrite R; now left).
  apply in_rev, filter_In in I as [I N]. split; [exact I | now apply negb_true_iff].
Qed.

Lemma getMethod_same_fold (f : string -> string) methods :
  (forall m, JsString.toLowerCase (f m) = JsString.toLowerCase m) ->
  getMethod (map f methods) = getMethod methods.
Proof.
  intros H. unfold getMethod. generalize "GET".
  induction methods as [|m methods IH]; intros init; cbn [map fold_left]; [reflexivity|].
  now rewrite H, IH.
Qed.

Lemma getMethod_not_head methods : getMethod methods <> "HEAD".
Proof.
  unfold getMethod. rewrite getMethod_fold.
  destruct (lastNonHead methods) as [m|] eqn:L; [|discriminate].
  apply lastNonHead_Some in L as [_ N]. intros H.
  apply (f_equal JsString.toLowerCase) in H.
  rewrite toLowerCase_toUpperCase, toLowerCase_idempotent in H.
  unfold isHead in N. apply String.eqb_neq in N. apply N. exact H.
Qed.

Lemma getMethod_upper methods : JsString.toUpperCase (getMethod methods) = getMethod methods.
Proof.
  unfold getMethod. rewrite getMethod_fold.
  destruct (lastNonHead methods) as [m|]; [apply toUpperCase_idempotent | reflexivity].
Qed.

(** X9.  The method [#getMethod] resolves is never HEAD, is always in
    upper case, and does not depend on the case in which the methods
    are declared. *)
Theorem getMethod_canonical (methods : list string) :
  getMethod methods <> "HEAD"
  /\ JsString.toUpperCase (getMethod methods) = getMethod methods
  /\ getMethod (map JsString.toLowerCase methods) = getMethod methods
  /\ getMethod (map JsString.toUpperCase methods) = getMethod methods.
Proof.
  split; [apply getMethod_not_head|]. split; [apply getMethod_upper|]. split.
  - apply getMethod_same_fold, toLowerCase_idempotent.
  - apply getMethod_same_fold, toLowerCase_toUpperCase.
Qed.

(** ** Controller file names *)

(** X10.  When [#getConstructorAction] returns words, the last segment
    of the path ends with [_controller.ts], there is at least one
    word, no word holds an underscore, and the words joined by
    underscores are the file name with the first [_controller.ts]
    taken out; otherwise it throws, with the path as cause, "unable to
    determine" for a path that ends with a slash (or is empty) and
    "must end with" for every other file name. *)
Theorem getConstructorAction_words (p : string) :
  (forall ws,
      getConstructorAction p = Ok ws ->
      JsString.endsWith (finalSegment p) "_controller.ts" = true
      /\ ws <> []
      /\ Forall (fun w => JsString.all_chars (fun c => negb (isChar "_" c)) w = true) ws
      /\ JsString.join "_" ws
         = JsString.replace "_controller.ts" EmptyString (finalSegment p))
  /\ (finalSegment p = EmptyString ->
      getConstructorAction p = Throw (UnableToDetermineFileName p))
  /\ (finalSegment p <> EmptyString ->
      JsString.endsWith (finalSegment p) "_controller.ts" = false ->
      getConstructorAction p = Throw (FileNameMustEndWithController p)).
Proof.
  rewrite getConstructorAction_cases. cbv zeta. split; [|split].
  - intros ws.
    destruct (JsString.truthy (finalSegment p)); cbn [negb]; [|discriminate].
    destruct (JsString.endsWith (finalSegment p) "_controller.ts"); cbn [negb];
      [|discriminate].
    intros E; injection E as <-. split; [reflexivity|]. split; [apply split_not_nil|].
    split; [apply split_no_separator | apply join_split].
  - intros ->. reflexivity.
  - intros N E. rewrite E.
    destruct (finalSegment p); [contradiction | reflexivity].
Qed.

Lemma getConstructorAction_words_witness :
  let p := "../../app/controllers/users/show_posts_controller.ts" in
  getConstructorAction p = Ok ["show"; "posts"]
  /\ JsString.join "_" ["show"; "posts"]
     = JsString.replace "_controller.ts" EmptyString (finalSegment p)
  /\ getConstructorAction "../../app/controllers/" =
     Throw (UnableToDetermineFileName "../../app/controllers/")
  /\ getConstructorAction "../../app/users.ts"
     = Throw (FileNameMustEndWithController "../../app/users.ts").
Proof.
  intros p. split; [reflexivity|]. split.
  - apply (proj1 (getConstructorAction_words p) ["show"; "posts"] eq_refl).
  - split.
    + exact (proj1 (proj2 (getConstructorAction_words "../../app/controllers/")) eq_refl).
    + apply (proj2 (proj2 (getConstructorAction_words "../../app/users.ts")));
        [discriminate | reflexivity].
Defined.

(** ** Collisions *)

Lemma checkCollisions_find registered draft :
  checkCollisions registered draft
  = match find (collidesWith draft) registered with
    | None => Ok tt
    | Some r => Throw (collisionError draft r)
    end.
Proof.
  induction registered as [|r rs IH]; [reflexivity|].
  cbn [checkCollisions find]. unfold collidesWith at 1, sameController, sameKey.
  unfold controllerPath at 1 2, routeKey at 1 2.
  destruct (String.eqb (Controller.path (controller r)) (Controller.path (controller draft)))
    eqn:C; cbn [orb].
  { unfold collisionError, controllerPath. now rewrite C. }
  destruct (String.eqb (Name.key (name r)) (Name.key (name draft))); [|exact IH].
  unfold collisionError, controllerPath. now rewrite C.
Qed.

(** X11.  The collision loop reports the EARLIEST accepted route that
    shares its controller path or its key with the draft; for that
    route a shared controller path is reported in preference to a
    shared key, and the error carries the draft and that route.  It
    passes exactly when no accepted route shares either. *)
Theorem collision_reports_earliest (registered : list ParsedRoute) (draft : ParsedRoute) :
  (forall before r after,
      registered = (before ++ r :: after)%list ->
      forallb (fun x => negb (collidesWith draft x)) before = true ->
      collidesWith draft r = true ->
      checkCollisions registered draft
      = Throw (if sameController draft r
               then ControllerAlreadyRegistered draft r
               else KeyAlreadyRegistered draft r))
  /\ (forallb (fun x => negb (collidesWith draft x)) registered = true ->
      checkCollisions registered draft = Ok tt).
Proof.
  rewrite checkCollisions_find. split.
  - intros before r after -> B C.
    assert (F : find (collidesWith draft) (before ++ r :: after) = Some r).
    { induction before as [|b before IH]; cbn [app find forallb] in *.
      - now rewrite C.
      - apply andb_true_iff in B as [Hb B]. apply negb_true_iff in Hb. rewrite Hb.
        now apply IH. }
    rewrite F. reflexivity.
  - intros N. destruct (find (collidesWith draft) registered) as [r|] eqn:F; [|reflexivity].
    apply find_some in F as [I C]. rewrite forallb_forall in N.
    specialize (N r I). rewrite C in N. discriminate.
Qed.

Lemma collision_reports_earliest_witness :
  let first := SampleRun.createUserDraft in
  let second :=
    {| path := "/users"; method := "GET"; form := false;
       name := {| Name.key := "USERS"; Name.type := "UsersRoute" |};
       controller := {| Controller.relative := "../../app/controllers/users_controller.ts";
                        Controller.path := "#controllers/users_controller" |} |} in
  checkCollisions [first; second] second = Throw (KeyAlreadyRegistered second first).
Proof.
  intros first second.
  exact (proj1 (collision_reports_earliest [first; second] second)
               [] first [second] eq_refl eq_refl eq_refl).
Defined.

(** ** The error of [defineConfig] *)

Lemma checkGroups_first es :
  checkGroups es
  = match firstInvalidGroup es with
    | None => Ok tt
    | Some e => Throw (groupError e)
    end.
Proof.
  unfold firstInvalidGroup. induction es as [|[key value] es IH]; [reflexivity|].
  cbn [checkGroups find]. rewrite test_groupValue, test_groupKey.
  unfold validGroup at 1. cbn [fst snd].
  destruct (validGroupPattern value) eqn:V; cbn [negb andb].
  2:{ unfold groupError. cbn [fst snd]. now rewrite V. }
  destruct (validGroupKey key); cbn [negb]; [exact IH|].
  unfold groupError. cbn [fst snd]. now rewrite V.
Qed.

(** X13.  [defineConfig] reports the first invalid group in the
    enumeration order of the mapping (array-index keys first), and
    nothing after it; when both the pattern and the key of that group
    are malformed, it is the pattern that is reported. *)
Theorem defineConfig_reports_first_invalid (config : FinesConfig) :
  defineConfig config
  = match firstInvalidGroup (JsObject.entries (groups config)) with
    | None => Ok config
    | Some e => Throw (groupError e)
    end.
Proof.
  rewrite defineConfig_unfold, checkGroups_first.
  destruct (firstInvalidGroup _); reflexivity.
Qed.

(** ** Route names *)

Lemma splitRuns_not_nil sep s : JsString.splitRuns sep s <> [].
Proof.
  induction s as [|c s IH]; cbn [JsString.splitRuns]; [discriminate|].
  destruct (sep c).
  - destruct (JsString.head_is sep s); [exact IH | discriminate].
  - destruct (JsString.splitRuns sep s); discriminate.
Qed.

Lemma splitRuns_no_separator sep t :
  JsString.all_chars (fun c => negb (sep c)) t = true -> JsString.splitRuns sep t = [t].
Proof.
  induction t as [|c t IH]; cbn [JsString.all_chars JsString.splitRuns]; [reflexivity|].
  intros H. apply andb_true_iff in H as [C H]. apply negb_true_iff in C.
  rewrite C, (IH H). reflexivity.
Qed.

Lemma head_is_append sep q d t :
  JsString.head_is sep (q ++ String d t) = JsString.head_is sep (q ++ String d EmptyString).
Proof. destruct q; reflexivity. Qed.

Lemma splitRuns_trailing sep q d c t :
  sep d = false -> sep c = true ->
  JsString.all_chars (fun x => negb (sep x)) t = true ->
  JsString.splitRuns sep (q ++ String d (String c t))
  = (JsString.splitRuns sep (q ++ String d EmptyString) ++ [t])%list.
Proof.
  intros D C T. induction q as [|a q IH].
  - cbn [append JsString.splitRuns]. rewrite D, C.
    assert (H : JsString.head_is sep t = false).
    { destruct t as [|x t]; [reflexivity|]. cbn [JsString.all_chars] in T.
      apply andb_true_iff in T as [X _]. now apply negb_true_iff in X. }
    rewrite H, (splitRuns_no_separator sep t T). reflexivity.
  - cbn [append JsString.splitRuns].
    rewrite (head_is_append sep q d (String c t)). rewrite IH.
    destruct (sep a).
    + destruct (JsString.head_is sep (q ++ String d EmptyString)); reflexivity.
    + destruct (JsString.splitRuns sep (q ++ String d EmptyString)) as [|t0 ts] eqn:E;
        [now apply splitRuns_not_nil in E | reflexivity].
Qed.

Lemma patternTokens_trailing_parameter q d nm :
  isSeparator d = false ->
  JsString.all_chars (fun c => negb (isSeparator c)) nm = true ->
  patternTokens (q ++ String d ("/:" ++ nm)) = patternTokens (q ++ String d EmptyString).
Proof.
  intros D N. unfold patternTokens.
  change ("/:" ++ nm) with (String "/" (String ":" nm)).
  rewrite (splitRuns_trailing isSeparator q d "/" (String ":" nm) D eq_refl).
  - rewrite filter_app. cbn [filter]. unfold isParameter at 2.
    cbn [JsString.startsWith]. rewrite Ascii.eqb_refl. cbn [negb]. apply app_nil_r.
  - cbn [JsString.all_chars]. rewrite N. reflexivity.
Qed.

Lemma getConstructorAction_file_name p p' ws :
  finalSegment p' = finalSegment p ->
  getConstructorAction p = Ok ws -> getConstructorAction p' = Ok ws.
Proof.
  rewrite !getConstructorAction_cases. cbv zeta. intros ->.
  destruct (negb (JsString.truthy (finalSegment p))); [discriminate|].
  destruct (negb (JsString.endsWith (finalSegment p) "_controller.ts")); [discriminate|].
  exact (fun H => H).
Qed.

(** X14.  The name of a route ignores a trailing parameter of the
    pattern and the directory of the controller file: when a pattern
    that does not end with one of the separators [.], [/], [-] gets its
    name from a controller file, the pattern extended by [/:nm] (with
    no separator in [nm]) gets the same name from every controller
    file with the same file name. *)
Theorem name_ignores_trailing_parameter
        (host : Host) (q : string) (d : ascii) (nm file file' : string) (names : Name.t) :
  isSeparator d = false ->
  JsString.all_chars (fun c => negb (isSeparator c)) nm = true ->
  finalSegment file' = finalSegment file ->
  deriveName host (q ++ String d EmptyString) file = Ok names ->
  deriveName host (q ++ String d ("/:" ++ nm)) file' = Ok names.
Proof.
  intros D N F. unfold deriveName.
  destruct (getConstructorAction file) as [ws|e] eqn:G; cbn [bind]; [|discriminate].
  rewrite (getConstructorAction_file_name file file' ws F G). cbn [bind].
  now rewrite (patternTokens_trailing_parameter q d nm D N).
Qed.

Lemma name_ignores_trailing_parameter_witness :
  deriveName Sample.host "/users" "../../app/controllers/users_controller.ts"
  = Ok {| Name.key := "USERS"; Name.type := "UsersRoute" |}
  /\ deriveName Sample.host "/users/:id" "../../app/controllers/admin/users_controller.ts"
     = Ok {| Name.key := "USERS"; Name.type := "UsersRoute" |}.
Proof.
  split; [reflexivity|].
  exact (name_ignores_trailing_parameter Sample.host "/user" "s" "id"
           "../../app/controllers/users_controller.ts"
           "../../app/controllers/admin/users_controller.ts"
           {| Name.key := "USERS"; Name.type := "UsersRoute" |}
           eq_refl eq_refl eq_refl eq_refl).
Defined.

Lemma deriveName_shape host routePattern relativePath names :
  deriveName host routePattern relativePath = Ok names ->
  JsString.all_chars (fun c => negb (JsString.is_lower c)) (Name.key names) = true
  /\ JsString.endsWith (Name.type names) "Route" = true.
Proof.
  unfold deriveName.
  destruct (getConstructorAction relativePath) as [ws|e]; cbn [bind]; [|discriminate].
  intros E; injection E as <-. unfold nameOfPhrase. cbn [Name.key Name.type]. split.
  - apply toUpperCase_no_lower.
  - apply endsWith_spec. now eexists.
Qed.

(** X15.  Whatever the case helpers of the host do, every route written
    by a run that completes has a method in upper case that is not
    HEAD, a key without a lowercase ASCII letter and a type name that
    ends with [Route]. *)
Theorem written_routes_shape
        (host : Host) (sourcesFiles : list TsMorph.SourceFile) (tools : Tools)
        (config : FinesConfig) (routerRoutes : list RouteJSON) (st : RunState) :
  run host sourcesFiles tools (Some config) routerRoutes = Ok st ->
  forall r, In r (emittedRoutes st) ->
            method r <> "HEAD"
            /\ JsString.toUpperCase (method r) = method r
            /\ JsString.all_chars (fun c => negb (JsString.is_lower c)) (routeKey r) = true
            /\ JsString.endsWith (Name.type (name r)) "Route" = true.
Proof.
  intros R r I.
  unfold emittedRoutes in I. apply in_concat in I as (rs & Irs & Ir).
  apply in_map_iff in Irs as (f & <- & If).
  apply run_origin in R. rewrite Forall_forall in R.
  destruct (R f If) as (cands & _ & A). rewrite Forall_forall in A.
  destruct (A r Ir) as (route & reference & sf & draft & flag & _ & _ & _ & D & _ & ->).
  apply draftRoute_fields in D as (N & _ & M & _).
  unfold routeKey. cbn [setForm method name]. rewrite M.
  split; [apply getMethod_not_head|]. split; [apply getMethod_upper|].
  exact (deriveName_shape _ _ _ _ N).
Qed.

Lemma written_routes_shape_witness :
  exists st r,
    run Sample.host SampleRun.sources Sample.tools (Some Sample.config)
        [Sample.showUser] = Ok st
    /\ In r (emittedRoutes st)
    /\ method r <> "HEAD"
    /\ JsString.all_chars (fun c => negb (JsString.is_lower c)) (routeKey r) = true.
Proof.
  eexists. eexists. split; [vm_compute; reflexivity|].
  split; [left; reflexivity|].
  destruct (written_routes_shape
              Sample.host SampleRun.sources Sample.tools Sample.config
              [Sample.showUser] _ ltac:(vm_compute; reflexivity) _ (or_introl eq_refl))
    as (H & _ & K & _).
  split; [exact H | exact K].
Defined.
